(** * n-log: a shallow embedding of the logging pipeline

    The development follows the TypeScript sources of the package:
    - [base-logger.ts]   the shared event builder and the trace-id converter,
    - [file-logger.ts]   the hourly, retention-bounded file sink,
    - [slack-logger.ts]  the batched remote sink with its fallback.

    JavaScript numbers are modelled by [Z]: the numbers of the converter
    are integers, and on identifiers of at most 16 hexadecimal digits its
    two halves stay below 2^32 (lemmas [fromString_loop_value] and
    [division_step]), so every sum and product it forms is below 2^37,
    far inside the range where IEEE doubles are exact.  Bitwise operators
    go through [ToInt32] as the language does.  A number that need not be
    an integer (the retention of the file sink) is a rational.  Strings
    are [string], one [ascii] per code unit.  Calls run in a small monad
    of state, exceptions and suspension over an explicit environment:
    clock, file system, console, ambient span. *)

From Stdlib Require Import ZArith QArith Qround String Ascii List Bool Lia.
From stdpp Require Import gmap strings list fin_maps.

Local Open Scope string_scope.
Local Open Scope Z_scope.

(* ===================================================================== *)
(** ** JavaScript primitives used by the sources *)
(* ===================================================================== *)

Module Js.

(** [ToInt32]: reduction modulo 2^32 into the signed 32-bit range. *)
Definition ToInt32 (x : Z) : Z :=
  let m := x mod 2 ^ 32 in
  if 2 ^ 31 <=? m then m - 2 ^ 32 else m.

(** [a & b], [a >> n], [a << n] and [~a]. *)
Definition band (a b : Z) : Z := Z.land (ToInt32 a) (ToInt32 b).
Definition sar (a n : Z) : Z := Z.shiftr (ToInt32 a) (n mod 32).
Definition shl (a n : Z) : Z := ToInt32 (Z.shiftl (ToInt32 a) (n mod 32)).
Definition bnot (a : Z) : Z := Z.lnot (ToInt32 a).

(** [a % b] takes the sign of the dividend; [Math.floor(a / b)] on
    integers with a positive divisor is the floor quotient. *)
Definition rem (a b : Z) : Z := Z.rem a b.
Definition floor_div (a b : Z) : Z := a / b.

(** White space skipped by [parseInt] and tested by
    [isEmptyOrWhiteSpace] (the ASCII part of it). *)
Definition is_space (c : ascii) : bool :=
  let n := nat_of_ascii c in
  ((9 <=? n) && (n <=? 13))%nat || (n =? 32)%nat.

(** The value of a character as a digit, for radices up to 36. *)
Definition digit_value (c : ascii) : option Z :=
  let n := Z.of_nat (nat_of_ascii c) in
  if (48 <=? n) && (n <=? 57) then Some (n - 48)
  else if (97 <=? n) && (n <=? 122) then Some (n - 87)
  else if (65 <=? n) && (n <=? 90) then Some (n - 55)
  else None.

Definition digit_in_radix (radix : Z) (c : ascii) : option Z :=
  match digit_value c with
  | Some d => if d <? radix then Some d else None
  | None => None
  end.

Fixpoint skip_spaces (s : string) : string :=
  match s with
  | String c rest => if is_space c then skip_spaces rest else s
  | EmptyString => s
  end.

(** The longest prefix of radix digits, accumulated most significant
    digit first; [None] when the prefix is empty. *)
Fixpoint parse_digits (radix : Z) (s : string) (acc : option Z) : option Z :=
  match s with
  | String c rest =>
      match digit_in_radix radix c with
      | Some d =>
          parse_digits radix rest
            (Some (match acc with Some a => a * radix + d | None => d end))
      | None => acc
      end
  | EmptyString => acc
  end.

Definition strip_hex_prefix (s : string) : option string :=
  match s with
  | String c1 (String c2 rest) =>
      if Ascii.eqb c1 "0" && (Ascii.eqb c2 "x" || Ascii.eqb c2 "X")
      then Some rest
      else None
  | _ => None
  end.

(** [parseInt(s, radix)]; [None] stands for [NaN].  A radix of [None]
    is an omitted argument. *)
Definition parseInt (s : string) (radix : option Z) : option Z :=
  let s := skip_spaces s in
  let '(sign, s) :=
    match s with
    | String c rest =>
        if Ascii.eqb c "-" then (-1, rest)
        else if Ascii.eqb c "+" then (1, rest)
        else (1, s)
    | EmptyString => (1, s)
    end in
  let r := match radix with Some r => ToInt32 r | None => 0 end in
  if (r =? 0) || (r =? 16) then
    match strip_hex_prefix s with
    | Some rest => option_map (Z.mul sign) (parse_digits 16 rest None)
    | None =>
        option_map (Z.mul sign)
          (parse_digits (if r =? 0 then 10 else 16) s None)
    end
  else if (r <? 2) || (36 <? r) then None
  else option_map (Z.mul sign) (parse_digits r s None).

(** The character of a digit value, as [Number.prototype.toString]
    prints it. *)
Definition digit_char (d : Z) : ascii :=
  if d <? 10 then ascii_of_nat (Z.to_nat (48 + d))
  else ascii_of_nat (Z.to_nat (87 + d)).

Fixpoint nat_digits (fuel : nat) (radix n : Z) (acc : string) : string :=
  match fuel with
  | O => acc
  | S fuel' =>
      let acc' := String (digit_char (n mod radix)) acc in
      if n / radix =? 0 then acc' else nat_digits fuel' radix (n / radix) acc'
  end.

(** [n.toString(radix)] for an integer [n] (below 10^21 in radix 10,
    where no exponent is printed). *)
Definition int_toString (n radix : Z) : string :=
  if n <? 0
  then String "-" (nat_digits (S (Z.to_nat (Z.log2 (- n)))) radix (- n) "")
  else nat_digits (S (Z.to_nat (Z.log2 n))) radix n "".

(** [String.prototype.toLowerCase] on the ASCII range. *)
Definition lower_char (c : ascii) : ascii :=
  let n := nat_of_ascii c in
  if ((65 <=? n) && (n <=? 90))%nat then ascii_of_nat (n + 32) else c.

Fixpoint toLowerCase (s : string) : string :=
  match s with
  | String c rest => String (lower_char c) (toLowerCase rest)
  | EmptyString => EmptyString
  end.

(** [substr(0, n)]. *)
Definition substr0 (n : nat) (s : string) : string := String.substring 0 n s.

End Js.

(* ===================================================================== *)
(** ** base-logger.ts: the trace-id converter *)
(* ===================================================================== *)

Module TraceConverter.

Definition _UINT_MAX : Z := 4294967296.

(** A [Uint8Array]: a list of bytes.  A store past the end is ignored,
    as for typed arrays; an element is stored modulo 256. *)
Abbreviation Uint8Array := (list Z).

Definition new_Uint8Array (n : nat) : Uint8Array := replicate n 0.

Definition store (buffer : Uint8Array) (i : nat) (v : Z) : Uint8Array :=
  <[i := v mod 256]> buffer.

Definition _writeUInt32BE (buffer : Uint8Array) (value : Z) (offset : nat)
  : Uint8Array :=
  let buffer := store buffer (3 + offset) (Js.band value 255) in
  let value := Js.sar value 8 in
  let buffer := store buffer (2 + offset) (Js.band value 255) in
  let value := Js.sar value 8 in
  let buffer := store buffer (1 + offset) (Js.band value 255) in
  let value := Js.sar value 8 in
  store buffer (0 + offset) (Js.band value 255).

(** A read past the end is [undefined] and makes the sum [NaN]: [None]. *)
Definition _readInt32 (buffer : Uint8Array) (offset : nat) : option Z :=
  match buffer !! (offset + 0)%nat, buffer !! (offset + 1)%nat,
        buffer !! (offset + 2)%nat, buffer !! (offset + 3)%nat with
  | Some b0, Some b1, Some b2, Some b3 =>
      Some (b0 * 16777216 + Js.shl b1 16 + Js.shl b2 8 + b3)
  | _, _, _, _ => None
  end.

(** The body of [while (pos < len)] in [_fromString], over the
    characters from [pos] on. *)
Fixpoint fromString_loop (chars : string) (raddix high low : Z) : Z * Z :=
  match chars with
  | EmptyString => (high, low)
  | String c rest =>
      match Js.parseInt (String c EmptyString) (Some raddix) with
      | Some chr =>
          if 0 <=? chr then
            let low := low * raddix + chr in
            let high := high * raddix + Js.floor_div low _UINT_MAX in
            let low := Js.rem low _UINT_MAX in
            fromString_loop rest raddix high low
          else (high, low)
      | None => (high, low)
      end
  end.

Definition _fromString (str : string) (raddix : Z) : Uint8Array :=
  let buffer := new_Uint8Array 8 in
  let '(sign, chars) :=
    match str with
    | String "-" rest => (true, rest)
    | _ => (false, str)
    end in
  let '(high, low) := fromString_loop chars raddix 0 0 in
  let '(high, low) :=
    if sign then
      let high := Js.bnot high in
      if low =? 0 then (high + 1, low) else (high, _UINT_MAX - low)
    else (high, low) in
  let buffer := _writeUInt32BE buffer high 0 in
  _writeUInt32BE buffer low 4.

(** The [while (1)] loop of [_toNumberString]; [None] when the fuel
    runs out before the loop breaks. *)
Fixpoint toNumberString_loop (fuel : nat) (radix high low : Z) (str : string)
  : option string :=
  match fuel with
  | O => None
  | S fuel' =>
      let mod_ := Js.rem high radix * _UINT_MAX + low in
      let high := Js.floor_div high radix in
      let low := Js.floor_div mod_ radix in
      let str := Js.int_toString (Js.rem mod_ radix) radix ++ str in
      if (high =? 0) && (low =? 0) then Some str
      else toNumberString_loop fuel' radix high low str
  end.

(** [_toNumberString(buffer, radix)]; an omitted radix is 10.  With a
    buffer shorter than 8 bytes the halves are [NaN], the first
    iteration prints ["NaN"] and breaks. *)
Definition _toNumberString (fuel : nat) (buffer : Uint8Array)
    (radix : option Z) : option string :=
  let radix := match radix with Some r => r | None => 10 end in
  match _readInt32 buffer 0, _readInt32 buffer 4 with
  | Some high, Some low => toNumberString_loop fuel radix high low ""
  | _, _ => Some "NaN"
  end.

(** Enough iterations for any 64-bit value in any radix. *)
Definition enough_fuel : nat := 64.

End TraceConverter.

(* ===================================================================== *)
(** ** Reference notions for the converter (from the specification) *)
(* ===================================================================== *)

Module HexSpec.

(** The place of a character in an alphabet, counted from [i]. *)
Fixpoint position (c : ascii) (alphabet : string) (i : Z) : option Z :=
  match alphabet with
  | EmptyString => None
  | String a rest => if Ascii.eqb c a then Some i else position c rest (i + 1)
  end.

(** The digits of a well-formed hexadecimal string, in either case. *)
Definition hex_digit (c : ascii) : option Z :=
  match position c "0123456789abcdef" 0 with
  | Some d => Some d
  | None => position c "ABCDEF" 10
  end.

Fixpoint well_formed_hex (s : string) : bool :=
  match s with
  | EmptyString => true
  | String c rest =>
      match hex_digit c with Some _ => well_formed_hex rest | None => false end
  end.

(** The number a hexadecimal string denotes, most significant digit
    first. *)
Fixpoint hex_value_from (acc : Z) (s : string) : Z :=
  match s with
  | EmptyString => acc
  | String c rest =>
      hex_value_from (acc * 16 + match hex_digit c with Some d => d | None => 0 end) rest
  end.

Definition hex_value (s : string) : Z := hex_value_from 0 s.

Definition dec_digit (c : ascii) : option Z := position c "0123456789" 0.

(** A string is the unsigned decimal numeral of [v]: only decimal
    digits, at least one, read most significant first they give [v],
    and the first digit is zero only in the numeral ["0"]. *)
Fixpoint dec_value_from (acc : Z) (s : string) : option Z :=
  match s with
  | EmptyString => Some acc
  | String c rest =>
      match dec_digit c with
      | Some d => dec_value_from (acc * 10 + d) rest
      | None => None
      end
  end.

Definition no_leading_zero (s : string) : bool :=
  match s with
  | String "0" (String _ _) => false
  | _ => true
  end.

(** The first character is a digit other than zero. *)
Definition starts_nonzero (s : string) : Prop :=
  match s with
  | String c _ => exists k, dec_digit c = Some k /\ 0 < k
  | EmptyString => False
  end.

Definition is_decimal_of (v : Z) (s : string) : Prop :=
  s <> "" /\ dec_value_from 0 s = Some v /\ no_leading_zero s = true.

End HexSpec.

(* ===================================================================== *)
(** ** Effects: exceptions, suspension and the process environment *)
(* ===================================================================== *)

Module Eff.

(** Values that are thrown. *)
Inductive exn : Type :=
| TypeError (message : string)
| ArgumentNullException (argName : string)
| ArgumentException (argName reason : string)
| InvalidArgumentException (argName : string)
| SystemError (syscall path : string)
| DeliveryError (message : string)
| UserError (message : string).

(** How a call ends: it returns, it throws (a rejected promise, for an
    [async] function), or it stays suspended at an [await]. *)
Inductive completion (A : Type) : Type :=
| Normal (a : A)
| Throw (e : exn)
| Pending.
Arguments Normal {A} a.
Arguments Throw {A} e.
Arguments Pending {A}.

Definition M (S A : Type) : Type := S -> completion A * S.

Definition ret {S A} (a : A) : M S A := fun s => (Normal a, s).
Definition throw {S A} (e : exn) : M S A := fun s => (Throw e, s).
Definition suspend {S A} : M S A := fun s => (Pending, s).

Definition bind {S A B} (m : M S A) (k : A -> M S B) : M S B :=
  fun s =>
    match m s with
    | (Normal a, s') => k a s'
    | (Throw e, s') => (Throw e, s')
    | (Pending, s') => (Pending, s')
    end.

Definition get {S} : M S S := fun s => (Normal s, s).
Definition gets {S A} (f : S -> A) : M S A := fun s => (Normal (f s), s).
Definition modify {S} (f : S -> S) : M S unit := fun s => (Normal tt, f s).

(** [try { body } catch (e) { handler e }]. *)
Definition try_catch {S A} (body : M S A) (handler : exn -> M S A) : M S A :=
  fun s =>
    match body s with
    | (Throw e, s') => handler e s'
    | r => r
    end.

(** [try { body } finally { fin }]: [fin] runs when [body] returns or
    throws; a throw of [fin] replaces the outcome of [body]. *)
Definition try_finally {S A} (body : M S A) (fin : M S unit) : M S A :=
  fun s =>
    match body s with
    | (Pending, s') => (Pending, s')
    | (r, s') =>
        match fin s' with
        | (Normal _, s'') => (r, s'')
        | (Throw e, s'') => (Throw e, s'')
        | (Pending, s'') => (Pending, s'')
        end
    end.

(** Run a computation on one component of the state. *)
Definition zoom {S T A} (proj : S -> T) (inj : T -> S -> S) (m : M T A)
  : M S A :=
  fun s => let '(r, t) := m (proj s) in (r, inj t s).

(** [for (x of xs) await body(x)], stopping at the first throw. *)
Fixpoint for_each {S A} (xs : list A) (body : A -> M S unit) : M S unit :=
  match xs with
  | [] => ret tt
  | x :: rest => bind (body x) (fun _ => for_each rest body)
  end.

Declare Scope eff_scope.
Delimit Scope eff_scope with eff.
Notation "'let*' x ':=' m 'in' k" := (bind m (fun x => k))
  (at level 10, x name, m at level 100, k at level 200) : eff_scope.
Notation "m ';;' k" := (bind m (fun _ => k))
  (at level 100, k at level 200, right associativity) : eff_scope.

End Eff.

Import Eff.

(* ===================================================================== *)
(** ** The process environment *)
(* ===================================================================== *)

Module Env.

(** What [Fs.stat] reports of a directory entry, and the entry's
    content as the sequence of chunks appended to it. *)
Record Entry : Type := {
  isFile : bool;
  birthtime : Z;
  chunks : list string
}.

(** A path made by [Path.join(dir, name)]. *)
Record Path : Type := { dir : string; base : string }.

Inductive FsOp : Type :=
| OpAppend (p : Path)
| OpReaddir (d : string)
| OpStat (p : Path)
| OpUnlink (p : Path)
| OpMkdir (d : string).

(** What is written to the console, per method. *)
Inductive logged : Type :=
| LString (s : string)
| LError (e : exn).

Inductive ConsoleLine : Type :=
| console_info (v : logged)
| console_warn (v : logged)
| console_error (v : logged).

(** The ambient tracing span. *)
Record SpanContext : Type := {
  traceId : string;
  spanId : string;
  traceFlags : Z
}.

Record World : Type := {
  (** [Date.now()], "now" printed in a time zone by luxon, and
      [new Date().toISOString()] *)
  clock_ms : Z;
  clock_iso : string -> string;
  clock_date_iso : string;
  (** directories and their entries *)
  fs : gmap string (gmap string Entry);
  (** the file-system operations that fail *)
  fs_fault : FsOp -> bool;
  (** ghost: every chunk appended to a file, oldest first *)
  writes : list (Path * string);
  console : list ConsoleLine;
  (** what was written to [process.stdout], and how chalk renders a
      style on this terminal *)
  stdout : list string;
  chalk : string -> string -> string;
  active_span : option SpanContext;
  (** [span.setStatus] calls: the messages recorded with code ERROR *)
  span_errors : list string
}.

Definition set_fs (f : gmap string (gmap string Entry)) (w : World) : World :=
  {| clock_ms := clock_ms w; clock_iso := clock_iso w;
     clock_date_iso := clock_date_iso w; fs := f; fs_fault := fs_fault w; writes := writes w;
     console := console w; stdout := stdout w;
     chalk := chalk w; active_span := active_span w;
     span_errors := span_errors w |}.

Definition set_console (c : list ConsoleLine) (w : World) : World :=
  {| clock_ms := clock_ms w; clock_iso := clock_iso w;
     clock_date_iso := clock_date_iso w; fs := fs w; fs_fault := fs_fault w; writes := writes w;
     console := c; stdout := stdout w;
     chalk := chalk w; active_span := active_span w;
     span_errors := span_errors w |}.

Definition set_span_errors (e : list string) (w : World) : World :=
  {| clock_ms := clock_ms w; clock_iso := clock_iso w;
     clock_date_iso := clock_date_iso w; fs := fs w; fs_fault := fs_fault w; writes := writes w;
     console := console w; stdout := stdout w;
     chalk := chalk w; active_span := active_span w;
     span_errors := e |}.

Definition set_stdout (o : list string) (w : World) : World :=
  {| clock_ms := clock_ms w; clock_iso := clock_iso w;
     clock_date_iso := clock_date_iso w; fs := fs w; fs_fault := fs_fault w; writes := writes w;
     console := console w; stdout := o;
     chalk := chalk w; active_span := active_span w;
     span_errors := span_errors w |}.

Definition stream_write (data : string) : M World unit :=
  modify (fun w => set_stdout (stdout w ++ [data]) w).

Definition record_write (p : Path) (data : string) (w : World) : World :=
  {| clock_ms := clock_ms w; clock_iso := clock_iso w;
     clock_date_iso := clock_date_iso w; fs := fs w; fs_fault := fs_fault w;
     writes := writes w ++ [(p, data)];
     console := console w; stdout := stdout w;
     chalk := chalk w; active_span := active_span w;
     span_errors := span_errors w |}.

Definition console_write (l : ConsoleLine) : M World unit :=
  modify (fun w => set_console (console w ++ [l]) w).

Definition guard_fault (op : FsOp) (syscall path : string) : M World unit :=
  fun w => if fs_fault w op then (Throw (SystemError syscall path), w)
           else (Normal tt, w).

(** [Fs.promises.appendFile(path, data)]: creates the file when it is
    missing, with the current time as its birth time. *)
Definition appendFile (p : Path) (data : string) : M World unit :=
  (guard_fault (OpAppend p) "open" (base p) ;;
   fun w =>
     match fs w !! dir p with
     | None => (Throw (SystemError "open" (base p)), w)
     | Some d =>
         match d !! base p with
         | Some e =>
             if isFile e then
               let e' := {| isFile := true; birthtime := birthtime e;
                            chunks := chunks e ++ [data] |} in
               (Normal tt,
                record_write p data (set_fs (<[dir p := <[base p := e']> d]> (fs w)) w))
             else (Throw (SystemError "open" (base p)), w)
         | None =>
             let e' := {| isFile := true; birthtime := clock_ms w;
                          chunks := [data] |} in
             (Normal tt,
              record_write p data (set_fs (<[dir p := <[base p := e']> d]> (fs w)) w))
         end
     end)%eff.

(** [Fs.readdir(dir)]: the names of the entries. *)
Definition readdir (d : string) : M World (list string) :=
  (guard_fault (OpReaddir d) "scandir" d ;;
   fun w =>
     match fs w !! d with
     | Some entries => (Normal (map_to_list entries).*1, w)
     | None => (Throw (SystemError "scandir" d), w)
     end)%eff.

Definition stat (p : Path) : M World Entry :=
  (guard_fault (OpStat p) "stat" (base p) ;;
   fun w =>
     match fs w !! dir p ≫= (fun d => d !! base p) with
     | Some e => (Normal e, w)
     | None => (Throw (SystemError "stat" (base p)), w)
     end)%eff.

Definition unlink (p : Path) : M World unit :=
  (guard_fault (OpUnlink p) "unlink" (base p) ;;
   fun w =>
     match fs w !! dir p with
     | Some d =>
         match d !! base p with
         | Some _ => (Normal tt, set_fs (<[dir p := delete (base p) d]> (fs w)) w)
         | None => (Throw (SystemError "unlink" (base p)), w)
         end
     | None => (Throw (SystemError "unlink" (base p)), w)
     end)%eff.

Definition existsSync (d : string) : M World bool :=
  gets (fun w => bool_decide (is_Some (fs w !! d))).

Definition mkdirSync (d : string) : M World unit :=
  (guard_fault (OpMkdir d) "mkdir" d ;;
   fun w =>
     match fs w !! d with
     | Some _ => (Throw (SystemError "mkdir" d), w)
     | None => (Normal tt, set_fs (<[d := ∅]> (fs w)) w)
     end)%eff.

(** [Path.isAbsolute] on POSIX. *)
Definition isAbsolute (p : string) : bool :=
  match p with
  | String "/" _ => true
  | _ => false
  end.

Definition Path_join (d name : string) : Path := {| dir := d; base := name |}.

End Env.

Import Env.


(* ===================================================================== *)
(** ** Runtime values, numbers and argument guards *)
(* ===================================================================== *)

Module Value.

(** A number: a finite one is the rational it denotes. *)
Inductive JsNumber : Type :=
| Finite (q : Q)
| NaN
| PosInfinity
| NegInfinity.

(** The values a logger can be handed.  An object carries the outcome
    of the one method or property the loggers use on it. *)
Inductive value : Type :=
| VUndefined
| VNull
| VString (s : string)
| VNumber (n : JsNumber)
| VException (toString : completion string)
| VError (stack : completion string)
| VObject (toString : completion string).



(** [n > 0]. *)
Definition gt_zero (n : JsNumber) : bool :=
  match n with
  | Finite q => 0 <? Qnum q
  | PosInfinity => true
  | NaN | NegInfinity => false
  end.

(** The digits after the decimal point of [f], for [0 <= f < 1]. *)
Fixpoint frac_digits (fuel : nat) (f : Q) : string :=
  match fuel with
  | O => ""
  | S fuel' =>
      if Qeq_bool f 0 then ""
      else
        let d := Qfloor (f * 10) in
        String (Js.digit_char d) (frac_digits fuel' (f * 10 - inject_Z d))
  end.

Definition plain_decimal (q : Q) : string :=
  let ip := Qfloor q in
  let f := (q - inject_Z ip)%Q in
  (Js.int_toString ip 10
   ++ (if Qeq_bool f 0 then "" else String "." (frac_digits 20 f)))%string.

(** The least [n] (up to the fuel) with [q * 10^n >= 1]. *)
Fixpoint neg_exponent (fuel : nat) (q : Q) (n : Z) : Z :=
  match fuel with
  | O => n
  | S fuel' => if Qle_bool 1 q then n else neg_exponent fuel' (q * 10) (n + 1)
  end.

(** [Number.prototype.toString()] on a non-negative rational: plain
    decimal notation from 10^-6 up to 10^21, exponent notation outside.
    The digits are those of the decimal expansion of the rational (for
    a double, the language prints the shortest decimal that reads back
    to it; the part before the point or the exponent is the same). *)
Definition toString_nonneg (q : Q) : string :=
  if Qeq_bool q 0 then "0"
  else if Qle_bool (inject_Z (10 ^ 21)) q then
    let e := Z.of_nat (String.length (Js.int_toString (Qfloor q) 10)) - 1 in
    (plain_decimal (q / inject_Z (10 ^ e)) ++ "e+" ++ Js.int_toString e 10)%string
  else if Qle_bool (1 # 1000000) q then plain_decimal q
  else
    let n := neg_exponent 400 q 0 in
    (plain_decimal (q * inject_Z (10 ^ n)) ++ "e-" ++ Js.int_toString n 10)%string.

Definition Number_toString (n : JsNumber) : string :=
  match n with
  | Finite q =>
      if Qnum q <? 0 then String "-" (toString_nonneg (- q))
      else toString_nonneg q
  | NaN => "NaN"
  | PosInfinity => "Infinity"
  | NegInfinity => "-Infinity"
  end.

(** [s.isEmptyOrWhiteSpace()] of n-ext: nothing is left after trimming. *)
Fixpoint isEmptyOrWhiteSpace (s : string) : bool :=
  match s with
  | EmptyString => true
  | String c rest => Js.is_space c && isEmptyOrWhiteSpace rest
  end.

End Value.

Import Value.

(** The argument guards of n-defensive: [given(arg, name).ensure...()].
    [ensureHasValue] rejects [null], [undefined] and blank strings; the
    other guards let [null] and [undefined] through and check the rest. *)
Module Defensive.

Record Ensurer : Type := given { arg : value; argName : string }.

Definition is_nullish (v : value) : bool :=
  match v with VUndefined | VNull => true | _ => false end.

Definition ensureHasValue {S} (e : Ensurer) : M S Ensurer :=
  match arg e with
  | VUndefined | VNull => throw (ArgumentNullException (argName e))
  | VString s =>
      if isEmptyOrWhiteSpace s
      then throw (ArgumentException (argName e)
                    "string value cannot be empty or whitespace")
      else ret e
  | _ => ret e
  end.

Definition ensureIsString {S} (e : Ensurer) : M S Ensurer :=
  match arg e with
  | VUndefined | VNull | VString _ => ret e
  | _ => throw (ArgumentException (argName e) "must be string")
  end.

Definition ensureIsNumber {S} (e : Ensurer) : M S Ensurer :=
  match arg e with
  | VUndefined | VNull | VNumber _ => ret e
  | _ => throw (ArgumentException (argName e) "must be number")
  end.

Definition ensure {S} (pred : value -> bool) (reason : option string)
    (e : Ensurer) : M S Ensurer :=
  if is_nullish (arg e) then ret e
  else if pred (arg e) then ret e
  else
    match reason with
    | Some r => throw (ArgumentException (argName e) r)
    | None => throw (InvalidArgumentException (argName e))
    end.

End Defensive.


(* ===================================================================== *)
(** ** base-logger.ts: the shared event builder *)
(* ===================================================================== *)

Module LogDateTimeZone.
Definition utc : string := "utc".
Definition local : string := "local".
Definition est : string := "America/New_York".
Definition pst : string := "America/Los_Angeles".
End LogDateTimeZone.

Module LogPrefix.
Inductive t : Type := debug | info | warning | error.

Definition text (p : t) : string :=
  match p with
  | debug => "APP DEBUG:"
  | info => "APP INFO:"
  | warning => "APP WARNING:"
  | error => "APP ERROR:"
  end.
End LogPrefix.

Module BaseLogger.

(** [LogRecord & Record<string, any>]: the declared fields and the
    properties added to the object, in insertion order. *)
Record LogRecord : Type := {
  source : string;
  service : string;
  env : string;
  level : string;
  message : string;
  dateTime : string;
  time : string;
  extras : list (string * string)
}.

Fixpoint set_field (k v : string) (fields : list (string * string))
  : list (string * string) :=
  match fields with
  | [] => [(k, v)]
  | (k', v') :: rest =>
      if String.eqb k k' then (k, v) :: rest
      else (k', v') :: set_field k v rest
  end.

Fixpoint get_field (k : string) (fields : list (string * string))
  : option string :=
  match fields with
  | [] => None
  | (k', v') :: rest => if String.eqb k k' then Some v' else get_field k rest
  end.

(** [log[k] = v] *)
Definition with_extra (k v : string) (log : LogRecord) : LogRecord :=
  {| source := source log; service := service log; env := env log;
     level := level log; message := message log; dateTime := dateTime log;
     time := time log; extras := set_field k v (extras log) |}.

Record LoggerConfig : Type := {
  logDateTimeZone : option string;
  useJsonFormat : option bool;
  logInjector : option (LogRecord -> LogRecord);
  enableOtelToDatadogTraceConversion : option bool
}.

Record t : Type := {
  _source : string;
  _service : string;
  _env : string;
  _logDateTimeZone : string;
  _useJsonFormat : bool;
  _logInjector : option (LogRecord -> LogRecord);
  _enableOtelToDatadogTraceConversion : bool
}.

(** [ConfigurationManager.getConfig<string | null>(key)] *)
Definition AppConfig : Type := string -> option string.

Definition resolve_service (getConfig : AppConfig) : string :=
  match getConfig "package_name" with
  | Some s => s
  | None =>
      match getConfig "package.name" with
      | Some s => s
      | None => "n-log"
      end
  end.

(** [getConfig("env")?.toLowerCase() ?? "dev"] *)
Definition resolve_env (getConfig : AppConfig) : string :=
  match getConfig "env" with
  | Some s => Js.toLowerCase s
  | None => "dev"
  end.

Definition resolve_zone (zone : option string) : string :=
  match zone with
  | None => LogDateTimeZone.utc
  | Some z =>
      if (String.eqb z EmptyString) || isEmptyOrWhiteSpace z
         || negb (existsb (String.eqb z)
                    [LogDateTimeZone.utc; LogDateTimeZone.local;
                     LogDateTimeZone.est; LogDateTimeZone.pst])
      then LogDateTimeZone.utc
      else z
  end.

Definition new (getConfig : AppConfig) (config : option LoggerConfig) : t :=
  {| _source := "nodejs";
     _service := resolve_service getConfig;
     _env := resolve_env getConfig;
     _logDateTimeZone := resolve_zone (config ≫= logDateTimeZone);
     _useJsonFormat :=
       match config ≫= useJsonFormat with Some b => b | None => false end;
     _logInjector := config ≫= logInjector;
     _enableOtelToDatadogTraceConversion :=
       match config ≫= enableOtelToDatadogTraceConversion with
       | Some b => b
       | None => false
       end |}.

Definition lift {S A} (c : completion A) : M S A := fun s => (c, s).

(** The body of the [try] in [getErrorMessage]. *)
Definition render_error {S} (exp : value) : M S string :=
  match exp with
  | VException toString => lift toString
  | VError stack => lift stack
  | VObject toString => lift toString
  | VString s => ret s
  | VNumber n => ret (Number_toString n)
  | VNull =>
      throw (TypeError "Cannot read properties of null (reading 'toString')")
  | VUndefined =>
      throw (TypeError "Cannot read properties of undefined (reading 'toString')")
  end.

Definition rendering_failed : string :=
  "There was an error while attempting to log another error. Check earlier logs for a warning.".

Definition getErrorMessage (exp : value) : M World string :=
  try_catch (render_error exp)
    (fun error =>
       (console_write (console_warn (LError error)) ;;
        ret rendering_failed)%eff).

Definition getDateTime (self : t) : M World string :=
  let zone := _logDateTimeZone self in
  if String.eqb zone LogDateTimeZone.utc then
    gets (fun w => clock_iso w "utc")
  else if String.eqb zone LogDateTimeZone.local then
    gets (fun w => clock_iso w "local")
  else if String.eqb zone LogDateTimeZone.est then
    gets (fun w => clock_iso w "America/New_York")
  else if String.eqb zone LogDateTimeZone.pst then
    gets (fun w => clock_iso w "America/Los_Angeles")
  else gets (fun w => clock_iso w "utc").

(** [isSpanContextValid] of the tracing API: a trace id of 32 and a span
    id of 16 hexadecimal digits, neither all zero. *)
Fixpoint all_chars (p : ascii -> bool) (s : string) : bool :=
  match s with
  | EmptyString => true
  | String c rest => p c && all_chars p rest
  end.

Definition is_hex_char (c : ascii) : bool :=
  match Js.digit_in_radix 16 c with Some _ => true | None => false end.

Definition isValidId (n : nat) (s : string) : bool :=
  (String.length s =? n)%nat && all_chars is_hex_char s
  && negb (all_chars (Ascii.eqb "0") s).

Definition isSpanContextValid (ctx : SpanContext) : bool :=
  isValidId 32 (traceId ctx) && isValidId 16 (spanId ctx).

(** [s.slice(n)] *)
Fixpoint slice (n : nat) (s : string) : string :=
  match n, s with
  | S n', String _ rest => slice n' rest
  | _, _ => s
  end.

Definition setStatus_error (msg : string) : M World unit :=
  modify (fun w => set_span_errors (span_errors w ++ [msg]) w).

(** [_toNumberString(_fromString(id, 16))]; a loop that does not end
    leaves the call suspended. *)
Definition hex_to_decimal {S} (id : string) : M S string :=
  match TraceConverter._toNumberString TraceConverter.enough_fuel
          (TraceConverter._fromString id 16) None with
  | Some s => ret s
  | None => suspend
  end.

Definition injectTrace (self : t) (log : LogRecord) (isError : bool)
  : M World LogRecord :=
  (let* span := gets active_span in
   match span with
   | Some spanContext =>
       if isSpanContextValid spanContext then
         let log := with_extra "trace_id" (traceId spanContext) log in
         let log := with_extra "span_id" (spanId spanContext) log in
         let log :=
           with_extra "trace_flags"
             (String "0" (Js.int_toString (traceFlags spanContext) 16)) log in
         (if isError then setStatus_error (message log) else ret tt) ;;
         if _enableOtelToDatadogTraceConversion self then
           let traceIdEnd :=
             slice (String.length (traceId spanContext) / 2)
               (traceId spanContext) in
           let* ddTrace := hex_to_decimal traceIdEnd in
           let log := with_extra "dd.trace_id" ddTrace log in
           let* ddSpan := hex_to_decimal (spanId spanContext) in
           ret (with_extra "dd.span_id" ddSpan log)
         else ret log
       else ret log
   | None => ret log
   end)%eff.

(** [JSON.stringify] of a record whose properties are all strings. *)
Definition quote : ascii := "034"%char.
Definition backslash : ascii := "092"%char.

Definition json_escape_char (c : ascii) : string :=
  let n := Z.of_nat (nat_of_ascii c) in
  if n =? 34 then String backslash (String quote EmptyString)
  else if n =? 92 then String backslash (String backslash EmptyString)
  else if n =? 8 then String backslash "b"
  else if n =? 12 then String backslash "f"
  else if n =? 10 then String backslash "n"
  else if n =? 13 then String backslash "r"
  else if n =? 9 then String backslash "t"
  else if n <? 32 then
    String backslash
      (String "u" (String "0" (String "0"
         (String (Js.digit_char (n / 16))
            (String (Js.digit_char (n mod 16)) EmptyString)))))
  else String c EmptyString.

Fixpoint json_escape (s : string) : string :=
  match s with
  | EmptyString => EmptyString
  | String c rest => (json_escape_char c ++ json_escape rest)%string
  end.

Definition json_string (s : string) : string :=
  String quote (json_escape s ++ String quote EmptyString)%string.

Definition json_member (kv : string * string) : string :=
  (json_string (fst kv) ++ String ":" (json_string (snd kv)))%string.

Definition members (log : LogRecord) : list (string * string) :=
  [("source", source log); ("service", service log); ("env", env log);
   ("level", level log); ("message", message log);
   ("dateTime", dateTime log); ("time", time log)] ++ extras log.

Definition JSON_stringify (log : LogRecord) : string :=
  (String "{" (String.concat "," (map json_member (members log)))
   ++ "}")%string.

(** [if (this.logInjector) log = this.logInjector(log)] *)
Definition inject (self : t) (log : LogRecord) : LogRecord :=
  match _logInjector self with
  | Some f => f log
  | None => log
  end.

(** The same logger configured with another transform. *)
Definition with_injector (f : option (LogRecord -> LogRecord)) (self : t) : t :=
  {| _source := _source self; _service := _service self; _env := _env self;
     _logDateTimeZone := _logDateTimeZone self;
     _useJsonFormat := _useJsonFormat self;
     _logInjector := f;
     _enableOtelToDatadogTraceConversion :=
       _enableOtelToDatadogTraceConversion self |}.

End BaseLogger.


(* ===================================================================== *)
(** ** file-logger.ts: the rotating file sink *)
(* ===================================================================== *)

Module FileLogger.
Import BaseLogger Defensive.

Record FileLoggerConfig : Type := {
  config : LoggerConfig;
  logDirPath : value;
  retentionDays : value
}.

(** The instance: the fields of the base class, the mutex (held or
    free), the directory, the retention ([None] for [NaN]) and the time
    of the last purge. *)
Record t : Type := {
  super : BaseLogger.t;
  _mutex : bool;
  _logDirPath : string;
  _retentionDays : option Z;
  _lastPurgedAt : Z
}.

Abbreviation State := (t * World)%type.

Definition world {A} (m : M World A) : M State A :=
  zoom snd (fun w s => (fst s, w)) m.

Definition this : M State t := gets fst.

Definition set_mutex (b : bool) (l : t) : t :=
  {| super := super l; _mutex := b; _logDirPath := _logDirPath l;
     _retentionDays := _retentionDays l; _lastPurgedAt := _lastPurgedAt l |}.

Definition set_lastPurgedAt (z : Z) (l : t) : t :=
  {| super := super l; _mutex := _mutex l; _logDirPath := _logDirPath l;
     _retentionDays := _retentionDays l; _lastPurgedAt := z |}.

Definition with_injector (f : option (LogRecord -> LogRecord)) (l : t) : t :=
  {| super := BaseLogger.with_injector f (super l); _mutex := _mutex l;
     _logDirPath := _logDirPath l; _retentionDays := _retentionDays l;
     _lastPurgedAt := _lastPurgedAt l |}.

(** [Mutex.lock()] of n-util: a free mutex is taken at once, a held one
    leaves the caller waiting.  [Mutex.release()] frees it. *)
Definition mutex_lock : M State unit :=
  fun s =>
    if _mutex (fst s) then (Pending, s)
    else (Normal tt, (set_mutex true (fst s), snd s)).

Definition mutex_release : M State unit :=
  modify (fun s => (set_mutex false (fst s), snd s)).

(** [Duration.fromDays(d).toMilliSeconds()] *)
Definition days_to_ms (d : Z) : Z := d * 24 * 60 * 60 * 1000.

Definition constructor (getConfig : AppConfig) (cfg : FileLoggerConfig)
  : M World t :=
  (let base := BaseLogger.new getConfig (Some (config cfg)) in
   (let* e := ensureHasValue (given (logDirPath cfg) "logDirPath") in
    let* e := ensureIsString e in
    ensure (fun t => match t with VString p => isAbsolute p | _ => false end)
      (Some "must be absolute") e) ;;
   (let* e := ensureHasValue (given (retentionDays cfg) "retentionDays") in
    let* e := ensureIsNumber e in
    ensure (fun t => match t with VNumber n => gt_zero n | _ => false end)
      None e) ;;
   match logDirPath cfg, retentionDays cfg with
   | VString path, VNumber n =>
       let retention := Js.parseInt (Number_toString n) None in
       let* present := existsSync path in
       (if negb present then mkdirSync path else ret tt) ;;
       ret {| super := base; _mutex := false; _logDirPath := path;
              _retentionDays := retention; _lastPurgedAt := 0 |}
   | _, _ => throw (TypeError "not reached: the guards have thrown")
   end)%eff.

Definition _purgeLogs : M State unit :=
  (let* self := this in
   let* now := world (gets clock_ms) in
   (** a comparison with [NaN] is false *)
   let older_than_window (instant : Z) : bool :=
     match _retentionDays self with
     | Some d => instant <? now - days_to_ms d
     | None => false
     end in
   let within_window (instant : Z) : bool :=
     match _retentionDays self with
     | Some d => now - days_to_ms d <? instant
     | None => false
     end in
   if negb (_lastPurgedAt self =? 0) && within_window (_lastPurgedAt self)
   then ret tt
   else
     let* files := world (readdir (_logDirPath self)) in
     for_each files
       (fun file =>
          let filePath := Path_join (_logDirPath self) file in
          let* stats := world (stat filePath) in
          if isFile stats && older_than_window (birthtime stats)
          then world (unlink filePath)
          else ret tt) ;;
     modify (fun s => (set_lastPurgedAt now (fst s), snd s)))%eff.

Definition level_of (status : LogPrefix.t) : string :=
  match status with
  | LogPrefix.debug => "Debug"
  | LogPrefix.info => "Info"
  | LogPrefix.warning => "Warn"
  | LogPrefix.error => "Error"
  end.

Definition newline : ascii := "010"%char.

(** [_writeToLog] up to [await this._mutex.lock()]: the guards, the
    line to write and the path of the hourly file.  [status] is a member
    of the enumeration by its type, so its guard passes; the guard of
    [message] is the first thing that can throw. *)
Definition prepare (status : LogPrefix.t) (message : string)
  : M State (Path * string) :=
  ((let* e := ensureHasValue (given (VString message) "message") in
    ensureIsString e) ;;
   let* self := this in
   let* dateTime := world (getDateTime (super self)) in
   let* message :=
     if _useJsonFormat (super self) then
       let level := level_of status in
       let* time := world (gets clock_date_iso) in
       let log :=
         {| source := _source (super self);
            service := _service (super self);
            env := _env (super self);
            level := level;
            message := message;
            dateTime := dateTime;
            time := time;
            extras := [] |} in
       let* log := world (injectTrace (super self) log (String.eqb level "Error")) in
       let log := inject (super self) log in
       ret (JSON_stringify log)
     else
       ret (dateTime ++ String " " (LogPrefix.text status ++ String " " message))%string in
   let logFileName := (Js.substr0 13 dateTime ++ ".log")%string in
   let logFilePath := Path_join (_logDirPath self) logFileName in
   ret (logFilePath, message))%eff.

(** The [try { append; purge } catch { console.error } finally
    { release }] that follows the acquisition of the mutex. *)
Definition locked_section (logFilePath : Path) (message : string)
  : M State unit :=
  try_finally
    (try_catch
       (world (appendFile logFilePath (String newline message)) ;;
        _purgeLogs)%eff
       (fun error => world (console_write (console_error (LError error)))))
    mutex_release.

Definition _writeToLog (status : LogPrefix.t) (message : string)
  : M State unit :=
  (let* target := prepare status message in
   mutex_lock ;;
   locked_section (fst target) (snd target))%eff.

Definition logDebug (debug : string) : M State unit :=
  (let* self := this in
   if String.eqb (_env (super self)) "dev"
   then _writeToLog LogPrefix.debug debug
   else ret tt)%eff.

Definition logInfo (info : string) : M State unit :=
  _writeToLog LogPrefix.info info.

Definition logWarning (warning : value) : M State unit :=
  (let* msg := world (getErrorMessage warning) in
   _writeToLog LogPrefix.warning msg)%eff.

Definition logError (error : value) : M State unit :=
  (let* msg := world (getErrorMessage error) in
   _writeToLog LogPrefix.error msg)%eff.

End FileLogger.

(* ===================================================================== *)
(** ** console-logger.ts: the console sink *)
(* ===================================================================== *)

Module ConsoleLogger.
Import BaseLogger.

Definition json_line (self : BaseLogger.t) (level msg : string)
    (isError : bool) : M World unit :=
  (let* dateTime := getDateTime self in
   let* time := gets clock_date_iso in
   let log :=
     {| source := _source self; service := _service self; env := _env self;
        level := level; message := msg; dateTime := dateTime; time := time;
        extras := [] |} in
   let* log := injectTrace self log isError in
   let log := inject self log in
   stream_write (JSON_stringify log ++ String FileLogger.newline EmptyString)%string)%eff.

Definition plain_line (self : BaseLogger.t) (color : option string)
    (prefix : LogPrefix.t) (msg : string) : M World unit :=
  (let* dateTime := getDateTime self in
   let* paint := gets chalk in
   match color with
   | Some c =>
       stream_write
         (paint c (dateTime ++ String " "
                     (paint "bold" (LogPrefix.text prefix)
                      ++ String " " (msg ++ String FileLogger.newline EmptyString))))%string
   | None =>
       stream_write
         (dateTime ++ String " "
            (LogPrefix.text prefix
             ++ String " " (msg ++ String FileLogger.newline EmptyString)))%string
   end)%eff.

Definition logDebug (self : BaseLogger.t) (debug : string) : M World unit :=
  if String.eqb (_env self) "dev" then
    if _useJsonFormat self then json_line self "Debug" debug false
    else plain_line self None LogPrefix.debug debug
  else ret tt.

Definition logInfo (self : BaseLogger.t) (info : string) : M World unit :=
  if _useJsonFormat self then json_line self "Info" info false
  else plain_line self (Some "blue") LogPrefix.info info.

Definition logWarning (self : BaseLogger.t) (warning : value) : M World unit :=
  if _useJsonFormat self then
    (let* msg := getErrorMessage warning in
     json_line self "Warn" msg false)%eff
  else
    (let* msg := getErrorMessage warning in
     plain_line self (Some "yellow") LogPrefix.warning msg)%eff.

Definition logError (self : BaseLogger.t) (error : value) : M World unit :=
  if _useJsonFormat self then
    (let* msg := getErrorMessage error in
     json_line self "Error" msg true)%eff
  else
    (let* msg := getErrorMessage error in
     plain_line self (Some "red") LogPrefix.error msg)%eff.

End ConsoleLogger.


(* ===================================================================== *)
(** ** slack-logger.ts: the batched remote sink *)
(* ===================================================================== *)

Module SlackLogger.
Import BaseLogger Defensive.

(** A call received by the fallback [Logger]. *)
Inductive FallbackCall : Type :=
| FbDebug (debug : string)
| FbInfo (info : string)
| FbWarning (warning : logged)
| FbError (error : logged).

(** The fallback logger, as the sink sees it: each call is received
    and its promise then resolves or rejects. *)
Record Fallback : Type := { rejects : FallbackCall -> bool }.

Record SlackLoggerConfig : Type := {
  logDateTimeZone : option string;
  logInjector : option (LogRecord -> LogRecord);
  slackBotToken : value;
  slackBotChannel : value;
  slackUserName : value;
  slackUserImage : value;
  filter : option (list string);
  logFilter : option (LogRecord -> bool);
  fallback : option Fallback
}.

Record Attachment : Type := {
  color : option string;
  section_text : string;
  context_text : string
}.

(** The argument of [chat.postMessage]. *)
Record PostMessage : Type := {
  username : string;
  icon_emoji : option string;
  icon_url : option string;
  channel : string;
  text : string;
  attachments : list Attachment
}.

(** Who awaits a flush: the interval callback or the caller of
    [dispose]. *)
Inductive Origin : Type := FromTimer | FromDispose.

(** The instance.  [_messages] is a reference to an array in the
    store; [_disposePromise] is the number of the flush that [dispose]
    started. *)
Record t : Type := {
  super : BaseLogger.t;
  _includeInfo : bool;
  _includeWarn : bool;
  _includeError : bool;
  _logFilter : LogRecord -> bool;
  _fallbackLogger : option Fallback;
  _channel : string;
  _userName : string;
  _userImage : string;
  _userImageIsEmoji : bool;
  _messages : nat;
  _timer : bool;
  _isDisposed : bool;
  _disposePromise : option nat
}.

(** What the sink acts on: the store of arrays, the calls made to
    Slack and to the fallback (oldest first), the post calls not yet
    settled with the array each one holds, and the process environment.
    [pushed] is a ghost history of every record pushed, oldest first. *)
Record Runtime : Type := {
  heap : gmap nat (list LogRecord);
  next_ref : nat;
  posted : list PostMessage;
  fallback_calls : list FallbackCall;
  in_flight : list (nat * Origin);
  flushes : nat;
  pushed : list LogRecord;
  env_world : World
}.

Abbreviation State := (t * Runtime)%type.

Definition this : M State t := gets fst.

Definition set_world (w : World) (r : Runtime) : Runtime :=
  {| heap := heap r; next_ref := next_ref r; posted := posted r;
     fallback_calls := fallback_calls r; in_flight := in_flight r;
     flushes := flushes r; pushed := pushed r; env_world := w |}.

Definition world {A} (m : M World A) : M State A :=
  zoom (fun s => env_world (snd s)) (fun w s => (fst s, set_world w (snd s))) m.

Definition set_messages (l : nat) (self : t) : t :=
  {| super := super self; _includeInfo := _includeInfo self;
     _includeWarn := _includeWarn self; _includeError := _includeError self;
     _logFilter := _logFilter self; _fallbackLogger := _fallbackLogger self;
     _channel := _channel self; _userName := _userName self;
     _userImage := _userImage self;
     _userImageIsEmoji := _userImageIsEmoji self;
     _messages := l; _timer := _timer self;
     _isDisposed := _isDisposed self;
     _disposePromise := _disposePromise self |}.

Definition set_disposed (p : nat) (self : t) : t :=
  {| super := super self; _includeInfo := _includeInfo self;
     _includeWarn := _includeWarn self; _includeError := _includeError self;
     _logFilter := _logFilter self; _fallbackLogger := _fallbackLogger self;
     _channel := _channel self; _userName := _userName self;
     _userImage := _userImage self;
     _userImageIsEmoji := _userImageIsEmoji self;
     _messages := _messages self; _timer := false;
     _isDisposed := true;
     _disposePromise := Some p |}.

(** The content of an array. *)
Definition array (r : Runtime) (l : nat) : list LogRecord :=
  default [] (heap r !! l).

(** [new Array<SlackMessage>()] *)
Definition new_Array : M State nat :=
  fun s =>
    let r := snd s in
    (Normal (next_ref r),
     (fst s,
      {| heap := <[next_ref r := []]> (heap r); next_ref := S (next_ref r);
         posted := posted r; fallback_calls := fallback_calls r;
         in_flight := in_flight r; flushes := flushes r;
         pushed := pushed r; env_world := env_world r |})).

(** [this._messages.push(log)] *)
Definition push (log : LogRecord) : M State unit :=
  modify (fun s =>
    let r := snd s in
    let l := _messages (fst s) in
    (fst s,
     {| heap := <[l := (array r l ++ [log])%list]> (heap r); next_ref := next_ref r;
        posted := posted r; fallback_calls := fallback_calls r;
        in_flight := in_flight r; flushes := flushes r;
        pushed := (pushed r ++ [log])%list; env_world := env_world r |})).

Definition record_post (p : PostMessage) (l : nat) (o : Origin) : M State unit :=
  modify (fun s =>
    let r := snd s in
    (fst s,
     {| heap := heap r; next_ref := next_ref r;
        posted := (posted r ++ [p])%list; fallback_calls := fallback_calls r;
        in_flight := (in_flight r ++ [(l, o)])%list; flushes := S (flushes r);
        pushed := pushed r; env_world := env_world r |})).

Definition set_in_flight (f : list (nat * Origin)) (r : Runtime) : Runtime :=
  {| heap := heap r; next_ref := next_ref r; posted := posted r;
     fallback_calls := fallback_calls r; in_flight := f;
     flushes := flushes r; pushed := pushed r; env_world := env_world r |}.

Definition set_fallback_calls (c : list FallbackCall) (r : Runtime) : Runtime :=
  {| heap := heap r; next_ref := next_ref r; posted := posted r;
     fallback_calls := c; in_flight := in_flight r;
     flushes := flushes r; pushed := pushed r; env_world := env_world r |}.

(** A call to the fallback logger: it is received, then it resolves or
    rejects. *)
Definition fallback_call (fb : Fallback) (c : FallbackCall) : M State unit :=
  fun s =>
    let r' := set_fallback_calls (fallback_calls (snd s) ++ [c]) (snd s) in
    if rejects fb c
    then (Throw (UserError "the fallback logger rejected"), (fst s, r'))
    else (Normal tt, (fst s, r')).

Definition slack_record (self : t) (level msg dateTime time clr : string)
  : LogRecord :=
  {| source := _source (super self); service := _service (super self);
     env := _env (super self); level := level; message := msg;
     dateTime := dateTime; time := time; extras := [("color", clr)] |}.

Definition logDebug (debug : string) : M State unit :=
  (let* self := this in
   if String.eqb (_env (super self)) "dev" then
     let* dateTime := world (getDateTime (super self)) in
     let* time := world (gets clock_date_iso) in
     let log := slack_record self "Debug" debug dateTime time "#F8F8F8" in
     let log := inject (super self) log in
     push log
   else ret tt)%eff.

Definition logInfo (info : string) : M State unit :=
  (let* self := this in
   if negb (_includeInfo self) then ret tt
   else
     let* dateTime := world (getDateTime (super self)) in
     let* time := world (gets clock_date_iso) in
     let log := slack_record self "Info" info dateTime time "#259D2F" in
     if negb (_logFilter self log) then ret tt
     else
       let log := inject (super self) log in
       push log)%eff.

Definition logWarning (warning : value) : M State unit :=
  (let* self := this in
   if negb (_includeWarn self) then ret tt
   else
     let* msg := world (getErrorMessage warning) in
     let* dateTime := world (getDateTime (super self)) in
     let* time := world (gets clock_date_iso) in
     let log := slack_record self "Warn" msg dateTime time "#F1AB2A" in
     if negb (_logFilter self log) then ret tt
     else
       let log := inject (super self) log in
       push log)%eff.

Definition logError (error : value) : M State unit :=
  (let* self := this in
   if negb (_includeError self) then ret tt
   else
     let* msg := world (getErrorMessage error) in
     let* dateTime := world (getDateTime (super self)) in
     let* time := world (gets clock_date_iso) in
     let log := slack_record self "Error" msg dateTime time "#EF401D" in
     if negb (_logFilter self log) then ret tt
     else
       let log := inject (super self) log in
       push log)%eff.

Definition attachment_of (log : LogRecord) : Attachment :=
  {| color := get_field "color" (extras log);
     section_text := message log;
     context_text := dateTime log |}.

Definition post_of (self : t) (messages : list LogRecord) : PostMessage :=
  {| username := _userName self;
     icon_emoji := if _userImageIsEmoji self then Some (_userImage self) else None;
     icon_url := if negb (_userImageIsEmoji self) then Some (_userImage self) else None;
     channel := _channel self;
     text := (_service (super self)
              ++ String " " (String "[" (_env (super self) ++ "]")))%string;
     attachments := map attachment_of messages |}.

(** The [switch (log.level)] of the replay to the fallback. *)
Definition replay_call (log : LogRecord) : FallbackCall :=
  if String.eqb (level log) "Debug" then FbDebug (message log)
  else if String.eqb (level log) "Info" then FbInfo (message log)
  else if String.eqb (level log) "Warn" then FbWarning (LString (message log))
  else if String.eqb (level log) "Error" then FbError (LString (message log))
  else FbError (LString (message log)).

(** The [switch (log.level)] of the replay to the console. *)
Definition replay_console (log : LogRecord) : ConsoleLine :=
  if String.eqb (level log) "Debug" then console_info (LString (message log))
  else if String.eqb (level log) "Info" then console_info (LString (message log))
  else if String.eqb (level log) "Warn" then console_warn (LString (message log))
  else if String.eqb (level log) "Error" then console_error (LString (message log))
  else console_error (LString (message log)).

(** [_postMessages] up to its [await]: the call to [chat.postMessage],
    which reads the array. *)
Definition _postMessages_call (messages : nat) (o : Origin) : M State unit :=
  (let* self := this in
   let* batch := gets (fun s => array (snd s) messages) in
   record_post (post_of self batch) messages o)%eff.

(** [_postMessages] from its [await] on: the call has settled with
    [outcome]; a rejection enters the [catch] block. *)
Definition _postMessages_settle (messages : nat) (outcome : completion unit)
  : M State unit :=
  try_catch (lift outcome)
    (fun error =>
       (let* self := this in
        match _fallbackLogger self with
        | Some fb =>
            fallback_call fb (FbWarning (LString "Error while posting to slack.")) ;;
            fallback_call fb (FbError (LError error)) ;;
            fallback_call fb (FbWarning (LString "Original messages below")) ;;
            let* batch := gets (fun s => array (snd s) messages) in
            for_each batch (fun log => fallback_call fb (replay_call log))
        | None =>
            world (console_write (console_warn (LString "Error while posting to slack."))) ;;
            world (console_write (console_error (LError error))) ;;
            world (console_write (console_warn (LString "Original messages below"))) ;;
            let* batch := gets (fun s => array (snd s) messages) in
            for_each batch (fun log => world (console_write (replay_console log)))
        end)%eff).

(** [_flushMessages] up to the [await] inside [_postMessages]: the
    emptiness test, the swap and the call.  It returns the array that
    is being posted, if any. *)
Definition _flushMessages_begin (o : Origin) : M State (option nat) :=
  (let* self := this in
   let* current := gets (fun s => array (snd s) (_messages self)) in
   if (length current =? 0)%nat then ret None
   else
     let messagesToFlush := _messages self in
     let* fresh := new_Array in
     modify (fun s => (set_messages fresh (fst s), snd s)) ;;
     _postMessages_call messagesToFlush o ;;
     ret (Some messagesToFlush))%eff.

(** A whole [_flushMessages], when the post call settles at once. *)
Definition _flushMessages (outcome : completion unit) : M State unit :=
  (let* started := _flushMessages_begin FromTimer in
   match started with
   | Some messages =>
       modify (fun s => (fst s, set_in_flight (removelast (in_flight (snd s))) (snd s))) ;;
       _postMessages_settle messages outcome
   | None => ret tt
   end)%eff.

Definition dispose : M State (option nat) :=
  (let* self := this in
   if negb (_isDisposed self) then
     let* n := gets (fun s => flushes (snd s)) in
     modify (fun s => (set_disposed n (fst s), snd s)) ;;
     _flushMessages_begin FromDispose ;;
     ret (Some n)
   else ret (_disposePromise self))%eff.

(** The handler the interval callback attaches to a flush:
    [.catch(e => fallback?.logError(e).catch(e => console.error(e)) ?? console.error(e))] *)
Definition timer_catch (e : exn) : M State unit :=
  (let* self := this in
   match _fallbackLogger self with
   | Some fb =>
       try_catch (fallback_call fb (FbError (LError e)))
         (fun e' => world (console_write (console_error (LError e'))))
   | None => world (console_write (console_error (LError e)))
   end)%eff.

(** *** Construction *)

Definition string_or (v : value) (dflt : string) : string :=
  match v with
  | VString s => if isEmptyOrWhiteSpace s then dflt else s
  | _ => dflt
  end.

Fixpoint trim_left (s : string) : string :=
  match s with
  | String c rest => if Js.is_space c then trim_left rest else s
  | EmptyString => s
  end.

Fixpoint last_char (s : string) : option ascii :=
  match s with
  | EmptyString => None
  | String c EmptyString => Some c
  | String _ rest => last_char rest
  end.

Fixpoint trim_right (s : string) : string :=
  match s with
  | EmptyString => EmptyString
  | String c rest =>
      if isEmptyOrWhiteSpace s then EmptyString else String c (trim_right rest)
  end.

Definition is_emoji (image : string) : bool :=
  match image, last_char image with
  | String ":" _, Some ":"%char => true
  | _, _ => false
  end.

Definition allFilters : list string := ["Info"; "Warn"; "Error"].

Definition contains (l : list string) (x : string) : bool :=
  existsb (String.eqb x) l.

Definition empty_runtime (w : World) : Runtime :=
  {| heap := {[ 0%nat := [] ]}; next_ref := 1; posted := [];
     fallback_calls := []; in_flight := []; flushes := 0; pushed := [];
     env_world := w |}.

(** The constructor: the instance and the interval it starts.  The
    Slack client is created from the token and is not modelled
    further. *)
Definition constructor (getConfig : AppConfig) (cfg : SlackLoggerConfig)
  : M World State :=
  (let base :=
     BaseLogger.new getConfig
       (Some {| BaseLogger.logDateTimeZone := logDateTimeZone cfg;
                BaseLogger.useJsonFormat := None;
                BaseLogger.logInjector := logInjector cfg;
                BaseLogger.enableOtelToDatadogTraceConversion := None |}) in
   (let* e := ensureHasValue (given (slackBotToken cfg) "slackBotToken") in
    ensureIsString e) ;;
   (let* e := ensureHasValue (given (slackBotChannel cfg) "slackBotChannel") in
    ensureIsString e) ;;
   ensureIsString (given (slackUserName cfg) "slackUserName") ;;
   ensureIsString (given (slackUserImage cfg) "slackUserImage") ;;
   let filter := match filter cfg with Some f => f | None => allFilters end in
   (if forallb (contains allFilters) filter then ret tt
    else throw (InvalidArgumentException "filter")) ;;
   let image :=
     match slackUserImage cfg with
     | VString s =>
         if isEmptyOrWhiteSpace s then ":robot_face:"
         else trim_right (trim_left s)
     | _ => ":robot_face:"
     end in
   let* w := get in
   ret ({| super := base;
           _includeInfo := contains filter "Info";
           _includeWarn := contains filter "Warn";
           _includeError := contains filter "Error";
           _logFilter :=
             match logFilter cfg with Some f => f | None => fun _ => true end;
           _fallbackLogger := fallback cfg;
           _channel := string_or (slackBotChannel cfg) EmptyString;
           _userName := string_or (slackUserName cfg) (_service base);
           _userImage := image;
           _userImageIsEmoji := is_emoji image;
           _messages := 0%nat;
           _timer := true;
           _isDisposed := false;
           _disposePromise := None |},
        empty_runtime w))%eff.

(** *** The sink as a state machine

    One event is one run of the sink between two suspension points:
    a logging call, a firing of the interval, a call to [dispose], or
    the settling of the [i]-th post call in flight. *)
Inductive Event : Type :=
| EvLogDebug (debug : string)
| EvLogInfo (info : string)
| EvLogWarning (warning : value)
| EvLogError (error : value)
| EvTimer
| EvDispose
| EvSettle (i : nat) (outcome : completion unit).

Definition settle (i : nat) (outcome : completion unit) : M State unit :=
  fun s =>
    match in_flight (snd s) !! i with
    | None => (Normal tt, s)
    | Some (messages, origin) =>
        let s1 := (fst s, set_in_flight (delete i (in_flight (snd s))) (snd s)) in
        match _postMessages_settle messages outcome s1 with
        | (Throw e, s2) =>
            match origin with
            | FromTimer => timer_catch e s2
            | FromDispose => (Throw e, s2)
            end
        | r => r
        end
    end.

Definition step (ev : Event) (s : State) : State :=
  match ev with
  | EvLogDebug m => snd (logDebug m s)
  | EvLogInfo m => snd (logInfo m s)
  | EvLogWarning v => snd (logWarning v s)
  | EvLogError v => snd (logError v s)
  | EvTimer =>
      if _timer (fst s) then snd (_flushMessages_begin FromTimer s) else s
  | EvDispose => snd (dispose s)
  | EvSettle i outcome => snd (settle i outcome s)
  end.

Definition run (evs : list Event) (s : State) : State :=
  fold_left (fun s ev => step ev s) evs s.

(** The records waiting in the current batch. *)
Definition buffer (s : State) : list LogRecord :=
  array (snd s) (_messages (fst s)).

End SlackLogger.


(* ===================================================================== *)
(** ** Reference notions for the remote sink *)
(* ===================================================================== *)

Module SlackSpec.
Import BaseLogger SlackLogger.

(** Everything handed to [chat.postMessage] so far, call after call. *)
Definition delivered (r : Runtime) : list Attachment :=
  concat (map attachments (posted r)).

(** The two framing warnings of a failed delivery, with the delivery
    error between them. *)
Definition framing (error : exn) : list FallbackCall :=
  [FbWarning (LString "Error while posting to slack.");
   FbError (LError error);
   FbWarning (LString "Original messages below")].

(** The calls a fallback that never rejects receives for a batch. *)
Definition replay (error : exn) (batch : list LogRecord) : list FallbackCall :=
  framing error ++ map replay_call batch.

(** The sink is consistent: what was delivered and what waits in the
    batch is what was pushed, in order; the current array and the arrays
    of the post calls in flight are allocated and distinct. *)
Definition consistent (st : State) : Prop :=
  (delivered (snd st) ++ map attachment_of (buffer st))%list
  = map attachment_of (pushed (snd st))
  /\ (_messages (fst st) < next_ref (snd st))%nat
  /\ (forall loc o, (loc, o) ∈ in_flight (snd st) ->
        (loc < next_ref (snd st))%nat /\ loc <> _messages (fst st)).

End SlackSpec.

(* ===================================================================== *)
(** ** Sample environments and instances *)
(* ===================================================================== *)

Module Examples.
Import BaseLogger.

(** New Year 2026, 00:00 UTC, in a process with a log directory. *)
Definition new_year : Z := 1767225600000.

Definition world0 : World :=
  {| clock_ms := new_year;
     clock_iso := fun _ => "2026-01-01T00:00:00.000Z";
     clock_date_iso := "2026-01-01T00:00:00.000Z";
     fs := {[ "/var/log/app" := ∅ ]};
     fs_fault := fun _ => false;
     writes := [];
     console := [];
     stdout := [];
     chalk := fun _ s => s;
     active_span := None;
     span_errors := [] |}.


Definition unconfigured : AppConfig := fun _ => None.

Definition production : AppConfig :=
  fun key => if String.eqb key "env" then Some "Prod" else None.











Definition slack_logger (inj : option (LogRecord -> LogRecord))
    (fb : option SlackLogger.Fallback) : SlackLogger.t :=
  {| SlackLogger.super :=
       BaseLogger.new unconfigured
         (Some {| logDateTimeZone := None; useJsonFormat := None;
                  logInjector := inj;
                  enableOtelToDatadogTraceConversion := None |});
     SlackLogger._includeInfo := true;
     SlackLogger._includeWarn := true;
     SlackLogger._includeError := true;
     SlackLogger._logFilter := fun _ => true;
     SlackLogger._fallbackLogger := fb;
     SlackLogger._channel := "alerts";
     SlackLogger._userName := "n-log";
     SlackLogger._userImage := ":robot_face:";
     SlackLogger._userImageIsEmoji := true;
     SlackLogger._messages := 0%nat;
     SlackLogger._timer := true;
     SlackLogger._isDisposed := false;
     SlackLogger._disposePromise := None |}.

Definition slack_state (inj : option (LogRecord -> LogRecord))
    (fb : option SlackLogger.Fallback) : SlackLogger.t * SlackLogger.Runtime :=
  (slack_logger inj fb, SlackLogger.empty_runtime world0).


End Examples.


(* ===================================================================== *)
(** ** Reference notions for the retention sweep *)
(* ===================================================================== *)

Module Retention.



End Retention.


(* ===================================================================== *)
(** ** Notions used to state the properties *)
(* ===================================================================== *)

(** A computation that never stays suspended. *)
Definition settles {S A} (m : M S A) : Prop := forall s, fst (m s) <> Pending.

(** [m] does not change the observation [f] of the state. *)
Definition keeps {S A B} (f : S -> B) (m : M S A) : Prop :=
  forall s, f (snd (m s)) = f s.

(** A computation of the file sink that leaves the instance alone. *)
Definition keeps_logger {A} (m : M (FileLogger.t * World) A) : Prop :=
  forall s, fst (snd (m s)) = fst s.

(** A buffer whose elements are bytes. *)
Definition byte_sized (buf : list Z) : Prop := Forall (fun b => 0 <= b < 256) buf.

(** The part of the state of the remote sink the batches live in. *)
Definition core (st : SlackLogger.t * SlackLogger.Runtime) :=
  (fst st, SlackLogger.heap (snd st), SlackLogger.next_ref (snd st),
   SlackLogger.posted (snd st), SlackLogger.in_flight (snd st),
   SlackLogger.pushed (snd st)).

(** From [st] to [st'] the sink stays consistent and the arrays of the
    post calls in flight are untouched. *)
Definition preserved (st st' : SlackLogger.t * SlackLogger.Runtime) : Prop :=
  SlackSpec.consistent st ->
  SlackSpec.consistent st'
  /\ (forall loc o, (loc, o) ∈ SlackLogger.in_flight (snd st) ->
        SlackLogger.array (snd st') loc = SlackLogger.array (snd st) loc).

(** What a logging call does to the remote sink: it changes the
    environment and pushes at most one record. *)
Definition log_shape (l : SlackLogger.t) (r : SlackLogger.Runtime)
    (st' : SlackLogger.t * SlackLogger.Runtime) : Prop :=
  exists w1,
    st' = (l, SlackLogger.set_world w1 r)
    \/ exists log,
         st' = snd (SlackLogger.push log (l, SlackLogger.set_world w1 r)).

(* ===================================================================== *)
(** ** Further notions used to state the properties *)
(* ===================================================================== *)

Section FurtherNotions.
Import BaseLogger.

(** [m] takes every state to one that [R] relates to it. *)
Definition follows {S A} (R : S -> S -> Prop) (m : M S A) : Prop :=
  forall s, R s (snd (m s)).

(** The entry [name] of the directory [d], if both exist. *)
Definition entry_at (w : World) (d name : string) : option Entry :=
  fs w !! d ≫= (fun entries => entries !! name).


(** An entry the sweep of the file sink may delete: a regular file
    born before the cutoff, if there is a cutoff. *)
Definition deletable (cutoff : option Z) (e : Entry) : Prop :=
  isFile e = true /\ exists c, cutoff = Some c /\ birthtime e < c.

(** From [w] to [w'] only the disk changed, and all it lost are
    deletable entries of the directory [d]: the directories are the same,
    every other entry is as it was, nothing appeared. *)
Definition only_swept (d : string) (cutoff : option Z) (w w' : World) : Prop :=
  w' = set_fs (fs w') w
  /\ (forall d', is_Some (fs w' !! d') <-> is_Some (fs w !! d'))
  /\ (forall d' name,
        entry_at w' d' name = entry_at w d' name
        \/ (entry_at w' d' name = None /\ d' = d
            /\ exists e, entry_at w d' name = Some e /\ deletable cutoff e)).

(** The cutoff of a sweep of the file sink at the instant [now]: there
    is none when the retention is [NaN]. *)
Definition cutoff_of (l : FileLogger.t) (now : Z) : option Z :=
  match FileLogger._retentionDays l with
  | Some d => Some (now - FileLogger.days_to_ms d)
  | None => None
  end.

(** The same relation on the states of the file sink, the instance
    being untouched. *)
Definition sweep_step (d : string) (cutoff : option Z)
    (s s' : FileLogger.t * World) : Prop :=
  fst s' = fst s /\ only_swept d cutoff (snd s) (snd s').





(** The fields of the remote sink that are fixed at construction. *)
Definition fixed (l : SlackLogger.t) :=
  (SlackLogger.super l, SlackLogger._includeInfo l, SlackLogger._includeWarn l,
   SlackLogger._includeError l, SlackLogger._logFilter l,
   SlackLogger._fallbackLogger l, SlackLogger._channel l,
   SlackLogger._userName l, SlackLogger._userImage l,
   SlackLogger._userImageIsEmoji l).

(** A record as a logging call of the remote sink [l] builds it and
    lets it through: it carries the identity of the sink and the colour
    of its level; a debug record exists only in the ["dev"]
    environment, and a record of another level only if the level is
    allowed and the predicate accepts the record. *)
Definition accepted_record (l : SlackLogger.t) (log : LogRecord) : Prop :=
  source log = _source (SlackLogger.super l)
  /\ service log = _service (SlackLogger.super l)
  /\ env log = _env (SlackLogger.super l)
  /\ ((level log = "Debug" /\ extras log = [("color", "#F8F8F8")]
       /\ _env (SlackLogger.super l) = "dev")
      \/ (level log = "Info" /\ extras log = [("color", "#259D2F")]
          /\ SlackLogger._includeInfo l = true
          /\ SlackLogger._logFilter l log = true)
      \/ (level log = "Warn" /\ extras log = [("color", "#F1AB2A")]
          /\ SlackLogger._includeWarn l = true
          /\ SlackLogger._logFilter l log = true)
      \/ (level log = "Error" /\ extras log = [("color", "#EF401D")]
          /\ SlackLogger._includeError l = true
          /\ SlackLogger._logFilter l log = true)).

(** What one event adds to the history of the sink [l]: at most one
    record, the transform of an accepted one, and at most one post call,
    of a batch that is not empty. *)
Definition extends (l : SlackLogger.t)
    (st st' : SlackLogger.t * SlackLogger.Runtime) : Prop :=
  fixed (fst st') = fixed (fst st)
  /\ (SlackLogger.pushed (snd st') = SlackLogger.pushed (snd st)
      \/ exists log,
           accepted_record l log
           /\ SlackLogger.pushed (snd st')
              = (SlackLogger.pushed (snd st)
                 ++ [inject (SlackLogger.super l) log])%list)
  /\ (SlackLogger.posted (snd st') = SlackLogger.posted (snd st)
      \/ exists batch,
           batch <> []
           /\ SlackLogger.posted (snd st')
              = (SlackLogger.posted (snd st) ++ [SlackLogger.post_of l batch])%list).

(** The configurations the constructor of the remote sink accepts: a
    token and a channel that are strings with content, a user name and a
    user image that are strings when given, and a level filter within
    the three levels. *)
Definition string_with_content (v : value) : bool :=
  match v with
  | VString s => negb (isEmptyOrWhiteSpace s)
  | _ => false
  end.

Definition string_if_given (v : value) : bool :=
  match v with
  | VUndefined | VNull | VString _ => true
  | _ => false
  end.

Definition levels_of (cfg : SlackLogger.SlackLoggerConfig) : list string :=
  match SlackLogger.filter cfg with
  | Some f => f
  | None => SlackLogger.allFilters
  end.

Definition accepted_config (cfg : SlackLogger.SlackLoggerConfig) : bool :=
  string_with_content (SlackLogger.slackBotToken cfg)
  && string_with_content (SlackLogger.slackBotChannel cfg)
  && string_if_given (SlackLogger.slackUserName cfg)
  && string_if_given (SlackLogger.slackUserImage cfg)
  && forallb (SlackLogger.contains SlackLogger.allFilters) (levels_of cfg).

(** What the console receives when a delivery fails and there is no
    fallback logger. *)
Definition console_replay (error : exn) (batch : list LogRecord)
  : list ConsoleLine :=
  ([console_warn (LString "Error while posting to slack.");
    console_error (LError error);
    console_warn (LString "Original messages below")]
   ++ map SlackLogger.replay_console batch)%list.



End FurtherNotions.

(* ===================================================================== *)
(** ** Further sample environments and instances *)
(* ===================================================================== *)

Module Scenarios.
Import BaseLogger.

(** A request traced by OpenTelemetry: the ambient span of the W3C
    trace-context example, sampled. *)
Definition sampled_span : SpanContext :=
  {| traceId := "0af7651916cd43dd8448eb211c80319c";
     spanId := "b7ad6b7169203331";
     traceFlags := 1 |}.

Definition traced_world : World :=
  {| clock_ms := Examples.new_year;
     clock_iso := fun _ => "2026-01-01T00:00:00.000Z";
     clock_date_iso := "2026-01-01T00:00:00.000Z";
     fs := {[ "/var/log/app" := ∅ ]};
     fs_fault := fun _ => false;
     writes := [];
     console := [];
     stdout := [];
     chalk := fun _ s => s;
     active_span := Some sampled_span;
     span_errors := [] |}.

(** A JSON logger that converts trace ids for Datadog. *)
Definition datadog_logger : BaseLogger.t :=
  BaseLogger.new Examples.production
    (Some {| logDateTimeZone := Some "America/New_York";
             useJsonFormat := Some true;
             logInjector := None;
             enableOtelToDatadogTraceConversion := Some true |}).

Definition sample_record : LogRecord :=
  {| source := "nodejs"; service := "n-log"; env := "prod"; level := "Error";
     message := "payment failed"; dateTime := "2026-01-01T00:00:00.000Z";
     time := "2026-01-01T00:00:00.000Z"; extras := [] |}.

(** A sink that posts errors only, to the channel of the operators. *)
Definition errors_only : SlackLogger.SlackLoggerConfig :=
  {| SlackLogger.logDateTimeZone := None;
     SlackLogger.logInjector := None;
     SlackLogger.slackBotToken := VString "xoxb-token";
     SlackLogger.slackBotChannel := VString "ops";
     SlackLogger.slackUserName := VString "  ";
     SlackLogger.slackUserImage := VString " https://example.org/bot.png ";
     SlackLogger.filter := Some ["Error"];
     SlackLogger.logFilter := None;
     SlackLogger.fallback := None |}.

Definition errors_only_state : SlackLogger.t * SlackLogger.Runtime :=
  match SlackLogger.constructor Examples.production errors_only Examples.world0 with
  | (Normal st, _) => st
  | _ => Examples.slack_state None None
  end.



End Scenarios.

(* ===================================================================== *)
(** * Properties *)
(* ===================================================================== *)

(** ** The trace-id converter *)

Import TraceConverter HexSpec.

Section ConverterFacts.

Lemma ToInt32_small x : - 2 ^ 31 <= x < 2 ^ 31 -> Js.ToInt32 x = x.
Proof.
  intros Hx. unfold Js.ToInt32.
  destruct (Z_lt_le_dec x 0) as [Hneg | Hpos].
  - replace (x mod 2 ^ 32) with (x + 2 ^ 32).
    + destruct (Z.leb_spec (2 ^ 31) (x + 2 ^ 32)); lia.
    + apply Z.mod_unique with (q := -1); lia.
  - rewrite Z.mod_small by lia.
    destruct (Z.leb_spec (2 ^ 31) x); lia.
Qed.

Lemma ToInt32_range x : - 2 ^ 31 <= Js.ToInt32 x < 2 ^ 31.
Proof.
  unfold Js.ToInt32.
  pose proof (Z.mod_pos_bound x (2 ^ 32) ltac:(lia)).
  destruct (Z.leb_spec (2 ^ 31) (x mod 2 ^ 32)); lia.
Qed.

Lemma ToInt32_congr x : (Js.ToInt32 x) mod 2 ^ 32 = x mod 2 ^ 32.
Proof.
  unfold Js.ToInt32.
  destruct (Z.leb_spec (2 ^ 31) (x mod 2 ^ 32)).
  - replace (x mod 2 ^ 32 - 2 ^ 32) with (x mod 2 ^ 32 + (-1) * 2 ^ 32) by lia.
    rewrite Z.mod_add by lia. apply Z.mod_mod. lia.
  - apply Z.mod_mod. lia.
Qed.

Lemma band_255 x : Js.band x 255 = Js.ToInt32 x mod 256.
Proof.
  unfold Js.band. rewrite (ToInt32_small 255) by lia.
  change 255 with (Z.ones 8). rewrite Z.land_ones by lia. reflexivity.
Qed.

Lemma sar_8 x : Js.sar x 8 = Js.ToInt32 x / 256.
Proof.
  unfold Js.sar. change (8 mod 32) with 8.
  rewrite Z.shiftr_div_pow2 by lia. reflexivity.
Qed.

Lemma ToInt32_div_256 x : Js.ToInt32 (Js.ToInt32 x / 256) = Js.ToInt32 x / 256.
Proof.
  apply ToInt32_small.
  pose proof (ToInt32_range x).
  split.
  - apply Z.div_le_lower_bound; lia.
  - apply Z.div_lt_upper_bound; lia.
Qed.

Lemma shl_byte b k :
  0 <= b < 256 -> 0 <= k <= 16 -> Js.shl b k = b * 2 ^ k.
Proof.
  intros Hb Hk. unfold Js.shl.
  rewrite (ToInt32_small b) by lia.
  rewrite (Z.mod_small k 32) by lia.
  rewrite Z.shiftl_mul_pow2 by lia.
  apply ToInt32_small.
  assert (2 ^ k <= 2 ^ 16) by (apply Z.pow_le_mono_r; lia).
  assert (0 < 2 ^ k) by (apply Z.pow_pos_nonneg; lia).
  nia.
Qed.

(** The four bytes written for [v] are its base-256 digits. *)
Lemma bytes_recompose t :
  (t / 256 / 256 / 256) mod 256 * 16777216
  + (t / 256 / 256) mod 256 * 2 ^ 16
  + (t / 256) mod 256 * 2 ^ 8
  + t mod 256 = t mod 2 ^ 32.
Proof.
  change (2 ^ 32) with (256 * (256 * (256 * 256))).
  rewrite !Z.rem_mul_r by lia.
  change (2 ^ 16) with 65536. change (2 ^ 8) with 256. lia.
Qed.

Lemma writeUInt32BE_length buf v off :
  length (_writeUInt32BE buf v off) = length buf.
Proof. unfold _writeUInt32BE, store. cbv zeta. by rewrite !length_insert. Qed.

Lemma write_read_UInt32BE (buf : Uint8Array) (v : Z) :
  length buf = 8%nat ->
  0 <= v < 2 ^ 32 ->
  _readInt32 (_writeUInt32BE buf v 0) 0 = Some v
  /\ _readInt32 (_writeUInt32BE buf v 4) 4 = Some v
  /\ _readInt32 (_writeUInt32BE buf v 4) 0 = _readInt32 buf 0.
Proof.
  intros Hlen Hv.
  do 9 (destruct buf as [| ? buf]; try discriminate Hlen).
  assert (Hsum :
    Js.band (Js.sar (Js.sar (Js.sar v 8) 8) 8) 255 mod 256 * 16777216
    + Js.shl (Js.band (Js.sar (Js.sar v 8) 8) 255 mod 256) 16
    + Js.shl (Js.band (Js.sar v 8) 255 mod 256) 8
    + Js.band v 255 mod 256 = v).
  { rewrite !band_255, !sar_8, !ToInt32_div_256, !Z.mod_mod by lia.
    rewrite !shl_byte by (try apply Z.mod_pos_bound; lia).
    rewrite bytes_recompose, ToInt32_congr. apply Z.mod_small. lia. }
  unfold _writeUInt32BE, _readInt32, store. cbn [lookup].
  repeat split; cbn; try (f_equal; exact Hsum); reflexivity.
Qed.

(** *** [_fromString] on hexadecimal digits *)

Lemma parseInt_hex_char c d :
  hex_digit c = Some d ->
  Js.parseInt (String c "") (Some 16) = Some d /\ 0 <= d < 16.
Proof.
  destruct c as [[|] [|] [|] [|] [|] [|] [|] [|]]; cbn; intros H;
    try discriminate H; injection H as <-;
    (split; [vm_compute; reflexivity | lia]).
Qed.

Lemma hex_digit_range c :
  0 <= match hex_digit c with Some d => d | None => 0 end < 16.
Proof.
  destruct (hex_digit c) as [d |] eqn:E; [| lia].
  apply (parseInt_hex_char c d E).
Qed.

Lemma fromString_loop_value s :
  forall high low,
    well_formed_hex s = true -> 0 <= high -> 0 <= low < 2 ^ 32 ->
    exists h' l',
      fromString_loop s 16 high low = (h', l')
      /\ 0 <= h' /\ 0 <= l' < 2 ^ 32
      /\ h' * 2 ^ 32 + l' = hex_value_from (high * 2 ^ 32 + low) s.
Proof.
  induction s as [| c rest IH]; intros high low Hwf Hh Hl.
  - exists high, low. cbn. repeat split; lia.
  - cbn [well_formed_hex] in Hwf. cbn [fromString_loop hex_value_from].
    destruct (hex_digit c) as [d |] eqn:E; [| discriminate Hwf].
    destruct (parseInt_hex_char c d E) as [-> Hd].
    destruct (Z.leb_spec 0 d) as [_ | ?]; [| lia].
    unfold Js.floor_div, Js.rem, _UINT_MAX.
    rewrite Z.rem_mod_nonneg by lia.
    change 4294967296 with (2 ^ 32).
    pose proof (Z.div_mod (low * 16 + d) (2 ^ 32) ltac:(lia)) as Hdm.
    pose proof (Z.mod_pos_bound (low * 16 + d) (2 ^ 32) ltac:(lia)) as Hmb.
    assert (0 <= (low * 16 + d) / 2 ^ 32) by (apply Z.div_pos; lia).
    destruct (IH (high * 16 + (low * 16 + d) / 2 ^ 32)
                 ((low * 16 + d) mod 2 ^ 32) Hwf ltac:(lia) Hmb)
      as (h' & l' & Heq & Hh' & Hl' & Hval).
    exists h', l'. repeat split; try assumption; try lia.
    rewrite Hval. f_equal. lia.
Qed.

Lemma hex_value_from_bound s :
  forall acc, 0 <= acc ->
    acc * 16 ^ Z.of_nat (String.length s) <= hex_value_from acc s
    /\ hex_value_from acc s < (acc + 1) * 16 ^ Z.of_nat (String.length s).
Proof.
  induction s as [| c rest IH]; intros acc Hacc.
  - cbn. lia.
  - cbn [hex_value_from String.length].
    pose proof (hex_digit_range c) as Hd.
    set (d := match hex_digit c with Some d => d | None => 0 end) in *.
    destruct (IH (acc * 16 + d) ltac:(lia)) as [Hlo Hhi].
    rewrite Nat2Z.inj_succ, Z.pow_succ_r by lia.
    assert (0 < 16 ^ Z.of_nat (String.length rest))
      by (apply Z.pow_pos_nonneg; lia).
    split; nia.
Qed.

Lemma hex_value_below_2_64 h :
  (String.length h <= 16)%nat -> 0 <= hex_value h < 2 ^ 64.
Proof.
  intros Hlen. unfold hex_value.
  destruct (hex_value_from_bound h 0 ltac:(lia)) as [Hlo Hhi].
  assert (16 ^ Z.of_nat (String.length h) <= 16 ^ 16)
    by (apply Z.pow_le_mono_r; lia).
  change (16 ^ 16) with (2 ^ 64) in *. lia.
Qed.

Lemma fromString_unsigned h :
  well_formed_hex h = true ->
  _fromString h 16 =
    let '(high, low) := fromString_loop h 16 0 0 in
    _writeUInt32BE (_writeUInt32BE (new_Uint8Array 8) high 0) low 4.
Proof.
  destruct h as [| c rest]; [reflexivity |].
  destruct c as [[|] [|] [|] [|] [|] [|] [|] [|]]; cbn [well_formed_hex hex_digit];
    intros H; try discriminate H; reflexivity.
Qed.

(** *** [_toNumberString] in radix 10 *)

Lemma string_app_assoc (a b c : string) : ((a ++ b) ++ c = a ++ (b ++ c))%string.
Proof.
  induction a as [| x a IH]; [reflexivity |].
  change (String x ((a ++ b) ++ c) = String x (a ++ (b ++ c)))%string.
  by rewrite IH.
Qed.

Lemma dec_value_from_app s t :
  forall acc,
    dec_value_from acc (s ++ t) =
    match dec_value_from acc s with
    | Some a => dec_value_from a t
    | None => None
    end.
Proof.
  induction s as [| c s IH]; intros acc; [reflexivity |].
  change (String c s ++ t)%string with (String c (s ++ t)).
  cbn [dec_value_from].
  destruct (dec_digit c); [apply IH | reflexivity].
Qed.

Lemma decimal_digit_toString d :
  0 <= d < 10 ->
  Js.int_toString d 10 = String (Js.digit_char d) ""
  /\ dec_digit (Js.digit_char d) = Some d.
Proof.
  intros Hd.
  assert (d = 0 \/ d = 1 \/ d = 2 \/ d = 3 \/ d = 4 \/ d = 5 \/ d = 6
          \/ d = 7 \/ d = 8 \/ d = 9) as Hcases by lia.
  repeat (destruct Hcases as [-> | Hcases]; [split; reflexivity |]).
  subst d. split; reflexivity.
Qed.

(** One iteration is one step of the long division of the 64-bit value
    by ten. *)
Lemma division_step high low :
  0 <= high < 2 ^ 32 -> 0 <= low < 2 ^ 32 ->
  let mod_ := Js.rem high 10 * _UINT_MAX + low in
  let v := high * 2 ^ 32 + low in
  Js.floor_div high 10 * 2 ^ 32 + Js.floor_div mod_ 10 = v / 10
  /\ Js.rem mod_ 10 = v mod 10
  /\ 0 <= Js.floor_div high 10 < 2 ^ 32
  /\ 0 <= Js.floor_div mod_ 10 < 2 ^ 32.
Proof.
  intros Hh Hl. unfold Js.rem, Js.floor_div, _UINT_MAX. cbv zeta.
  change 4294967296 with (2 ^ 32).
  rewrite (Z.rem_mod_nonneg high 10) by lia.
  pose proof (Z.mod_pos_bound high 10 ltac:(lia)).
  rewrite Z.rem_mod_nonneg by lia.
  change (2 ^ 32) with 4294967296 in *.
  Z.div_mod_to_equations. lia.
Qed.

Lemma toNumberString_loop_decimal fuel :
  forall high low str,
    0 <= high < 2 ^ 32 -> 0 <= low < 2 ^ 32 ->
    high * 2 ^ 32 + low < 10 ^ Z.of_nat fuel -> (0 < fuel)%nat ->
    exists s,
      toNumberString_loop fuel 10 high low str = Some (s ++ str)%string
      /\ dec_value_from 0 s = Some (high * 2 ^ 32 + low)
      /\ (if high * 2 ^ 32 + low =? 0 then s = "0" else starts_nonzero s).
Proof.
  induction fuel as [| fuel IH]; intros high low str Hh Hl Hlt Hpos; [lia |].
  cbn [toNumberString_loop].
  destruct (division_step high low Hh Hl) as (Hq & Hr & Hh' & Hl').
  cbv zeta in Hq, Hr, Hl'.
  set (v := high * 2 ^ 32 + low) in *.
  set (mod_ := Js.rem high 10 * _UINT_MAX + low) in *.
  assert (Hv : 0 <= v) by (subst v; lia).
  pose proof (Z.mod_pos_bound v 10 ltac:(lia)) as Hd.
  pose proof (Z.div_mod v 10 ltac:(lia)) as Hdm.
  rewrite Hr.
  destruct (decimal_digit_toString (v mod 10) Hd) as [-> Hdig].
  destruct ((Js.floor_div high 10 =? 0) && (Js.floor_div mod_ 10 =? 0)) eqn:Hbrk.
  - apply andb_true_iff in Hbrk as [H1%Z.eqb_eq H2%Z.eqb_eq].
    assert (Hq0 : v / 10 = 0) by lia.
    exists (String (Js.digit_char (v mod 10)) ""). split; [reflexivity |].
    split.
    + cbn [dec_value_from]. rewrite Hdig. cbn [dec_value_from]. f_equal. lia.
    + destruct (Z.eqb_spec v 0) as [Hz | Hnz].
      * rewrite Hz. reflexivity.
      * cbn. exists (v mod 10). split; [assumption | lia].
  - assert (Hq1 : 0 < v / 10).
    { apply andb_false_iff in Hbrk as [H1%Z.eqb_neq | H2%Z.eqb_neq]; lia. }
    assert (Hlt' : v / 10 < 10 ^ Z.of_nat fuel).
    { rewrite Nat2Z.inj_succ, Z.pow_succ_r in Hlt by lia.
      apply Z.div_lt_upper_bound; lia. }
    assert (Hfuel : (0 < fuel)%nat).
    { destruct fuel; [cbn in Hlt'; lia | lia]. }
    rewrite <- Hq in Hlt'.
    destruct (IH _ _ (String (Js.digit_char (v mod 10)) str) Hh' Hl' Hlt' Hfuel)
      as (s' & Hrun & Hval & Hhead).
    exists (s' ++ String (Js.digit_char (v mod 10)) "")%string.
    split; [| split].
    + change (String (Js.digit_char (v mod 10)) "" ++ str)%string
        with (String (Js.digit_char (v mod 10)) str).
      rewrite Hrun, string_app_assoc. reflexivity.
    + rewrite dec_value_from_app, Hval. cbn [dec_value_from]. rewrite Hdig.
      cbn [dec_value_from]. f_equal. lia.
    + rewrite Hq in Hhead.
      destruct (Z.eqb_spec (v / 10) 0) as [? | _]; [lia |].
      destruct (Z.eqb_spec v 0) as [? | _]; [lia |].
      destruct s' as [| c0 s'']; [destruct Hhead | exact Hhead].
Qed.

Lemma starts_nonzero_no_leading_zero s :
  starts_nonzero s -> no_leading_zero s = true /\ s <> "".
Proof.
  destruct s as [| c rest]; [intros [] |].
  intros (k & Hk & Hpos). split; [| discriminate].
  unfold no_leading_zero.
  destruct c as [[|] [|] [|] [|] [|] [|] [|] [|]]; try reflexivity.
  cbn in Hk. injection Hk as <-. lia.
Qed.

End ConverterFacts.

(** C1.  For every well-formed hexadecimal string [h] of at most 16
    digits, [_fromString(h, 16)] followed by [_toNumberString] in radix 10
    (given explicitly or by default) returns, once the loop is given at
    least 20 iterations, the unsigned decimal numeral of the number [h]
    denotes: decimal digits only, no leading zero except in ["0"], and the
    value of [h], which is at most 2^64 - 1. *)
Theorem hex_to_decimal_exact (h : string) (radix : option Z) (fuel : nat) :
  HexSpec.well_formed_hex h = true ->
  (String.length h <= 16)%nat ->
  radix = None \/ radix = Some 10 ->
  (20 <= fuel)%nat ->
  exists s,
    TraceConverter._toNumberString fuel (TraceConverter._fromString h 16) radix
      = Some s
    /\ HexSpec.is_decimal_of (HexSpec.hex_value h) s
    /\ 0 <= HexSpec.hex_value h <= 2 ^ 64 - 1.
Proof.
  intros Hwf Hlen Hradix Hfuel.
  pose proof (hex_value_below_2_64 h Hlen) as Hbound.
  rewrite (fromString_unsigned h Hwf).
  destruct (fromString_loop_value h 0 0 Hwf ltac:(lia) ltac:(lia))
    as (high & low & -> & Hh & Hl & Hval).
  change (hex_value_from (0 * 2 ^ 32 + 0) h) with (hex_value h) in Hval.
  assert (Hh32 : 0 <= high < 2 ^ 32).
  { change (2 ^ 64) with (2 ^ 32 * 2 ^ 32) in Hbound. nia. }
  set (buf0 := new_Uint8Array 8).
  set (buf1 := _writeUInt32BE buf0 high 0).
  assert (Hlen1 : length buf1 = 8%nat)
    by (subst buf1; rewrite writeUInt32BE_length; reflexivity).
  destruct (write_read_UInt32BE buf0 high eq_refl Hh32) as (Hr0 & _ & _).
  destruct (write_read_UInt32BE buf1 low Hlen1 Hl) as (_ & Hr4 & Hr04).
  assert (Hrun : _toNumberString fuel (_writeUInt32BE buf1 low 4) radix
                 = toNumberString_loop fuel 10 high low "").
  { unfold _toNumberString. rewrite Hr04, Hr4. fold buf1. subst buf1.
    rewrite Hr0. destruct Hradix as [-> | ->]; reflexivity. }
  rewrite Hrun.
  assert (Hlt : high * 2 ^ 32 + low < 10 ^ Z.of_nat fuel).
  { assert (10 ^ 20 <= 10 ^ Z.of_nat fuel) by (apply Z.pow_le_mono_r; lia).
    change (10 ^ 20) with 100000000000000000000 in *.
    change (2 ^ 64) with 18446744073709551616 in *. lia. }
  destruct (toNumberString_loop_decimal fuel high low "" Hh32 Hl Hlt ltac:(lia))
    as (s & Hs & Hdec & Hhead).
  exists s. split; [| split].
  - rewrite Hs. f_equal. clear. induction s as [| c s IH]; [reflexivity |].
    change (String c s ++ "")%string with (String c (s ++ "")). by rewrite IH.
  - rewrite <- Hval. unfold is_decimal_of.
    destruct (Z.eqb_spec (high * 2 ^ 32 + low) 0) as [Hz | Hnz].
    + subst s. rewrite Hz. repeat split. discriminate.
    + destruct (starts_nonzero_no_leading_zero s Hhead) as [Hnlz Hne].
      repeat split; assumption.
  - lia.
Qed.

Lemma hex_to_decimal_exact_witness :
  exists s,
    TraceConverter._toNumberString 64
      (TraceConverter._fromString "ffffffffffffffff" 16) None = Some s
    /\ HexSpec.is_decimal_of (HexSpec.hex_value "ffffffffffffffff") s
    /\ 0 <= HexSpec.hex_value "ffffffffffffffff" <= 2 ^ 64 - 1.
Proof.
  apply (hex_to_decimal_exact "ffffffffffffffff" None 64).
  - reflexivity.
  - vm_compute. lia.
  - left. reflexivity.
  - lia.
Defined.


(** ** The event builder *)

Import BaseLogger.

Ltac eff_unfold :=
  unfold Eff.bind, Eff.ret, Eff.throw, Eff.suspend, Eff.get, Eff.gets,
    Eff.modify, Eff.try_catch, Eff.try_finally, Eff.zoom, BaseLogger.lift in *.

(** C4.  [getErrorMessage] never raises, whatever it is given.  When
    rendering the input returns a string, that string is the result and
    nothing else happens; when rendering throws (as it does for [null]
    and [undefined]), the thrown value goes to [console.warn] and the
    result is the fixed message. *)
Theorem getErrorMessage_never_raises (exp : value) (w : World) :
  (forall e, fst (getErrorMessage exp w) <> Throw e)
  /\ (forall s, fst (render_error exp w) = Normal s ->
        getErrorMessage exp w = (Normal s, w))
  /\ (forall e, fst (render_error exp w) = Throw e ->
        getErrorMessage exp w
        = (Normal rendering_failed,
           set_console (console w ++ [console_warn (LError e)]) w))
  /\ (exp = VNull \/ exp = VUndefined ->
        fst (getErrorMessage exp w)
        = Normal "There was an error while attempting to log another error. Check earlier logs for a warning.").
Proof.
  unfold getErrorMessage, console_write. eff_unfold.
  destruct exp as [| | s | n | [s | e |] | [s | e |] | [s | e |]]; cbn;
    repeat split; intros; try discriminate; try congruence;
    try (destruct H; discriminate).
Qed.



(** ** Numbers printed and read back *)

Section NumberFacts.

Lemma string_app_nil_r (s : string) : (s ++ "")%string = s.
Proof.
  induction s as [| c s IH]; [reflexivity |].
  change (String c s ++ "")%string with (String c (s ++ "")). by rewrite IH.
Qed.







End NumberFacts.

(** ** The file sink: construction *)




(** ** The file sink: the locked write and the purge *)

Section FileSinkFacts.
Import FileLogger Retention.

Lemma settles_bind {S A B} (m : M S A) (k : A -> M S B) :
  settles m -> (forall a, settles (k a)) -> settles (Eff.bind m k).
Proof.
  intros Hm Hk s. unfold Eff.bind. specialize (Hm s).
  destruct (m s) as [[a | e |] s']; cbn in *; [apply Hk | discriminate | congruence].
Qed.

Lemma settles_for_each {S A} (xs : list A) (body : A -> M S unit) :
  (forall x, settles (body x)) -> settles (for_each xs body).
Proof.
  intros Hb. induction xs as [| x xs IH]; cbn [for_each].
  - intros s. discriminate.
  - apply settles_bind; [apply Hb | intros _; exact IH].
Qed.

Lemma settles_world {A} (m : M World A) : settles m -> settles (world m).
Proof.
  intros Hm s. unfold world, Eff.zoom. specialize (Hm (snd s)).
  destruct (m (snd s)) as [r w']. exact Hm.
Qed.

Lemma settles_guard_then {A} op sc p (k : M World A) :
  settles k -> settles (Eff.bind (guard_fault op sc p) (fun _ => k)).
Proof.
  intros Hk. apply settles_bind; [| intros _; exact Hk].
  intros w. unfold guard_fault. destruct (fs_fault w op); discriminate.
Qed.


Lemma settles_readdir d : settles (readdir d).
Proof.
  unfold readdir. apply settles_guard_then. intros w.
  destruct (fs w !! d); discriminate.
Qed.

Lemma settles_stat p : settles (stat p).
Proof.
  unfold stat. apply settles_guard_then. intros w.
  destruct (fs w !! dir p ≫= _); discriminate.
Qed.

Lemma settles_unlink p : settles (unlink p).
Proof.
  unfold unlink. apply settles_guard_then. intros w.
  destruct (fs w !! dir p) as [d |]; [| discriminate].
  destruct (d !! base p); discriminate.
Qed.





Lemma keeps_logger_pure {A} (c : completion A) :
  keeps_logger (fun s => (c, s)).
Proof. intros s. reflexivity. Qed.


(** *** The sweep *)





End FileSinkFacts.





(** ** The converter always answers *)

Section ConverterTotal.

Lemma store_byte_sized buf i v : byte_sized buf -> byte_sized (store buf i v).
Proof.
  intros H. unfold store, byte_sized.
  destruct (decide (i < length buf)%nat) as [Hi | Hi].
  - apply Forall_insert; [exact H |]. apply Z.mod_pos_bound. lia.
  - rewrite list_insert_ge by lia. exact H.
Qed.

Lemma writeUInt32BE_byte_sized buf v off :
  byte_sized buf -> byte_sized (_writeUInt32BE buf v off).
Proof.
  intros H. unfold _writeUInt32BE. cbv zeta.
  repeat apply store_byte_sized. exact H.
Qed.

Lemma readInt32_byte_sized buf off :
  byte_sized buf -> length buf = 8%nat -> (off = 0 \/ off = 4)%nat ->
  exists v, _readInt32 buf off = Some v /\ 0 <= v < 2 ^ 32.
Proof.
  intros Hb Hlen Hoff.
  do 9 (destruct buf as [| ? buf]; try discriminate Hlen).
  unfold byte_sized in Hb.
  repeat match goal with
         | H : Forall _ (_ :: _) |- _ => apply Forall_cons in H as [? H]
         end.
  destruct Hoff as [-> | ->]; unfold _readInt32; cbn [lookup list_lookup Nat.add].
  all: rewrite !shl_byte by lia; eexists; (split; [reflexivity |]);
    change (2 ^ 16) with 65536; change (2 ^ 8) with 256;
    change (2 ^ 32) with 4294967296; lia.
Qed.

Lemma fromString_shape str raddix :
  byte_sized (_fromString str raddix) /\ length (_fromString str raddix) = 8%nat.
Proof.
  unfold _fromString.
  destruct (match str with EmptyString => _ | String _ _ => _ end) as [sign chars].
  destruct (fromString_loop chars raddix 0 0) as [high low].
  destruct (if sign then _ else _) as [high' low'].
  split.
  - repeat apply writeUInt32BE_byte_sized. unfold new_Uint8Array, byte_sized.
    cbn. repeat constructor; lia.
  - rewrite !writeUInt32BE_length. reflexivity.
Qed.

(** With the fuel the loggers give it, the conversion of any string
    returns a string. *)
Lemma toNumberString_total str :
  exists s, _toNumberString enough_fuel (_fromString str 16) None = Some s.
Proof.
  destruct (fromString_shape str 16) as [Hb Hlen].
  destruct (readInt32_byte_sized _ 0 Hb Hlen ltac:(lia)) as (high & Hh & Hhr).
  destruct (readInt32_byte_sized _ 4 Hb Hlen ltac:(lia)) as (low & Hl & Hlr).
  unfold _toNumberString. rewrite Hh, Hl.
  assert (Hlt : high * 2 ^ 32 + low < 10 ^ Z.of_nat enough_fuel).
  { assert (2 ^ 64 < 10 ^ Z.of_nat enough_fuel) by (vm_compute; reflexivity).
    change (2 ^ 64) with (2 ^ 32 * 2 ^ 32) in *. nia. }
  destruct (toNumberString_loop_decimal enough_fuel high low "" Hhr Hlr Hlt
              ltac:(unfold enough_fuel; lia)) as (s & Hs & _).
  eauto.
Qed.

End ConverterTotal.

(** ** What a logging call leaves unchanged *)

Section Frames.

Lemma keeps_bind {S A B C} (f : S -> C) (m : M S A) (k : A -> M S B) :
  keeps f m -> (forall a, keeps f (k a)) -> keeps f (Eff.bind m k).
Proof.
  intros Hm Hk s. unfold Eff.bind. specialize (Hm s).
  destruct (m s) as [[a | e |] s']; cbn in *; [| assumption | assumption].
  rewrite Hk. exact Hm.
Qed.

Lemma keeps_for_each {S A C} (f : S -> C) (xs : list A) (body : A -> M S unit) :
  (forall x, keeps f (body x)) -> keeps f (for_each xs body).
Proof.
  intros Hb. induction xs as [| x xs IH]; cbn [for_each].
  - intros s. reflexivity.
  - apply keeps_bind; [apply Hb | intros _; exact IH].
Qed.







Lemma getDateTime_returns (self : BaseLogger.t) (w : World) :
  exists dt, getDateTime self w = (Normal dt, w).
Proof.
  unfold getDateTime, Eff.gets.
  repeat match goal with
         | |- context [if ?b then _ else _] => destruct b
         end; eauto.
Qed.

Lemma hex_to_decimal_returns {S} (id : string) (s : S) :
  exists str, hex_to_decimal id s = (Normal str, s).
Proof.
  unfold hex_to_decimal. destruct (toNumberString_total id) as [str ->].
  unfold Eff.ret. eauto.
Qed.

(** [injectTrace] returns, and changes at most the status of the span. *)
Lemma injectTrace_returns (self : BaseLogger.t) (log : LogRecord)
    (isError : bool) (w : World) :
  exists log' errs,
    injectTrace self log isError w = (Normal log', set_span_errors errs w).
Proof.
  assert (Hsame : set_span_errors (span_errors w) w = w) by (by destruct w).
  unfold injectTrace, Eff.gets, Eff.bind at 1.
  destruct (active_span w) as [ctx |];
    [| exists log, (span_errors w); rewrite Hsame; reflexivity].
  destruct (isSpanContextValid ctx);
    [| exists log, (span_errors w); rewrite Hsame; reflexivity].
  unfold Eff.bind at 1.
  set (log1 := with_extra "trace_flags" _ _).
  assert (Hstatus : exists errs,
             (if isError then setStatus_error (message log1) else Eff.ret tt) w
             = (Normal tt, set_span_errors errs w)).
  { destruct isError; unfold setStatus_error, Eff.modify, Eff.ret;
      [eauto | exists (span_errors w); rewrite Hsame; reflexivity]. }
  destruct Hstatus as (errs & ->).
  destruct (_enableOtelToDatadogTraceConversion self); [| unfold Eff.ret; eauto].
  unfold Eff.bind at 1.
  destruct (hex_to_decimal_returns (slice (String.length (traceId ctx) / 2) (traceId ctx))
              (set_span_errors errs w)) as (s1 & ->).
  unfold Eff.bind at 1.
  destruct (hex_to_decimal_returns (spanId ctx) (set_span_errors errs w))
    as (s2 & ->).
  unfold Eff.ret. eauto.
Qed.


End Frames.

(** ** Debug output and the environment *)





(** ** The event transform *)


Section TransformFacts.





Lemma slack_set_world_same (r : SlackLogger.Runtime) :
  SlackLogger.set_world (SlackLogger.env_world r) r = r.
Proof. by destruct r. Qed.

(** What the tail shared by the three filtered calls does: the record is
    built, filtered, transformed and pushed. *)
Lemma slack_tail (l : SlackLogger.t) (r : SlackLogger.Runtime)
    (lvl msg clr : string) :
  exists dt,
    getDateTime (SlackLogger.super l) (SlackLogger.env_world r)
    = (Normal dt, SlackLogger.env_world r)
    /\ Eff.bind (SlackLogger.world (getDateTime (SlackLogger.super l)))
         (fun dateTime =>
            Eff.bind (SlackLogger.world (Eff.gets clock_date_iso))
              (fun time =>
                 let log := SlackLogger.slack_record l lvl msg dateTime time clr in
                 if negb (SlackLogger._logFilter l log) then Eff.ret tt
                 else SlackLogger.push (inject (SlackLogger.super l) log)))
         (l, r)
       = let log :=
           SlackLogger.slack_record l lvl msg dt
             (clock_date_iso (SlackLogger.env_world r)) clr in
         if SlackLogger._logFilter l log
         then SlackLogger.push (inject (SlackLogger.super l) log) (l, r)
         else (Normal tt, (l, r)).
Proof.
  destruct (getDateTime_returns (SlackLogger.super l) (SlackLogger.env_world r))
    as (dt & Hdt).
  exists dt. split; [exact Hdt |].
  unfold Eff.bind, SlackLogger.world, Eff.zoom, Eff.gets, Eff.ret.
  cbn [fst snd]. rewrite Hdt. cbn [fst snd].
  rewrite !slack_set_world_same. cbv zeta.
  destruct (SlackLogger._logFilter l _); reflexivity.
Qed.

Lemma slack_logDebug_pushes (l : SlackLogger.t) (r : SlackLogger.Runtime) debug :
  _env (SlackLogger.super l) = "dev" ->
  exists dt,
    SlackLogger.logDebug debug (l, r)
    = SlackLogger.push
        (inject (SlackLogger.super l)
           (SlackLogger.slack_record l "Debug" debug dt
              (clock_date_iso (SlackLogger.env_world r)) "#F8F8F8"))
        (l, r).
Proof.
  intros Henv.
  destruct (getDateTime_returns (SlackLogger.super l) (SlackLogger.env_world r))
    as (dt & Hdt).
  exists dt.
  unfold SlackLogger.logDebug, SlackLogger.this, Eff.gets, Eff.bind,
    SlackLogger.world, Eff.zoom.
  cbn [fst snd]. rewrite Henv. cbn [String.eqb Ascii.eqb Bool.eqb fst snd].
  rewrite Hdt. cbn [fst snd]. rewrite !slack_set_world_same. reflexivity.
Qed.

End TransformFacts.


(** ** The remote sink: replay to the fallback *)

Section ReplayFacts.
Import SlackLogger SlackSpec.






End ReplayFacts.



(** ** The remote sink: the batch swap *)

Section BatchFacts.
Import SlackLogger SlackSpec.

Lemma consistent_core (st st' : State) :
  core st' = core st -> consistent st -> consistent st'.
Proof.
  destruct st as [l r], st' as [l' r']. unfold core, consistent, buffer,
    delivered, array. cbn [fst snd].
  intros [= -> Hheap Hnext Hposted Hfly Hpushed].
  rewrite Hheap, Hnext, Hposted, Hfly, Hpushed. tauto.
Qed.

Lemma core_array (st st' : State) loc :
  core st' = core st -> array (snd st') loc = array (snd st) loc.
Proof.
  destruct st as [l r], st' as [l' r']. unfold core, array. cbn [fst snd].
  intros [= _ -> _ _ _ _]. reflexivity.
Qed.

Lemma keeps_core_world {A} (m : M World A) : keeps core (world m).
Proof.
  intros [l r]. unfold world, Eff.zoom. cbn [fst snd].
  destruct (m (env_world r)) as [c w1]. reflexivity.
Qed.

Lemma keeps_core_fallback_call fb c : keeps core (fallback_call fb c).
Proof.
  intros [l r]. unfold fallback_call. cbn [fst snd].
  destruct (rejects fb c); reflexivity.
Qed.

Lemma keeps_core_postMessages_settle messages outcome :
  keeps core (_postMessages_settle messages outcome).
Proof.
  unfold _postMessages_settle. intros s. unfold Eff.try_catch, lift.
  destruct outcome as [[] | e |]; try reflexivity.
  revert s. apply keeps_bind; [intros s; reflexivity | intros self].
  destruct (_fallbackLogger self) as [fb |].
  - repeat (apply keeps_bind; [apply keeps_core_fallback_call | intros _]).
    apply keeps_bind; [intros s; reflexivity | intros batch].
    apply keeps_for_each. intros log. apply keeps_core_fallback_call.
  - repeat (apply keeps_bind; [apply keeps_core_world | intros _]).
    apply keeps_bind; [intros s; reflexivity | intros batch].
    apply keeps_for_each. intros log. apply keeps_core_world.
Qed.

Lemma keeps_core_timer_catch e : keeps core (timer_catch e).
Proof.
  unfold timer_catch.
  apply keeps_bind; [intros s; reflexivity | intros self].
  destruct (_fallbackLogger self) as [fb |]; [| apply keeps_core_world].
  intros s. unfold Eff.try_catch.
  pose proof (keeps_core_fallback_call fb (FbError (LError e)) s) as H1.
  destruct (fallback_call fb (FbError (LError e)) s) as [[[] | e' |] s1];
    cbn [snd] in *; exact H1.
Qed.

Lemma preserved_core (st st' : State) : core st' = core st -> preserved st st'.
Proof.
  intros Hcore Hc. split; [by eapply consistent_core |].
  intros loc o _. by apply core_array.
Qed.

Lemma preserved_push (l : SlackLogger.t) (r : Runtime) (w1 : World) log :
  preserved (l, r) (snd (push log (l, set_world w1 r))).
Proof.
  intros (Hinv & Hlt & Hfly).
  unfold consistent, buffer, delivered, array, push, Eff.modify in *.
  cbn [fst snd heap next_ref posted in_flight pushed set_world] in *.
  split; [split; [| split] |].
  - rewrite lookup_insert_eq. cbn [default].
    rewrite (List.map_app _ (pushed r)), <- Hinv, <- List.app_assoc, <- List.map_app.
    reflexivity.
  - exact Hlt.
  - exact Hfly.
  - intros loc o Hin. destruct (Hfly loc o Hin) as [_ Hne].
    by rewrite lookup_insert_ne.
Qed.

Lemma flushMessages_begin_eq (o : Origin) (l : SlackLogger.t) (r : Runtime) :
  _flushMessages_begin o (l, r) =
  match array r (_messages l) with
  | [] => (Normal None, (l, r))
  | _ :: _ =>
      (Normal (Some (_messages l)),
       (set_messages (next_ref r) l,
        {| heap := <[next_ref r := []]> (heap r);
           next_ref := S (next_ref r);
           posted :=
             posted r
             ++ [post_of l
                   (default [] (<[next_ref r := []]> (heap r) !! _messages l))];
           fallback_calls := fallback_calls r;
           in_flight := in_flight r ++ [(_messages l, o)];
           flushes := S (flushes r);
           pushed := pushed r;
           env_world := env_world r |}))
  end.
Proof.
  unfold _flushMessages_begin, this, Eff.gets, Eff.bind at 1 2. cbn [fst snd].
  destruct (array r (_messages l)) as [| x batch]; reflexivity.
Qed.

(** The synchronous part of a flush: the batch is left empty, the
    array that held it is in flight, untouched, and it went out in one
    post call. *)
Lemma preserved_flush (o : Origin) (st : State) :
  consistent st ->
  consistent (snd (_flushMessages_begin o st))
  /\ (forall loc o', (loc, o') ∈ in_flight (snd st) ->
        array (snd (snd (_flushMessages_begin o st))) loc = array (snd st) loc)
  /\ buffer (snd (_flushMessages_begin o st)) = []
  /\ (buffer st <> [] ->
      posted (snd (snd (_flushMessages_begin o st)))
      = (posted (snd st) ++ [post_of (fst st) (buffer st)])%list
      /\ array (snd (snd (_flushMessages_begin o st))) (_messages (fst st))
         = buffer st).
Proof.
  destruct st as [l r]. intros (Hinv & Hlt & Hfly).
  rewrite flushMessages_begin_eq.
  unfold consistent, buffer, delivered in *. cbn [fst snd] in *.
  destruct (array r (_messages l)) as [| x batch] eqn:Hbuf.
  - cbn [fst snd]. rewrite Hbuf.
    repeat split; try assumption; try congruence;
      match goal with H : (_, _) ∈ _ |- _ => apply (Hfly _ _ H) end.
  - unfold array in *.
    cbn [fst snd heap next_ref posted in_flight pushed set_messages _messages].
    rewrite lookup_insert_eq, (lookup_insert_ne _ (next_ref r) (_messages l)) by lia.
    rewrite Hbuf. cbn [default].
    split; [split; [| split] | split; [| split]].
    + rewrite List.map_app, List.concat_app. cbn [map concat attachments post_of].
      rewrite !List.app_nil_r. exact Hinv.
    + lia.
    + intros loc o' Hin. apply elem_of_app in Hin as [Hin | Hin].
      * destruct (Hfly loc o' Hin). lia.
      * apply list_elem_of_singleton in Hin. injection Hin as -> _. lia.
    + intros loc o' Hin. destruct (Hfly loc o' Hin).
      rewrite lookup_insert_ne by lia. reflexivity.
    + reflexivity.
    + intros _. split; reflexivity.
Qed.

Lemma log_shape_preserved l r st' : log_shape l r st' -> preserved (l, r) st'.
Proof.
  intros (w1 & [-> | (log & ->)]).
  - apply preserved_core. reflexivity.
  - apply preserved_push.
Qed.

Lemma tail_shape (l : SlackLogger.t) (r : Runtime) (lvl msg clr : string) :
  log_shape l r
    (snd (Eff.bind (SlackLogger.world (getDateTime (SlackLogger.super l)))
            (fun dateTime =>
               Eff.bind (SlackLogger.world (Eff.gets clock_date_iso))
                 (fun time =>
                    let log := slack_record l lvl msg dateTime time clr in
                    if negb (_logFilter l log) then Eff.ret tt
                    else push (inject (SlackLogger.super l) log)))
            (l, r))).
Proof.
  destruct (slack_tail l r lvl msg clr) as (dt & _ & ->). cbv zeta.
  exists (env_world r). rewrite slack_set_world_same.
  destruct (_logFilter l _); [right; eauto | left; reflexivity].
Qed.

Lemma logDebug_shape l r debug : log_shape l r (snd (logDebug debug (l, r))).
Proof.
  destruct (String.eqb (_env (SlackLogger.super l)) "dev") eqn:Henv.
  - apply String.eqb_eq in Henv.
    destruct (slack_logDebug_pushes l r debug Henv) as (dt & ->).
    exists (env_world r). rewrite slack_set_world_same. right. eauto.
  - unfold logDebug, this, Eff.gets, Eff.bind. cbn [fst snd]. rewrite Henv.
    exists (env_world r). rewrite slack_set_world_same. left. reflexivity.
Qed.

Lemma logInfo_shape l r info : log_shape l r (snd (logInfo info (l, r))).
Proof.
  unfold logInfo, this, Eff.gets, Eff.bind at 1. cbn [fst snd].
  destruct (_includeInfo l); cbn [negb].
  - apply tail_shape.
  - exists (env_world r). rewrite slack_set_world_same. left. reflexivity.
Qed.

Lemma logWarning_shape l r warning : log_shape l r (snd (logWarning warning (l, r))).
Proof.
  unfold logWarning, this, Eff.gets, Eff.bind at 1. cbn [fst snd].
  destruct (_includeWarn l); cbn [negb].
  - unfold Eff.bind at 1, SlackLogger.world at 1, Eff.zoom. cbn [fst snd].
    destruct (getErrorMessage warning (env_world r)) as [[msg | e |] w1];
      cbn [fst snd]; try (exists w1; left; reflexivity).
    destruct (tail_shape l (set_world w1 r) "Warn" msg "#F1AB2A")
      as (w2 & [H | (log & H)]); exists w2;
      [left; exact H | right; exists log; exact H].
  - exists (env_world r). rewrite slack_set_world_same. left. reflexivity.
Qed.

Lemma logError_shape l r error : log_shape l r (snd (logError error (l, r))).
Proof.
  unfold logError, this, Eff.gets, Eff.bind at 1. cbn [fst snd].
  destruct (_includeError l); cbn [negb].
  - unfold Eff.bind at 1, SlackLogger.world at 1, Eff.zoom. cbn [fst snd].
    destruct (getErrorMessage error (env_world r)) as [[msg | e |] w1];
      cbn [fst snd]; try (exists w1; left; reflexivity).
    destruct (tail_shape l (set_world w1 r) "Error" msg "#EF401D")
      as (w2 & [H | (log & H)]); exists w2;
      [left; exact H | right; exists log; exact H].
  - exists (env_world r). rewrite slack_set_world_same. left. reflexivity.
Qed.

Lemma dispose_state (l : SlackLogger.t) (r : Runtime) :
  snd (dispose (l, r)) =
  if _isDisposed l then (l, r)
  else snd (_flushMessages_begin FromDispose (set_disposed (flushes r) l, r)).
Proof.
  unfold dispose, this, Eff.gets, Eff.bind, Eff.modify, Eff.ret. cbn [fst snd].
  destruct (_isDisposed l); cbn [negb fst snd]; [reflexivity |].
  destruct (_flushMessages_begin FromDispose (set_disposed (flushes r) l, r))
    as [[a | e |] s2]; reflexivity.
Qed.

Lemma preserved_dispose (st : State) : preserved st (snd (dispose st)).
Proof.
  destruct st as [l r]. intros Hc. rewrite dispose_state.
  destruct (_isDisposed l); [split; [exact Hc | reflexivity] |].
  assert (Hc' : consistent (set_disposed (flushes r) l, r)) by exact Hc.
  destruct (preserved_flush FromDispose _ Hc') as (Hc2 & Hframe & _).
  split; assumption.
Qed.

Lemma preserved_settle i outcome (st : State) :
  preserved st (snd (settle i outcome st)).
Proof.
  destruct st as [l r]. intros Hc. unfold settle. cbn [fst snd].
  destruct (in_flight r !! i) as [[messages origin] |];
    [| split; [exact Hc | reflexivity]].
  set (s1 := (l, set_in_flight (delete i (in_flight r)) r)).
  assert (Hc1 : consistent s1).
  { destruct Hc as (Hinv & Hlt & Hfly). split; [exact Hinv |].
    split; [exact Hlt |]. intros loc o Hin. cbn [fst snd in_flight set_in_flight] in Hin.
    apply list_elem_of_delete_inv in Hin. exact (Hfly loc o Hin). }
  pose proof (keeps_core_postMessages_settle messages outcome s1) as Hk.
  destruct (_postMessages_settle messages outcome s1) as [[[] | e |] s2];
    cbn [snd] in Hk.
  - cbn [snd]. split; [by eapply consistent_core |].
    intros loc o _. by rewrite (core_array s1 s2).
  - assert (Hk2 : core (snd (match origin with
                             | FromTimer => timer_catch e s2
                             | FromDispose => (Throw e, s2)
                             end)) = core s1).
    { destruct origin; [rewrite keeps_core_timer_catch |]; exact Hk. }
    split; [by eapply consistent_core |].
    intros loc o _. by rewrite (core_array s1 _ loc Hk2).
  - cbn [snd]. split; [by eapply consistent_core |].
    intros loc o _. by rewrite (core_array s1 s2).
Qed.

Lemma preserved_step ev (st : State) : preserved st (step ev st).
Proof.
  destruct st as [l r].
  destruct ev; cbn [step].
  - apply log_shape_preserved, logDebug_shape.
  - apply log_shape_preserved, logInfo_shape.
  - apply log_shape_preserved, logWarning_shape.
  - apply log_shape_preserved, logError_shape.
  - cbn [fst]. destruct (_timer l).
    + intros Hc. destruct (preserved_flush FromTimer _ Hc) as (? & ? & _).
      split; assumption.
    + intros Hc. split; [exact Hc | reflexivity].
  - apply preserved_dispose.
  - apply preserved_settle.
Qed.


Lemma consistent_constructor getConfig cfg (w w' : World) (st : State) :
  SlackLogger.constructor getConfig cfg w = (Normal st, w') -> consistent st.
Proof.
  unfold SlackLogger.constructor, Defensive.ensureHasValue,
    Defensive.ensureIsString, Eff.bind, Eff.ret, Eff.throw, Eff.get.
  cbn [Defensive.arg Defensive.argName].
  intros H.
  repeat match type of H with
         | context [match ?x with _ => _ end] =>
             destruct x; cbn [Defensive.arg Defensive.argName] in H;
             try discriminate H
         end;
    injection H as <- _;
    (split; [reflexivity | split; [cbn; lia |]]);
    intros loc o Hin; cbn in Hin; by apply elem_of_nil in Hin.
Qed.

End BatchFacts.




(* ===================================================================== *)
(** * Further properties of the sources *)
(* ===================================================================== *)

(** ** The byte buffer of the converter *)

Section BufferFacts.

(** The four bytes stored for [v], read back most significant first. *)
Lemma stored_bytes_value v :
  Js.band (Js.sar (Js.sar (Js.sar v 8) 8) 8) 255 mod 256 * 16777216
  + Js.shl (Js.band (Js.sar (Js.sar v 8) 8) 255 mod 256) 16
  + Js.shl (Js.band (Js.sar v 8) 255 mod 256) 8
  + Js.band v 255 mod 256 = v mod 2 ^ 32.
Proof.
  rewrite !band_255, !sar_8, !ToInt32_div_256, !Z.mod_mod by lia.
  rewrite !shl_byte by (try apply Z.mod_pos_bound; lia).
  rewrite bytes_recompose. apply ToInt32_congr.
Qed.

Lemma writeUInt32BE_lookup buf v (off : nat) :
  (off + 4 <= length buf)%nat ->
  _writeUInt32BE buf v off !! (off + 0)%nat
    = Some (Js.band (Js.sar (Js.sar (Js.sar v 8) 8) 8) 255 mod 256)
  /\ _writeUInt32BE buf v off !! (off + 1)%nat
     = Some (Js.band (Js.sar (Js.sar v 8) 8) 255 mod 256)
  /\ _writeUInt32BE buf v off !! (off + 2)%nat
     = Some (Js.band (Js.sar v 8) 255 mod 256)
  /\ _writeUInt32BE buf v off !! (off + 3)%nat = Some (Js.band v 255 mod 256).
Proof.
  intros Hlen. unfold _writeUInt32BE, store. cbv zeta.
  repeat split.
  - replace (off + 0)%nat with (0 + off)%nat by lia.
    apply list_lookup_insert_eq. rewrite !length_insert. lia.
  - rewrite list_lookup_insert_ne by lia.
    replace (off + 1)%nat with (1 + off)%nat by lia.
    apply list_lookup_insert_eq. rewrite !length_insert. lia.
  - rewrite !list_lookup_insert_ne by lia.
    replace (off + 2)%nat with (2 + off)%nat by lia.
    apply list_lookup_insert_eq. rewrite !length_insert. lia.
  - rewrite !list_lookup_insert_ne by lia.
    replace (off + 3)%nat with (3 + off)%nat by lia.
    apply list_lookup_insert_eq. lia.
Qed.

Lemma writeUInt32BE_elsewhere buf v (off i : nat) :
  (i < off \/ off + 4 <= i)%nat ->
  _writeUInt32BE buf v off !! i = buf !! i.
Proof.
  intros Hi. unfold _writeUInt32BE, store. cbv zeta.
  rewrite !list_lookup_insert_ne by lia. reflexivity.
Qed.

Lemma readInt32_written buf v (off : nat) :
  (off + 4 <= length buf)%nat ->
  _readInt32 (_writeUInt32BE buf v off) off = Some (v mod 2 ^ 32).
Proof.
  intros Hlen. unfold _readInt32.
  destruct (writeUInt32BE_lookup buf v off Hlen) as (-> & -> & -> & ->).
  f_equal. apply stored_bytes_value.
Qed.

Lemma readInt32_elsewhere buf v (off off' : nat) :
  (off' + 4 <= off \/ off + 4 <= off')%nat ->
  _readInt32 (_writeUInt32BE buf v off) off' = _readInt32 buf off'.
Proof.
  intros H. unfold _readInt32.
  rewrite !writeUInt32BE_elsewhere by lia. reflexivity.
Qed.

End BufferFacts.

(** X1.  [_writeUInt32BE] followed by [_readInt32] at the same offset
    gives back the value modulo 2^32, whatever the value (negative, or
    above 2^32) and wherever the four bytes fit in the buffer; the write
    changes no other byte, so the other half of the 8-byte buffer reads
    as before, and the length stays. *)
Theorem writeUInt32BE_readInt32_round_trip
    (buffer : Uint8Array) (value : Z) (offset : nat) :
  (offset + 4 <= length buffer)%nat ->
  _readInt32 (_writeUInt32BE buffer value offset) offset
  = Some (value mod 2 ^ 32)
  /\ (0 <= value < 2 ^ 32 ->
      _readInt32 (_writeUInt32BE buffer value offset) offset = Some value)
  /\ (forall i, (i < offset \/ offset + 4 <= i)%nat ->
        _writeUInt32BE buffer value offset !! i = buffer !! i)
  /\ (forall offset', (offset' + 4 <= offset \/ offset + 4 <= offset')%nat ->
        _readInt32 (_writeUInt32BE buffer value offset) offset'
        = _readInt32 buffer offset')
  /\ length (_writeUInt32BE buffer value offset) = length buffer.
Proof.
  intros Hlen. split; [by apply readInt32_written |].
  split.
  { intros Hv. rewrite readInt32_written by exact Hlen.
    f_equal. apply Z.mod_small. exact Hv. }
  split; [intros i Hi; by apply writeUInt32BE_elsewhere |].
  split; [intros o Ho; by apply readInt32_elsewhere |].
  apply writeUInt32BE_length.
Qed.

Lemma writeUInt32BE_readInt32_round_trip_witness :
  _readInt32 (_writeUInt32BE (new_Uint8Array 8) (-1) 4) 4 = Some (2 ^ 32 - 1)
  /\ _readInt32 (_writeUInt32BE (new_Uint8Array 8) (-1) 4) 0 = Some 0.
Proof.
  destruct (writeUInt32BE_readInt32_round_trip (new_Uint8Array 8) (-1) 4
              ltac:(cbn; lia)) as (Hread & _ & _ & Hother & _).
  split; [exact Hread |].
  rewrite (Hother 0%nat ltac:(lia)). reflexivity.
Defined.

(** ** The converter on signed and on malformed input *)

Section SignedFacts.

(** The loop of [_toNumberString] on two halves below 2^32. *)
Lemma toNumberString_halves fuel (high low : Z) (buffer : Uint8Array) radix :
  _readInt32 buffer 0 = Some high ->
  _readInt32 buffer 4 = Some low ->
  0 <= high < 2 ^ 32 -> 0 <= low < 2 ^ 32 ->
  radix = None \/ radix = Some 10 ->
  (20 <= fuel)%nat ->
  exists s,
    _toNumberString fuel buffer radix = Some s
    /\ is_decimal_of (high * 2 ^ 32 + low) s.
Proof.
  intros Hr0 Hr4 Hh Hl Hradix Hfuel.
  assert (Hrun : _toNumberString fuel buffer radix
                 = toNumberString_loop fuel 10 high low "").
  { unfold _toNumberString. rewrite Hr0, Hr4.
    destruct Hradix as [-> | ->]; reflexivity. }
  rewrite Hrun.
  assert (Hlt : high * 2 ^ 32 + low < 10 ^ Z.of_nat fuel).
  { assert (10 ^ 20 <= 10 ^ Z.of_nat fuel) by (apply Z.pow_le_mono_r; lia).
    change (10 ^ 20) with 100000000000000000000 in *.
    change (2 ^ 32) with 4294967296 in *. lia. }
  destruct (toNumberString_loop_decimal fuel high low "" Hh Hl Hlt ltac:(lia))
    as (s & Hs & Hdec & Hhead).
  exists s. split.
  - rewrite Hs. f_equal. apply string_app_nil_r.
  - unfold is_decimal_of.
    destruct (Z.eqb_spec (high * 2 ^ 32 + low) 0) as [Hz | Hnz].
    + subst s. rewrite Hz. repeat split. discriminate.
    + destruct (starts_nonzero_no_leading_zero s Hhead) as [Hnlz Hne].
      repeat split; assumption.
Qed.

(** The buffer [_fromString] returns, from the two halves it writes. *)
Lemma fromString_halves (high low : Z) :
  let buffer := _writeUInt32BE (_writeUInt32BE (new_Uint8Array 8) high 0) low 4 in
  _readInt32 buffer 0 = Some (high mod 2 ^ 32)
  /\ _readInt32 buffer 4 = Some (low mod 2 ^ 32).
Proof.
  cbv zeta. split.
  - rewrite readInt32_elsewhere by lia.
    apply readInt32_written. cbn. lia.
  - apply readInt32_written. rewrite writeUInt32BE_length. cbn. lia.
Qed.

Lemma bnot_mod (high : Z) :
  0 <= high < 2 ^ 32 ->
  Js.bnot high mod 2 ^ 32 = 2 ^ 32 - 1 - high
  /\ (Js.bnot high + 1) mod 2 ^ 32 = (2 ^ 32 - high) mod 2 ^ 32.
Proof.
  intros Hh. unfold Js.bnot, Js.ToInt32, Z.lnot, Z.pred.
  rewrite (Z.mod_small high) by lia.
  destruct (Z.leb_spec (2 ^ 31) high).
  - split.
    + rewrite Z.mod_small by lia. lia.
    + f_equal. lia.
  - split.
    + symmetry. apply Z.mod_unique with (q := -1); lia.
    + replace (- high + -1 + 1) with (2 ^ 32 - high + (-1) * 2 ^ 32) by lia.
      apply Z.mod_add. lia.
Qed.

(** The value of the buffer for a negated input. *)
Lemma negated_halves (high low : Z) :
  0 <= high < 2 ^ 32 -> 0 <= low < 2 ^ 32 ->
  let '(high', low') :=
    if low =? 0 then (Js.bnot high + 1, low)
    else (Js.bnot high, _UINT_MAX - low) in
  0 <= high' mod 2 ^ 32 < 2 ^ 32 /\ 0 <= low' mod 2 ^ 32 < 2 ^ 32
  /\ high' mod 2 ^ 32 * 2 ^ 32 + low' mod 2 ^ 32
     = (2 ^ 64 - (high * 2 ^ 32 + low)) mod 2 ^ 64.
Proof.
  intros Hh Hl. destruct (bnot_mod high Hh) as [Hn Hn1].
  destruct (Z.eqb_spec low 0) as [-> | Hnz].
  - rewrite Hn1. rewrite (Z.mod_small 0) by lia.
    split; [apply Z.mod_pos_bound; lia |]. split; [lia |].
    destruct (Z.eq_dec high 0) as [-> | Hhz].
    + reflexivity.
    + rewrite (Z.mod_small (2 ^ 32 - high)) by lia.
      rewrite (Z.mod_small (2 ^ 64 - _)).
      * change (2 ^ 64) with (2 ^ 32 * 2 ^ 32). lia.
      * change (2 ^ 64) with (2 ^ 32 * 2 ^ 32). nia.
  - rewrite Hn. unfold _UINT_MAX. change 4294967296 with (2 ^ 32).
    rewrite (Z.mod_small (2 ^ 32 - low)) by lia.
    split; [lia |]. split; [lia |].
    rewrite (Z.mod_small (2 ^ 64 - _)).
    + change (2 ^ 64) with (2 ^ 32 * 2 ^ 32). lia.
    + change (2 ^ 64) with (2 ^ 32 * 2 ^ 32). nia.
Qed.

End SignedFacts.

(** X2.  A leading minus sign makes [_fromString] store the two's
    complement: for a well-formed hexadecimal numeral [h] of at most 16
    digits, converting ["-" ++ h] prints the unsigned decimal numeral of
    2^64 minus the value of [h], modulo 2^64 (so ["-1"] gives
    18446744073709551615 and ["-0"] gives ["0"]). *)
Theorem negative_input_is_twos_complement
    (h : string) (radix : option Z) (fuel : nat) :
  well_formed_hex h = true ->
  (String.length h <= 16)%nat ->
  radix = None \/ radix = Some 10 ->
  (20 <= fuel)%nat ->
  exists s,
    _toNumberString fuel (_fromString (String "-" h) 16) radix = Some s
    /\ is_decimal_of ((2 ^ 64 - hex_value h) mod 2 ^ 64) s.
Proof.
  intros Hwf Hlen Hradix Hfuel.
  pose proof (hex_value_below_2_64 h Hlen) as Hbound.
  destruct (fromString_loop_value h 0 0 Hwf ltac:(lia) ltac:(lia))
    as (high & low & Hloop & Hh & Hl & Hval).
  change (hex_value_from (0 * 2 ^ 32 + 0) h) with (hex_value h) in Hval.
  assert (Hh32 : 0 <= high < 2 ^ 32).
  { change (2 ^ 64) with (2 ^ 32 * 2 ^ 32) in Hbound. nia. }
  pose proof (negated_halves high low Hh32 Hl) as Hneg.
  unfold _fromString. rewrite Hloop. cbv zeta.
  destruct (if low =? 0 then (Js.bnot high + 1, low)
            else (Js.bnot high, _UINT_MAX - low)) as [high' low'].
  destruct Hneg as (Hh' & Hl' & Hsum).
  destruct (fromString_halves high' low') as [Hr0 Hr4].
  destruct (toNumberString_halves fuel _ _ _ radix Hr0 Hr4 Hh' Hl' Hradix Hfuel)
    as (s & Hs & Hdec).
  exists s. split; [exact Hs |].
  rewrite <- Hval, <- Hsum. exact Hdec.
Qed.

Lemma negative_input_is_twos_complement_witness :
  exists s,
    _toNumberString 64 (_fromString "-1" 16) None = Some s
    /\ is_decimal_of ((2 ^ 64 - hex_value "1") mod 2 ^ 64) s.
Proof.
  apply (negative_input_is_twos_complement "1" None 64).
  - reflexivity.
  - vm_compute. lia.
  - left. reflexivity.
  - lia.
Defined.

Section PrefixFacts.

Lemma parseInt_not_hex c :
  hex_digit c = None -> Js.parseInt (String c "") (Some 16) = None.
Proof.
  destruct c as [[|] [|] [|] [|] [|] [|] [|] [|]]; cbn; intros H;
    try discriminate H; vm_compute; reflexivity.
Qed.

Lemma fromString_loop_stops h c rest :
  forall high low,
    well_formed_hex h = true -> hex_digit c = None ->
    fromString_loop (h ++ String c rest) 16 high low
    = fromString_loop h 16 high low.
Proof.
  induction h as [| x h IH]; intros high low Hwf Hc.
  - change ("" ++ String c rest)%string with (String c rest).
    cbn [fromString_loop]. by rewrite (parseInt_not_hex c Hc).
  - change (String x h ++ String c rest)%string
      with (String x (h ++ String c rest)).
    cbn [well_formed_hex] in Hwf. cbn [fromString_loop].
    destruct (hex_digit x) as [d |] eqn:E; [| discriminate Hwf].
    destruct (parseInt_hex_char x d E) as [-> Hd].
    destruct (0 <=? d); [| reflexivity].
    by apply IH.
Qed.

End PrefixFacts.

(** X3.  [_fromString] reads the longest prefix of hexadecimal digits
    and ignores everything from the first other character on: the buffer
    for [h ++ c :: rest] is the buffer for [h] when [h] holds hexadecimal
    digits only and [c] is none (a minus sign right at the start is the
    sign, not a stop).  So the conversion of such an input prints the
    value of the prefix, and an input without any leading digit
    prints ["0"]. *)
Theorem fromString_stops_at_first_non_digit (h : string) (c : ascii) (rest : string) :
  well_formed_hex h = true ->
  hex_digit c = None ->
  h <> "" \/ c <> "-"%char ->
  _fromString (h ++ String c rest) 16 = _fromString h 16
  /\ (h = "" ->
      _toNumberString enough_fuel (_fromString (String c rest) 16) None
      = Some "0").
Proof.
  intros Hwf Hc Hsign.
  assert (Heq : _fromString (h ++ String c rest) 16 = _fromString h 16).
  { unfold _fromString.
    destruct h as [| x h'].
    - change ("" ++ String c rest)%string with (String c rest).
      assert (Hne : c <> "-"%char) by (destruct Hsign; [congruence | assumption]).
      assert (Hloop : fromString_loop (String c rest) 16 0 0 = (0, 0)).
      { cbn [fromString_loop]. by rewrite (parseInt_not_hex c Hc). }
      destruct c as [[|] [|] [|] [|] [|] [|] [|] [|]];
        try (rewrite Hloop; reflexivity).
      congruence.
    - change (String x h' ++ String c rest)%string
        with (String x (h' ++ String c rest)).
      assert (Hx : x <> "-"%char).
      { intros ->. cbn in Hwf. discriminate Hwf. }
      pose proof (fromString_loop_stops (String x h') c rest 0 0 Hwf Hc) as Hl.
      change (String x h' ++ String c rest)%string
        with (String x (h' ++ String c rest)) in Hl.
      destruct x as [[|] [|] [|] [|] [|] [|] [|] [|]];
        try (rewrite Hl; reflexivity).
      congruence. }
  split; [exact Heq |].
  intros ->. change ("" ++ String c rest)%string with (String c rest) in Heq.
  rewrite Heq. reflexivity.
Qed.

Lemma fromString_stops_at_first_non_digit_witness :
  _fromString "1fz9" 16 = _fromString "1f" 16.
Proof.
  apply (fromString_stops_at_first_non_digit "1f" "z" "9").
  - reflexivity.
  - reflexivity.
  - left. discriminate.
Defined.

(** ** Trace injection *)

Section TraceFacts.

Lemma get_set_field_same k v fields :
  get_field k (set_field k v fields) = Some v.
Proof.
  induction fields as [| [k' v'] rest IH]; cbn [set_field get_field].
  - by rewrite String.eqb_refl.
  - destruct (String.eqb k k') eqn:E; cbn [get_field].
    + by rewrite String.eqb_refl.
    + rewrite E. exact IH.
Qed.

Lemma get_set_field_other k k' v fields :
  k <> k' -> get_field k' (set_field k v fields) = get_field k' fields.
Proof.
  intros Hne.
  induction fields as [| [k0 v0] rest IH]; cbn [set_field get_field].
  - destruct (String.eqb_spec k' k); [congruence | reflexivity].
  - destruct (String.eqb_spec k k0) as [<- | Hk]; cbn [get_field].
    + destruct (String.eqb_spec k' k); [congruence | reflexivity].
    + destruct (String.eqb k' k0); [reflexivity | exact IH].
Qed.

Lemma is_hex_char_digit c :
  is_hex_char c = true -> exists d, hex_digit c = Some d.
Proof.
  destruct c as [[|] [|] [|] [|] [|] [|] [|] [|]]; vm_compute; intros H;
    try discriminate H; eexists; reflexivity.
Qed.

Lemma all_hex_well_formed s :
  all_chars is_hex_char s = true -> well_formed_hex s = true.
Proof.
  induction s as [| c rest IH]; [reflexivity |].
  cbn [all_chars well_formed_hex]. intros [Hc Hrest]%andb_true_iff.
  destruct (is_hex_char_digit c Hc) as [d ->]. by apply IH.
Qed.

Lemma all_chars_slice p n : forall s,
  all_chars p s = true -> all_chars p (slice n s) = true.
Proof.
  induction n as [| n IH]; intros [| c rest] H; try exact H.
  cbn [slice]. apply IH. cbn [all_chars] in H.
  by apply andb_true_iff in H as [_ H].
Qed.

Lemma length_slice n : forall s,
  String.length (slice n s) = (String.length s - n)%nat.
Proof.
  induction n as [| n IH]; intros [| c rest]; cbn [slice String.length];
    try lia. apply IH.
Qed.

Lemma hex_value_from_linear s : forall acc,
  hex_value_from acc s
  = acc * 16 ^ Z.of_nat (String.length s) + hex_value_from 0 s.
Proof.
  induction s as [| c rest IH]; intros acc.
  - cbn. lia.
  - cbn [hex_value_from String.length].
    rewrite (IH (acc * 16 + _)), (IH (0 * 16 + _)).
    rewrite Nat2Z.inj_succ, Z.pow_succ_r by lia. lia.
Qed.

(** The digits after the first [n] denote the value modulo
    16^(length - n). *)
Lemma hex_value_slice n : forall s acc,
  (n <= String.length s)%nat ->
  hex_value_from 0 (slice n s)
  = hex_value_from acc s mod 16 ^ Z.of_nat (String.length s - n).
Proof.
  induction n as [| n IH]; intros s acc Hn.
  - replace (slice 0 s) with s by (destruct s; reflexivity).
    rewrite Nat.sub_0_r, (hex_value_from_linear s acc).
    destruct (hex_value_from_bound s 0 ltac:(lia)) as [Hlo Hhi].
    rewrite Z.add_comm, Z.mod_add
      by (apply Z.pow_nonzero; lia).
    symmetry. apply Z.mod_small. lia.
  - destruct s as [| c rest]; [cbn in Hn; lia |].
    cbn [slice hex_value_from String.length]. cbn [String.length] in Hn.
    replace (S (String.length rest) - S n)%nat
      with (String.length rest - n)%nat by lia.
    apply IH. lia.
Qed.

Lemma valid_id n s :
  isValidId n s = true ->
  String.length s = n /\ all_chars is_hex_char s = true.
Proof.
  unfold isValidId. intros [[Hl Hh]%andb_true_iff _]%andb_true_iff.
  split; [by apply Nat.eqb_eq | exact Hh].
Qed.

(** [hex_to_decimal] on an identifier of at most 16 hexadecimal digits. *)
Lemma hex_to_decimal_value {S} (id : string) (s : S) :
  well_formed_hex id = true -> (String.length id <= 16)%nat ->
  exists str,
    hex_to_decimal id s = (Normal str, s)
    /\ is_decimal_of (hex_value id) str.
Proof.
  intros Hwf Hlen. unfold hex_to_decimal, enough_fuel.
  pose proof (hex_value_below_2_64 id Hlen) as Hbound.
  rewrite (fromString_unsigned id Hwf).
  destruct (fromString_loop_value id 0 0 Hwf ltac:(lia) ltac:(lia))
    as (high & low & -> & Hh & Hl & Hval).
  change (hex_value_from (0 * 2 ^ 32 + 0) id) with (hex_value id) in Hval.
  assert (Hh32 : 0 <= high < 2 ^ 32).
  { change (2 ^ 64) with (2 ^ 32 * 2 ^ 32) in Hbound. nia. }
  destruct (fromString_halves high low) as [Hr0 Hr4].
  rewrite (Z.mod_small high) in Hr0 by lia.
  rewrite (Z.mod_small low) in Hr4 by lia.
  destruct (toNumberString_halves 64 high low _ None Hr0 Hr4 Hh32 Hl
              ltac:(by left) ltac:(lia)) as (str & Hs & Hdec).
  exists str. rewrite Hs. split; [reflexivity |]. by rewrite <- Hval.
Qed.

End TraceFacts.

(** X4.  Under an ambient span with a valid context, [injectTrace]
    returns the record with [trace_id], [span_id] and [trace_flags] set
    from the context and its declared fields untouched; it sets the span
    status to the message exactly when the record is an error.  With the
    Datadog conversion enabled, [dd.trace_id] is the unsigned decimal
    numeral of the trace id modulo 2^64 (its last 16 digits) and
    [dd.span_id] that of the span id; without it these two properties are
    left as they were.  No other property of the record changes. *)
Theorem injectTrace_adds_trace_fields
    (self : BaseLogger.t) (log : LogRecord) (isError : bool) (w : World)
    (ctx : SpanContext) :
  active_span w = Some ctx ->
  isSpanContextValid ctx = true ->
  exists log',
    injectTrace self log isError w
    = (Normal log',
       if isError then set_span_errors (span_errors w ++ [message log]) w
       else w)
    /\ (source log', service log', env log', level log', message log',
        dateTime log', time log')
       = (source log, service log, env log, level log, message log,
          dateTime log, time log)
    /\ get_field "trace_id" (extras log') = Some (traceId ctx)
    /\ get_field "span_id" (extras log') = Some (spanId ctx)
    /\ get_field "trace_flags" (extras log')
       = Some (String "0" (Js.int_toString (traceFlags ctx) 16))
    /\ (_enableOtelToDatadogTraceConversion self = true ->
        exists ddTrace ddSpan,
          get_field "dd.trace_id" (extras log') = Some ddTrace
          /\ is_decimal_of (hex_value (traceId ctx) mod 2 ^ 64) ddTrace
          /\ get_field "dd.span_id" (extras log') = Some ddSpan
          /\ is_decimal_of (hex_value (spanId ctx)) ddSpan)
    /\ (_enableOtelToDatadogTraceConversion self = false ->
        get_field "dd.trace_id" (extras log')
        = get_field "dd.trace_id" (extras log)
        /\ get_field "dd.span_id" (extras log')
           = get_field "dd.span_id" (extras log))
    /\ (forall k,
          k <> "trace_id" -> k <> "span_id" -> k <> "trace_flags" ->
          k <> "dd.trace_id" -> k <> "dd.span_id" ->
          get_field k (extras log') = get_field k (extras log)).
Proof.
  intros Hspan Hvalid.
  pose proof Hvalid as Hv. unfold isSpanContextValid in Hv.
  apply andb_true_iff in Hv as [Ht Hs].
  apply valid_id in Ht as [Htl Hth]. apply valid_id in Hs as [Hsl Hsh].
  assert (Hend_wf : well_formed_hex (slice 16 (traceId ctx)) = true)
    by (apply all_hex_well_formed, all_chars_slice, Hth).
  assert (Hend_len : (String.length (slice 16 (traceId ctx)) <= 16)%nat)
    by (rewrite length_slice, Htl; lia).
  assert (Hend_val :
    hex_value (slice 16 (traceId ctx)) = hex_value (traceId ctx) mod 2 ^ 64).
  { unfold hex_value.
    rewrite (hex_value_slice 16 (traceId ctx) 0) by lia.
    rewrite Htl. reflexivity. }
  set (w1 := if isError
             then set_span_errors (span_errors w ++ [message log]) w else w).
  destruct (hex_to_decimal_value (slice 16 (traceId ctx)) w1 Hend_wf Hend_len)
    as (ddTrace & HddT & HdecT).
  destruct (hex_to_decimal_value (spanId ctx) w1
              (all_hex_well_formed _ Hsh) ltac:(lia))
    as (ddSpan & HddS & HdecS).
  rewrite Hend_val in HdecT.
  assert (Hrun : injectTrace self log isError w =
    (Normal
       (let base :=
          with_extra "trace_flags"
            (String "0" (Js.int_toString (traceFlags ctx) 16))
            (with_extra "span_id" (spanId ctx)
               (with_extra "trace_id" (traceId ctx) log)) in
        if _enableOtelToDatadogTraceConversion self
        then with_extra "dd.span_id" ddSpan (with_extra "dd.trace_id" ddTrace base)
        else base), w1)).
  { unfold injectTrace, setStatus_error.
    unfold Eff.bind at 1. unfold Eff.gets at 1. rewrite Hspan, Hvalid.
    rewrite Htl. change (32 / 2)%nat with 16%nat.
    unfold Eff.bind at 1.
    assert (Hst : (if isError
                   then Eff.modify
                          (fun w0 => set_span_errors
                             (span_errors w0
                              ++ [message
                                    (with_extra "trace_flags"
                                       (String "0" (Js.int_toString (traceFlags ctx) 16))
                                       (with_extra "span_id" (spanId ctx)
                                          (with_extra "trace_id" (traceId ctx) log)))])
                             w0)
                   else Eff.ret tt) w = (Normal tt, w1)).
    { subst w1. destruct isError; reflexivity. }
    rewrite Hst.
    destruct (_enableOtelToDatadogTraceConversion self); [| reflexivity].
    unfold Eff.bind. rewrite HddT, HddS. reflexivity. }
  eexists. split; [exact Hrun |].
  cbv zeta.
  destruct (_enableOtelToDatadogTraceConversion self) eqn:Hdd.
  - split; [reflexivity |].
    cbn [extras with_extra].
    split; [by rewrite !get_set_field_other, get_set_field_same by discriminate |].
    split; [by rewrite !get_set_field_other, get_set_field_same by discriminate |].
    split; [by rewrite !get_set_field_other, get_set_field_same by discriminate |].
    split.
    { intros _. exists ddTrace, ddSpan.
      split; [by rewrite get_set_field_other, get_set_field_same by discriminate |].
      split; [exact HdecT |].
      split; [by rewrite get_set_field_same | exact HdecS]. }
    split; [discriminate |].
    intros k H1 H2 H3 H4 H5.
    by rewrite !get_set_field_other by congruence.
  - split; [reflexivity |].
    cbn [extras with_extra].
    split; [by rewrite !get_set_field_other, get_set_field_same by discriminate |].
    split; [by rewrite !get_set_field_other, get_set_field_same by discriminate |].
    split; [by rewrite get_set_field_same |].
    split; [discriminate |].
    split.
    { intros _. by rewrite !get_set_field_other by discriminate. }
    intros k H1 H2 H3 H4 H5.
    by rewrite !get_set_field_other by congruence.
Qed.

Lemma injectTrace_adds_trace_fields_witness :
  exists log',
    injectTrace Scenarios.datadog_logger Scenarios.sample_record true
      Scenarios.traced_world
    = (Normal log',
       set_span_errors ["payment failed"] Scenarios.traced_world)
    /\ get_field "trace_id" (extras log')
       = Some "0af7651916cd43dd8448eb211c80319c"
    /\ (exists ddTrace,
          get_field "dd.trace_id" (extras log') = Some ddTrace
          /\ is_decimal_of
               (hex_value "0af7651916cd43dd8448eb211c80319c" mod 2 ^ 64)
               ddTrace).
Proof.
  destruct (injectTrace_adds_trace_fields Scenarios.datadog_logger
              Scenarios.sample_record true Scenarios.traced_world
              Scenarios.sampled_span eq_refl ltac:(vm_compute; reflexivity))
    as (log' & Hrun & _ & Htrace & _ & _ & Hdd & _).
  exists log'. split; [exact Hrun |]. split; [exact Htrace |].
  destruct (Hdd eq_refl) as (ddTrace & ddSpan & H1 & H2 & _).
  exists ddTrace. split; assumption.
Defined.

(** X5.  Without an ambient span, or under a span whose context is not
    valid (an id of the wrong length, with a character that is no
    hexadecimal digit, or all zeros), [injectTrace] returns the record as
    it is and records no span status, also for an error. *)
Theorem injectTrace_without_valid_span
    (self : BaseLogger.t) (log : LogRecord) (isError : bool) (w : World) :
  active_span w = None
  \/ (exists ctx, active_span w = Some ctx /\ isSpanContextValid ctx = false) ->
  injectTrace self log isError w = (Normal log, w).
Proof.
  intros [Hnone | (ctx & Hsome & Hinvalid)];
    unfold injectTrace, Eff.bind, Eff.gets, Eff.ret.
  - by rewrite Hnone.
  - by rewrite Hsome, Hinvalid.
Qed.

Lemma injectTrace_without_valid_span_witness :
  injectTrace Scenarios.datadog_logger Scenarios.sample_record true
    Examples.world0
  = (Normal Scenarios.sample_record, Examples.world0).
Proof.
  apply (injectTrace_without_valid_span Scenarios.datadog_logger
           Scenarios.sample_record true Examples.world0).
  left. reflexivity.
Defined.

(** ** The time zone of a logger *)

(** X6.  The constructor of the base class keeps the configured time
    zone only when it is one of the four values of the enumeration;
    omitted, blank or anything else, the zone is UTC.  So the zone of a
    logger is always one of the four, the [default] branch of
    [getDateTime] is never taken, and [getDateTime] returns the clock
    printed in the zone of the logger without changing anything. *)
Theorem date_time_zone_falls_back_to_utc
    (getConfig : AppConfig) (config : option LoggerConfig) (w : World) :
  let zones := [LogDateTimeZone.utc; LogDateTimeZone.local;
                LogDateTimeZone.est; LogDateTimeZone.pst] in
  let self := BaseLogger.new getConfig config in
  _logDateTimeZone self ∈ zones
  /\ (forall z, config ≫= logDateTimeZone = Some z -> z ∈ zones ->
        _logDateTimeZone self = z)
  /\ (forall z, config ≫= logDateTimeZone = Some z -> z ∉ zones ->
        _logDateTimeZone self = LogDateTimeZone.utc)
  /\ (config ≫= logDateTimeZone = None ->
      _logDateTimeZone self = LogDateTimeZone.utc)
  /\ getDateTime self w = (Normal (clock_iso w (_logDateTimeZone self)), w).
Proof.
  cbv zeta.
  change (_logDateTimeZone (BaseLogger.new getConfig config))
    with (resolve_zone (config ≫= logDateTimeZone)).
  assert (Hmem : forall z,
    existsb (String.eqb z)
      [LogDateTimeZone.utc; LogDateTimeZone.local;
       LogDateTimeZone.est; LogDateTimeZone.pst] = true
    <-> z ∈ [LogDateTimeZone.utc; LogDateTimeZone.local;
             LogDateTimeZone.est; LogDateTimeZone.pst]).
  { intros z. rewrite existsb_exists. split.
    - intros (x & Hin & ->%String.eqb_eq). by apply list_elem_of_In.
    - intros Hin. exists z. split; [by apply list_elem_of_In | apply String.eqb_refl]. }
  assert (Hblank : forall z,
    z ∈ [LogDateTimeZone.utc; LogDateTimeZone.local;
         LogDateTimeZone.est; LogDateTimeZone.pst] ->
    (String.eqb z EmptyString) || isEmptyOrWhiteSpace z = false).
  { intros z Hz. rewrite !elem_of_cons in Hz.
    destruct Hz as [-> | [-> | [-> | [-> | Hz]]]]; try reflexivity.
    by apply elem_of_nil in Hz. }
  assert (Hin : resolve_zone (config ≫= logDateTimeZone)
                ∈ [LogDateTimeZone.utc; LogDateTimeZone.local;
                   LogDateTimeZone.est; LogDateTimeZone.pst]).
  { unfold resolve_zone. destruct (config ≫= logDateTimeZone) as [z |].
    - destruct (existsb (String.eqb z) _) eqn:E.
      + apply Hmem in E. rewrite (Hblank z E). exact E.
      + rewrite orb_true_r. apply elem_of_cons; by left.
    - apply elem_of_cons; by left. }
  split; [exact Hin |]. split; [| split; [| split]].
  - intros z -> Hz. unfold resolve_zone.
    rewrite (Hblank z Hz). apply Hmem in Hz. by rewrite Hz.
  - intros z -> Hz. unfold resolve_zone.
    destruct (existsb (String.eqb z) _) eqn:E.
    + apply Hmem in E. contradiction.
    + by rewrite orb_true_r.
  - by intros ->.
  - unfold getDateTime.
    change (_logDateTimeZone (BaseLogger.new getConfig config))
      with (resolve_zone (config ≫= logDateTimeZone)).
    rewrite !elem_of_cons in Hin.
    destruct Hin as [-> | [-> | [-> | [-> | Hz]]]]; try reflexivity.
    by apply elem_of_nil in Hz.
Qed.

(** ** The retention sweep on a disk that may fail *)

Section SweepFacts.
Import FileLogger.

Lemma follows_bind {S A B} (R : S -> S -> Prop) (m : M S A) (k : A -> M S B) :
  (forall x y z, R x y -> R y z -> R x z) ->
  follows R m -> (forall a, follows R (k a)) -> follows R (Eff.bind m k).
Proof.
  intros Htrans Hm Hk s. unfold Eff.bind. specialize (Hm s).
  destruct (m s) as [[a | e |] s']; cbn [snd] in *; [| assumption | assumption].
  eapply Htrans; [exact Hm | apply Hk].
Qed.

Lemma follows_for_each {S A} (R : S -> S -> Prop) (xs : list A)
    (body : A -> M S unit) :
  (forall x, R x x) -> (forall x y z, R x y -> R y z -> R x z) ->
  (forall x, follows R (body x)) -> follows R (for_each xs body).
Proof.
  intros Hrefl Htrans Hb. induction xs as [| x xs IH]; cbn [for_each].
  - intros s. apply Hrefl.
  - apply follows_bind; [exact Htrans | apply Hb | intros _; exact IH].
Qed.

Lemma set_fs_id (w : World) : w = set_fs (fs w) w.
Proof. by destruct w. Qed.

Lemma only_swept_refl d cutoff w : only_swept d cutoff w w.
Proof.
  split; [apply set_fs_id |]. split; [tauto |]. intros d' name. by left.
Qed.

Lemma only_swept_trans d cutoff w1 w2 w3 :
  only_swept d cutoff w1 w2 -> only_swept d cutoff w2 w3 ->
  only_swept d cutoff w1 w3.
Proof.
  intros (Hw12 & Hd12 & He12) (Hw23 & Hd23 & He23).
  split; [| split].
  - rewrite Hw23 at 1. rewrite Hw12. reflexivity.
  - intros d'. rewrite Hd23. apply Hd12.
  - intros d' name.
    destruct (He23 d' name) as [Heq | (Hnone & -> & e & He & Hdel)].
    + rewrite Heq. apply He12.
    + destruct (He12 d name) as [Heq | (Hnone' & _ & _)].
      * right. split; [exact Hnone |]. split; [reflexivity |].
        exists e. rewrite <- Heq. by split.
      * rewrite Hnone' in He. discriminate He.
Qed.

Lemma sweep_step_refl d cutoff s : sweep_step d cutoff s s.
Proof. split; [reflexivity | apply only_swept_refl]. Qed.

Lemma sweep_step_trans d cutoff s1 s2 s3 :
  sweep_step d cutoff s1 s2 -> sweep_step d cutoff s2 s3 ->
  sweep_step d cutoff s1 s3.
Proof.
  intros [Hl12 Hw12] [Hl23 Hw23]. split; [congruence |].
  by eapply only_swept_trans.
Qed.

Lemma stat_result p w :
  snd (stat p w) = w
  /\ forall e, fst (stat p w) = Normal e -> entry_at w (dir p) (base p) = Some e.
Proof.
  unfold stat, Eff.bind, guard_fault, entry_at.
  destruct (fs_fault w (OpStat p)); [split; [reflexivity | discriminate] |].
  destruct (fs w !! dir p ≫= _) as [e |];
    split; try reflexivity; try discriminate.
  intros e' H. by injection H as <-.
Qed.

Lemma readdir_unchanged d w : snd (readdir d w) = w.
Proof.
  unfold readdir, Eff.bind, guard_fault.
  destruct (fs_fault w (OpReaddir d)); [reflexivity |].
  destruct (fs w !! d); reflexivity.
Qed.

(** Deleting a deletable entry. *)
Lemma unlink_swept d name cutoff w e :
  entry_at w d name = Some e -> deletable cutoff e ->
  only_swept d cutoff w (snd (unlink (Path_join d name) w)).
Proof.
  intros He Hdel. unfold unlink, Eff.bind, guard_fault.
  cbn [dir base Path_join].
  destruct (fs_fault w _); [apply only_swept_refl |].
  unfold entry_at in He.
  destruct (fs w !! d) as [entries |] eqn:Hd; [| discriminate He].
  cbn [mbind option_bind] in He. rewrite He. cbn [snd].
  split; [reflexivity |]. split.
  - intros d'. cbn [fs set_fs].
    destruct (decide (d' = d)) as [-> | Hne].
    + rewrite lookup_insert_eq, Hd. split; eauto.
    + by rewrite lookup_insert_ne.
  - intros d' name'. unfold entry_at. cbn [fs set_fs].
    destruct (decide (d' = d)) as [-> | Hne];
      [| left; by rewrite lookup_insert_ne].
    rewrite lookup_insert_eq, Hd. cbn [mbind option_bind].
    destruct (decide (name' = name)) as [-> | Hne].
    + right. rewrite lookup_delete_eq. split; [reflexivity |].
      split; [reflexivity |]. exists e. by split.
    + left. by rewrite lookup_delete_ne.
Qed.

(** One iteration of the sweep. *)
Lemma sweep_body_step (l : FileLogger.t) (now : Z) (file : string) :
  follows (sweep_step (_logDirPath l) (cutoff_of l now))
    (Eff.bind (world (stat (Path_join (_logDirPath l) file)))
       (fun stats =>
          if isFile stats
             && match _retentionDays l with
                | Some d => birthtime stats <? now - days_to_ms d
                | None => false
                end
          then world (unlink (Path_join (_logDirPath l) file))
          else Eff.ret tt)).
Proof.
  intros [l0 w]. unfold Eff.bind, world, Eff.zoom. cbn [fst snd].
  destruct (stat_result (Path_join (_logDirPath l) file) w) as [Hw He].
  destruct (stat (Path_join (_logDirPath l) file) w) as [[e | x |] w'];
    cbn [fst snd] in *; subst w'; try apply sweep_step_refl.
  specialize (He e eq_refl). cbn [dir base Path_join] in He.
  destruct (isFile e && _) eqn:Hexp; [| apply sweep_step_refl].
  apply andb_true_iff in Hexp as [Hfile Hold].
  assert (Hdel : deletable (cutoff_of l now) e).
  { split; [exact Hfile |]. unfold cutoff_of.
    destruct (_retentionDays l) as [d |]; [| discriminate Hold].
    exists (now - days_to_ms d). split; [reflexivity | lia]. }
  pose proof (unlink_swept _ _ _ w e He Hdel) as Hsw.
  cbn [fst snd].
  destruct (unlink (Path_join (_logDirPath l) file) w) as [r w'].
  split; [reflexivity | exact Hsw].
Qed.

Lemma purgeLogs_eq (l : FileLogger.t) (w : World) :
  _purgeLogs (l, w) =
  if negb (_lastPurgedAt l =? 0)
     && match _retentionDays l with
        | Some d => clock_ms w - days_to_ms d <? _lastPurgedAt l
        | None => false
        end
  then (Normal tt, (l, w))
  else
    Eff.bind (world (readdir (_logDirPath l)))
      (fun files =>
         Eff.bind
           (for_each files
              (fun file =>
                 Eff.bind (world (stat (Path_join (_logDirPath l) file)))
                   (fun stats =>
                      if isFile stats
                         && match _retentionDays l with
                            | Some d => birthtime stats <? clock_ms w - days_to_ms d
                            | None => false
                            end
                      then world (unlink (Path_join (_logDirPath l) file))
                      else Eff.ret tt)))
           (fun _ => Eff.modify (fun s => (set_lastPurgedAt (clock_ms w) (fst s), snd s))))
      (l, w).
Proof.
  unfold _purgeLogs, this, Eff.gets.
  unfold Eff.bind at 1 2. cbn [fst snd].
  unfold world at 1, Eff.zoom. cbn [fst snd].
  destruct (negb (_lastPurgedAt l =? 0) && _); reflexivity.
Qed.

(** The whole purge: a purge that is not due changes nothing; one that
    is due sweeps and, if the sweep completes, records the instant; one
    that throws leaves the instance as it was. *)
Lemma purgeLogs_cases (l : FileLogger.t) (w : World) r l' w' :
  _purgeLogs (l, w) = (r, (l', w')) ->
  only_swept (_logDirPath l) (cutoff_of l (clock_ms w)) w w'
  /\ match r with
     | Normal _ =>
         (l' = l /\ w' = w /\ _lastPurgedAt l <> 0)
         \/ l' = set_lastPurgedAt (clock_ms w) l
     | Throw _ => l' = l
     | Pending => False
     end.
Proof.
  rewrite purgeLogs_eq.
  destruct (negb (_lastPurgedAt l =? 0) && _) eqn:Hdue.
  { intros H. injection H as <- <- <-. split; [apply only_swept_refl |].
    left. repeat split. apply andb_true_iff in Hdue as [Hz _].
    apply negb_true_iff, Z.eqb_neq in Hz. exact Hz. }
  unfold Eff.bind at 1. unfold world at 1, Eff.zoom. cbn [fst snd].
  pose proof (readdir_unchanged (_logDirPath l) w) as Hrd.
  pose proof (settles_readdir (_logDirPath l) w) as Hrs.
  destruct (readdir (_logDirPath l) w) as [[files | e |] w0];
    cbn [fst snd] in Hrd, Hrs; subst w0.
  - unfold Eff.bind at 1.
    pose proof (follows_for_each
                  (sweep_step (_logDirPath l) (cutoff_of l (clock_ms w)))
                  files _ (sweep_step_refl _ _) (sweep_step_trans _ _)
                  (sweep_body_step l (clock_ms w)) (l, w)) as Hloop.
    assert (Hsettle : settles
      (for_each files
         (fun file =>
            Eff.bind (world (stat (Path_join (_logDirPath l) file)))
              (fun stats =>
                 if isFile stats
                    && match _retentionDays l with
                       | Some d => birthtime stats <? clock_ms w - days_to_ms d
                       | None => false
                       end
                 then world (unlink (Path_join (_logDirPath l) file))
                 else Eff.ret tt)))).
    { apply settles_for_each. intros file.
      apply settles_bind; [apply settles_world, settles_stat | intros stats].
      destruct (isFile stats && _); [apply settles_world, settles_unlink |].
      intros s. discriminate. }
    specialize (Hsettle (l, w)).
    destruct (for_each files _ (l, w)) as [[[] | e |] [l1 w1]];
      destruct Hloop as [Hl Hsw]; cbn [fst snd] in *; subst l1.
    + intros H. injection H as <- <- <-. split; [exact Hsw |]. by right.
    + intros H. injection H as <- <- <-. split; [exact Hsw | reflexivity].
    + congruence.
  - intros H. injection H as <- <- <-. split; [apply only_swept_refl | reflexivity].
  - congruence.
Qed.

End SweepFacts.

(** X7.  Whatever the disk does (any operation may fail at any point),
    a purge only ever deletes: the directories stay, nothing is created
    or rewritten, no other part of the environment changes, and an entry
    that disappears was a regular file of the log directory born before
    [now - retentionDays].  The purge never stays suspended; when it
    throws it leaves the instance as it was, so that the next write
    sweeps again, and when it returns it has either done nothing at all
    (rate limit) or recorded the current instant. *)
Theorem purge_removes_only_expired_files (st : FileLogger.t * World) :
  let now := clock_ms (snd st) in
  let res := FileLogger._purgeLogs st in
  let st' := snd res in
  fst res <> Pending
  /\ snd st' = set_fs (fs (snd st')) (snd st)
  /\ (forall d, is_Some (fs (snd st') !! d) <-> is_Some (fs (snd st) !! d))
  /\ (forall d name e',
        entry_at (snd st') d name = Some e' ->
        entry_at (snd st) d name = Some e')
  /\ (forall d name e,
        entry_at (snd st) d name = Some e ->
        entry_at (snd st') d name = None ->
        d = FileLogger._logDirPath (fst st)
        /\ isFile e = true
        /\ exists days,
             FileLogger._retentionDays (fst st) = Some days
             /\ birthtime e < now - FileLogger.days_to_ms days)
  /\ (forall e, fst res = Throw e -> fst st' = fst st)
  /\ (fst res = Normal tt ->
      (st' = st /\ FileLogger._lastPurgedAt (fst st) <> 0)
      \/ fst st' = FileLogger.set_lastPurgedAt now (fst st)).
Proof.
  destruct st as [l w]. cbv zeta. cbn [fst snd].
  destruct (FileLogger._purgeLogs (l, w)) as [r [l' w']] eqn:Hrun.
  destruct (purgeLogs_cases l w r l' w' Hrun) as [(Hw & Hdirs & Hent) Hcase].
  cbn [fst snd].
  split; [by destruct r |]. split; [exact Hw |]. split; [exact Hdirs |].
  split; [| split; [| split]].
  - intros d name e' He'.
    destruct (Hent d name) as [Heq | (Hnone & _)]; congruence.
  - intros d name e He Hnone.
    destruct (Hent d name) as [Heq | (_ & -> & e0 & He0 & Hfile & c & Hc & Hlt)];
      [congruence |].
    assert (e0 = e) as -> by congruence.
    split; [reflexivity |]. split; [exact Hfile |].
    unfold cutoff_of in Hc.
    destruct (FileLogger._retentionDays l) as [days |]; [| discriminate Hc].
    exists days. split; [reflexivity |]. injection Hc as <-. exact Hlt.
  - intros e ->. exact Hcase.
  - intros ->. destruct Hcase as [(-> & -> & Hnz) | ->];
      [left; by split | right; reflexivity].
Qed.

(** ** The layout of a write *)

Section WriteFacts.
Import FileLogger.










End WriteFacts.



(** ** Writes in sequence *)

Section SequenceFacts.
Import FileLogger.


End SequenceFacts.



(** ** Construction of the file sink *)



(** ** The console sink *)

Section ConsoleFacts.
Import ConsoleLogger.

Lemma set_span_errors_same (w : World) : set_span_errors (span_errors w) w = w.
Proof. by destruct w. Qed.

Lemma json_line_writes self level msg isError w :
  exists chunk errs,
    json_line self level msg isError w
    = (Normal tt, set_stdout (stdout w ++ [chunk]) (set_span_errors errs w)).
Proof.
  unfold json_line, stream_write, Eff.bind, Eff.gets, Eff.modify.
  destruct (getDateTime_returns self w) as (dt & ->).
  match goal with
  | |- context [injectTrace ?s ?lg ?e w] =>
      destruct (injectTrace_returns s lg e w) as (log' & errs & ->)
  end.
  eexists _, errs. reflexivity.
Qed.

Lemma plain_line_writes self color prefix msg w :
  exists chunk,
    plain_line self color prefix msg w
    = (Normal tt, set_stdout (stdout w ++ [chunk]) w).
Proof.
  unfold plain_line, stream_write, Eff.bind, Eff.gets, Eff.modify.
  destruct (getDateTime_returns self w) as (dt & ->).
  destruct color; eexists; reflexivity.
Qed.

Lemma line_writes self w (m : M World unit) :
  (exists level msg isError, m = json_line self level msg isError)
  \/ (exists color prefix msg, m = plain_line self color prefix msg) ->
  exists chunk errs,
    m w = (Normal tt, set_stdout (stdout w ++ [chunk]) (set_span_errors errs w)).
Proof.
  intros [(level & msg & isError & ->) | (color & prefix & msg & ->)].
  - apply json_line_writes.
  - destruct (plain_line_writes self color prefix msg w) as (chunk & ->).
    exists chunk, (span_errors w). by rewrite set_span_errors_same.
Qed.

(** [getErrorMessage] returns unless the rendering stays suspended, and
    changes at most the console. *)
Lemma getErrorMessage_settles (v : value) (w : World) :
  fst (render_error v w) <> Pending ->
  exists msg w1,
    getErrorMessage v w = (Normal msg, w1)
    /\ (w1 = w \/ exists e, w1 = set_console (console w ++ [console_warn (LError e)]) w).
Proof.
  intros Hrender. unfold getErrorMessage, Eff.try_catch.
  assert (Hsnd : snd (render_error v w) = w).
  { destruct v as [| | s | n | [s | e |] | [s | e |] | [s | e |]]; reflexivity. }
  destruct (render_error v w) as [[msg | e |] w0]; cbn [fst snd] in *; subst w0.
  - exists msg, w. split; [reflexivity | by left].
  - eexists _, _. split; [reflexivity |]. right. by exists e.
  - congruence.
Qed.

End ConsoleFacts.

(** X11.  The console sink writes to [process.stdout] only, one chunk
    per call: [logInfo], and [logDebug] in the ["dev"] environment,
    return after appending exactly one chunk to the stream; [logDebug]
    in any other environment changes nothing; [logWarning] and
    [logError], for a value whose rendering terminates, return after
    appending exactly one chunk, the console having received at most the
    warning of a failed rendering.  No call throws, and the file system
    is never touched. *)
Theorem console_sink_writes_one_chunk (self : BaseLogger.t) (w : World) :
  (forall debug,
      (_env self <> "dev" -> ConsoleLogger.logDebug self debug w = (Normal tt, w))
      /\ (_env self = "dev" ->
          exists chunk errs,
            ConsoleLogger.logDebug self debug w
            = (Normal tt,
               set_stdout (stdout w ++ [chunk]) (set_span_errors errs w))))
  /\ (forall info,
        exists chunk errs,
          ConsoleLogger.logInfo self info w
          = (Normal tt, set_stdout (stdout w ++ [chunk]) (set_span_errors errs w)))
  /\ (forall v,
        fst (render_error v w) <> Pending ->
        exists chunk errs w1,
          (w1 = w
           \/ exists e, w1 = set_console (console w ++ [console_warn (LError e)]) w)
          /\ ConsoleLogger.logWarning self v w
             = (Normal tt,
                set_stdout (stdout w1 ++ [chunk]) (set_span_errors errs w1))
          /\ exists chunk' errs',
               ConsoleLogger.logError self v w
               = (Normal tt,
                  set_stdout (stdout w1 ++ [chunk']) (set_span_errors errs' w1))).
Proof.
  split; [| split].
  - intros debug. unfold ConsoleLogger.logDebug. split.
    + intros Henv. apply String.eqb_neq in Henv. by rewrite Henv.
    + intros Henv. rewrite Henv. cbn [String.eqb Ascii.eqb Bool.eqb].
      apply (line_writes self).
      destruct (_useJsonFormat self); [left | right]; eauto.
  - intros info. unfold ConsoleLogger.logInfo.
    apply (line_writes self).
    destruct (_useJsonFormat self); [left | right]; eauto.
  - intros v Hrender.
    destruct (getErrorMessage_settles v w Hrender) as (msg & w1 & Hmsg & Hw1).
    assert (Hwarn : ConsoleLogger.logWarning self v w
                    = (if _useJsonFormat self
                       then ConsoleLogger.json_line self "Warn" msg false
                       else ConsoleLogger.plain_line self (Some "yellow")
                              LogPrefix.warning msg) w1).
    { unfold ConsoleLogger.logWarning, Eff.bind.
      destruct (_useJsonFormat self); by rewrite Hmsg. }
    assert (Herr : ConsoleLogger.logError self v w
                   = (if _useJsonFormat self
                      then ConsoleLogger.json_line self "Error" msg true
                      else ConsoleLogger.plain_line self (Some "red")
                             LogPrefix.error msg) w1).
    { unfold ConsoleLogger.logError, Eff.bind.
      destruct (_useJsonFormat self); by rewrite Hmsg. }
    rewrite Hwarn, Herr.
    destruct (line_writes self w1
                (if _useJsonFormat self
                 then ConsoleLogger.json_line self "Warn" msg false
                 else ConsoleLogger.plain_line self (Some "yellow")
                        LogPrefix.warning msg)) as (chunk & errs & Hc).
    { destruct (_useJsonFormat self); [left | right]; eauto. }
    destruct (line_writes self w1
                (if _useJsonFormat self
                 then ConsoleLogger.json_line self "Error" msg true
                 else ConsoleLogger.plain_line self (Some "red")
                        LogPrefix.error msg)) as (chunk' & errs' & Hc').
    { destruct (_useJsonFormat self); [left | right]; eauto. }
    exists chunk, errs, w1. split; [exact Hw1 |]. split; [exact Hc |].
    exists chunk', errs'. exact Hc'.
Qed.

(** ** The history of the remote sink *)

Section HistoryFacts.
Import SlackLogger SlackSpec.

Lemma accepted_record_fixed l l' log : fixed l' = fixed l -> accepted_record l log -> accepted_record l' log.
Proof.
  unfold fixed, accepted_record. intros [= -> -> -> -> -> _ _ _ _ _]. tauto.
Qed.

Lemma post_of_fixed l l' batch : fixed l' = fixed l -> post_of l' batch = post_of l batch.
Proof.
  unfold fixed, post_of. intros [= -> _ _ _ _ _ -> -> -> ->]. reflexivity.
Qed.

Lemma extends_idle l st st' :
  fst st' = fst st -> pushed (snd st') = pushed (snd st) ->
  posted (snd st') = posted (snd st) -> extends l st st'.
Proof. intros H1 H2 H3. split; [by rewrite H1 |]. split; by left. Qed.

Lemma extends_push (l : SlackLogger.t) (r : Runtime) (w1 : World) log :
  accepted_record l log ->
  extends l (l, r) (snd (push (inject (SlackLogger.super l) log) (l, set_world w1 r))).
Proof.
  intros Hadm. split; [reflexivity |]. split; [| by left].
  right. exists log. by split.
Qed.

Lemma record_accepted l lvl msg dt time clr :
  (lvl = "Debug" /\ clr = "#F8F8F8" /\ _env (SlackLogger.super l) = "dev")
  \/ (_logFilter l (slack_record l lvl msg dt time clr) = true
      /\ ((lvl = "Info" /\ clr = "#259D2F" /\ _includeInfo l = true)
          \/ (lvl = "Warn" /\ clr = "#F1AB2A" /\ _includeWarn l = true)
          \/ (lvl = "Error" /\ clr = "#EF401D" /\ _includeError l = true))) ->
  accepted_record l (slack_record l lvl msg dt time clr).
Proof.
  intros H. unfold accepted_record, slack_record. cbn [source service env level extras].
  repeat split.
  destruct H as [(-> & -> & Hdev) | (Hf & [(-> & -> & Hi) | [(-> & -> & Hi) | (-> & -> & Hi)]])].
  - left. by repeat split.
  - right. left. by repeat split.
  - right. right. left. by repeat split.
  - right. right. right. by repeat split.
Qed.

(** The common tail of [logInfo], [logWarning] and [logError]. *)
Lemma tail_extends (l : SlackLogger.t) (r : Runtime) (w1 : World) (lvl msg clr : string) :
  (lvl = "Info" /\ clr = "#259D2F" /\ _includeInfo l = true)
  \/ (lvl = "Warn" /\ clr = "#F1AB2A" /\ _includeWarn l = true)
  \/ (lvl = "Error" /\ clr = "#EF401D" /\ _includeError l = true) ->
  extends l (l, r)
    (snd (Eff.bind (SlackLogger.world (getDateTime (SlackLogger.super l)))
            (fun dateTime =>
               Eff.bind (SlackLogger.world (Eff.gets clock_date_iso))
                 (fun time =>
                    let log := slack_record l lvl msg dateTime time clr in
                    if negb (_logFilter l log) then Eff.ret tt
                    else push (inject (SlackLogger.super l) log)))
            (l, set_world w1 r))).
Proof.
  intros Hlvl.
  destruct (slack_tail l (set_world w1 r) lvl msg clr) as (dt & _ & ->). cbv zeta.
  destruct (_logFilter l _) eqn:Hf.
  - apply (extends_push l r w1). apply record_accepted. right. by split.
  - by apply extends_idle.
Qed.

Lemma logDebug_extends l r debug : extends l (l, r) (snd (logDebug debug (l, r))).
Proof.
  destruct (String.eqb (_env (SlackLogger.super l)) "dev") eqn:Henv.
  - apply String.eqb_eq in Henv.
    destruct (slack_logDebug_pushes l r debug Henv) as (dt & ->).
    rewrite <- (slack_set_world_same r) at 2.
    apply extends_push, record_accepted. left. by repeat split.
  - unfold logDebug, this, Eff.gets, Eff.bind. cbn [fst snd]. rewrite Henv.
    by apply extends_idle.
Qed.

Lemma logInfo_extends l r info : extends l (l, r) (snd (logInfo info (l, r))).
Proof.
  unfold logInfo, this, Eff.gets, Eff.bind at 1. cbn [fst snd].
  destruct (_includeInfo l) eqn:Hi; cbn [negb]; [| by apply extends_idle].
  rewrite <- (slack_set_world_same r) at 2.
  apply tail_extends. left. by repeat split.
Qed.

Lemma logWarning_extends l r warning :
  extends l (l, r) (snd (logWarning warning (l, r))).
Proof.
  unfold logWarning, this, Eff.gets, Eff.bind at 1. cbn [fst snd].
  destruct (_includeWarn l) eqn:Hi; cbn [negb]; [| by apply extends_idle].
  unfold Eff.bind at 1, SlackLogger.world at 1, Eff.zoom. cbn [fst snd].
  destruct (getErrorMessage warning (env_world r)) as [[msg | e |] w1];
    cbn [fst snd]; try (by apply extends_idle).
  apply tail_extends. right. left. by repeat split.
Qed.

Lemma logError_extends l r error :
  extends l (l, r) (snd (logError error (l, r))).
Proof.
  unfold logError, this, Eff.gets, Eff.bind at 1. cbn [fst snd].
  destruct (_includeError l) eqn:Hi; cbn [negb]; [| by apply extends_idle].
  unfold Eff.bind at 1, SlackLogger.world at 1, Eff.zoom. cbn [fst snd].
  destruct (getErrorMessage error (env_world r)) as [[msg | e |] w1];
    cbn [fst snd]; try (by apply extends_idle).
  apply tail_extends. right. right. by repeat split.
Qed.

Lemma flush_extends (o : Origin) l0 (st : State) :
  consistent st -> fixed l0 = fixed (fst st) ->
  extends l0 st (snd (_flushMessages_begin o st)).
Proof.
  intros Hc Hfix.
  destruct (preserved_flush o st Hc) as (_ & _ & _ & Hpost).
  destruct st as [l r]. rewrite flushMessages_begin_eq in *.
  unfold buffer in Hpost. cbn [fst snd] in *.
  destruct (array r (_messages l)) as [| x batch] eqn:Hbuf.
  - by apply extends_idle.
  - destruct (Hpost ltac:(discriminate)) as [Hposted _].
    split; [reflexivity |]. split; [by left |].
    right. exists (x :: batch). split; [discriminate |].
    cbn [fst snd] in *. rewrite Hposted. by rewrite (post_of_fixed l l0).
Qed.

Lemma settle_extends i outcome l0 (st : State) :
  extends l0 st (snd (settle i outcome st)).
Proof.
  destruct st as [l r]. unfold settle. cbn [fst snd].
  destruct (in_flight r !! i) as [[messages origin] |];
    [| by apply extends_idle].
  set (s1 := (l, set_in_flight (delete i (in_flight r)) r)).
  pose proof (keeps_core_postMessages_settle messages outcome s1) as Hk.
  assert (Hcore : forall s2 : State, core s2 = core s1 -> extends l0 (l, r) s2).
  { intros [l2 r2]. unfold core. cbn [fst snd].
    intros [= -> _ _ Hposted _ Hpushed]. by apply extends_idle. }
  destruct (_postMessages_settle messages outcome s1) as [[[] | e |] s2];
    cbn [snd] in Hk; try (by apply Hcore).
  destruct origin; [| by apply Hcore].
  apply Hcore. rewrite keeps_core_timer_catch. exact Hk.
Qed.

Lemma step_extends ev l0 (st : State) :
  consistent st -> fixed l0 = fixed (fst st) -> extends l0 st (step ev st).
Proof.
  intros Hc Hfix.
  assert (Hl : forall st', extends (fst st) st st' -> extends l0 st st').
  { intros st' (H1 & H2 & H3). split; [exact H1 |]. split.
    - destruct H2 as [H2 | (log & Hadm & H2)]; [by left | right].
      exists log. split; [by apply (accepted_record_fixed (fst st)) |].
      rewrite H2. unfold fixed in Hfix. injection Hfix as -> _. reflexivity.
    - destruct H3 as [H3 | (batch & Hne & H3)]; [by left | right].
      exists batch. split; [exact Hne |]. by rewrite (post_of_fixed (fst st) l0). }
  destruct ev; cbn [step].
  - destruct st as [l r]. apply Hl, logDebug_extends.
  - destruct st as [l r]. apply Hl, logInfo_extends.
  - destruct st as [l r]. apply Hl, logWarning_extends.
  - destruct st as [l r]. apply Hl, logError_extends.
  - destruct (_timer (fst st)); [by apply flush_extends | by apply extends_idle].
  - destruct st as [l r]. rewrite dispose_state.
    destruct (_isDisposed l); [by apply extends_idle |].
    assert (Hc' : consistent (set_disposed (flushes r) l, r)) by exact Hc.
    pose proof (flush_extends FromDispose l0 _ Hc' Hfix) as (H1 & H2 & H3).
    split; [exact H1 |]. split; assumption.
  - apply settle_extends.
Qed.

(** The history of a run. *)
Lemma run_history evs l0 : forall (st : State),
  consistent st -> fixed l0 = fixed (fst st) ->
  fixed (fst (run evs st)) = fixed l0
  /\ (exists logs,
        Forall (accepted_record l0) logs
        /\ pushed (snd (run evs st))
           = (pushed (snd st) ++ map (inject (SlackLogger.super l0)) logs)%list)
  /\ (exists batches,
        Forall (fun batch => batch <> []) batches
        /\ posted (snd (run evs st))
           = (posted (snd st) ++ map (post_of l0) batches)%list).
Proof.
  induction evs as [| ev evs IH]; intros st Hc Hfix.
  - cbn [run fold_left]. split; [by symmetry |].
    split; [exists [] | exists []]; (split; [constructor | by rewrite app_nil_r]).
  - cbn [run fold_left].
    destruct (step_extends ev l0 st Hc Hfix) as (Hfix1 & Hpush & Hpost).
    destruct (IH (step ev st) (proj1 (preserved_step ev st Hc)) ltac:(congruence))
      as (Hfix' & (logs & Hlogs & Hpushed) & (batches & Hbatches & Hposted)).
    fold (run evs (step ev st)) in *.
    split; [exact Hfix' |]. split.
    + destruct Hpush as [Heq | (log & Hadm & Heq)].
      * exists logs. split; [exact Hlogs |]. by rewrite Hpushed, Heq.
      * exists (log :: logs). split; [by constructor |].
        rewrite Hpushed, Heq. cbn [map]. by rewrite <- app_assoc.
    + destruct Hpost as [Heq | (batch & Hne & Heq)].
      * exists batches. split; [exact Hbatches |]. by rewrite Hposted, Heq.
      * exists (batch :: batches). split; [by constructor |].
        rewrite Hposted, Heq. cbn [map]. by rewrite <- app_assoc.
Qed.

End HistoryFacts.

Section SlackConstruction.
Import SlackLogger SlackSpec.

Lemma slack_constructor_result getConfig cfg (w : World) :
  SlackLogger.constructor getConfig cfg w
  = if accepted_config cfg
    then
      (Normal
         ({| super :=
               BaseLogger.new getConfig
                 (Some {| BaseLogger.logDateTimeZone := logDateTimeZone cfg;
                          BaseLogger.useJsonFormat := None;
                          BaseLogger.logInjector := logInjector cfg;
                          BaseLogger.enableOtelToDatadogTraceConversion := None |});
             _includeInfo := contains (levels_of cfg) "Info";
             _includeWarn := contains (levels_of cfg) "Warn";
             _includeError := contains (levels_of cfg) "Error";
             _logFilter :=
               match logFilter cfg with Some f => f | None => fun _ => true end;
             _fallbackLogger := fallback cfg;
             _channel := string_or (slackBotChannel cfg) EmptyString;
             _userName := string_or (slackUserName cfg) (resolve_service getConfig);
             _userImage :=
               match slackUserImage cfg with
               | VString s =>
                   if isEmptyOrWhiteSpace s then ":robot_face:"
                   else trim_right (trim_left s)
               | _ => ":robot_face:"
               end;
             _userImageIsEmoji :=
               is_emoji
                 match slackUserImage cfg with
                 | VString s =>
                     if isEmptyOrWhiteSpace s then ":robot_face:"
                     else trim_right (trim_left s)
                 | _ => ":robot_face:"
                 end;
             _messages := 0%nat;
             _timer := true;
             _isDisposed := false;
             _disposePromise := None |},
          empty_runtime w), w)
    else
      (Throw
         (if negb (string_with_content (slackBotToken cfg))
          then match slackBotToken cfg with
               | VUndefined | VNull => ArgumentNullException "slackBotToken"
               | VString _ =>
                   ArgumentException "slackBotToken"
                     "string value cannot be empty or whitespace"
               | _ => ArgumentException "slackBotToken" "must be string"
               end
          else if negb (string_with_content (slackBotChannel cfg))
          then match slackBotChannel cfg with
               | VUndefined | VNull => ArgumentNullException "slackBotChannel"
               | VString _ =>
                   ArgumentException "slackBotChannel"
                     "string value cannot be empty or whitespace"
               | _ => ArgumentException "slackBotChannel" "must be string"
               end
          else if negb (string_if_given (slackUserName cfg))
          then ArgumentException "slackUserName" "must be string"
          else if negb (string_if_given (slackUserImage cfg))
          then ArgumentException "slackUserImage" "must be string"
          else InvalidArgumentException "filter"), w).
Proof.
  unfold SlackLogger.constructor, accepted_config, levels_of,
    string_with_content, string_if_given,
    Defensive.ensureHasValue, Defensive.ensureIsString,
    Eff.bind, Eff.ret, Eff.throw, Eff.get.
  cbn [Defensive.arg Defensive.argName].
  destruct (slackBotToken cfg) as [| | tok | | | |]; try reflexivity.
  destruct (isEmptyOrWhiteSpace tok); [reflexivity |].
  cbn [Defensive.arg Defensive.argName negb andb].
  destruct (slackBotChannel cfg) as [| | ch | | | |]; try reflexivity.
  destruct (isEmptyOrWhiteSpace ch) eqn:Hch; [reflexivity |].
  cbn [Defensive.arg Defensive.argName negb andb].
  destruct (slackUserName cfg) as [| | un | | | |];
    cbn [Defensive.arg Defensive.argName negb andb]; try reflexivity;
    (destruct (slackUserImage cfg) as [| | im | | | |];
     cbn [Defensive.arg Defensive.argName negb andb]; try reflexivity;
     destruct (forallb _ _); reflexivity).
Qed.

End SlackConstruction.

(** ** Construction of the remote sink *)



(** ** What the remote sink buffers and posts *)

(** X13.  Whatever events a sink goes through after its construction,
    every record it has pushed to a batch is the transform (if one is
    configured) of a record that carries the identity of the sink and the
    colour of its level, and that is either a debug record, in the
    ["dev"] environment only, or a record of a level the filter allows
    and that the predicate accepted before the transform was applied.
    Nothing of an excluded level, and nothing the predicate rejects, is
    ever buffered. *)
Theorem only_accepted_records_are_buffered
    (getConfig : AppConfig) (cfg : SlackLogger.SlackLoggerConfig)
    (w w' : World) (st0 : SlackLogger.t * SlackLogger.Runtime)
    (evs : list SlackLogger.Event) :
  SlackLogger.constructor getConfig cfg w = (Normal st0, w') ->
  let st := SlackLogger.run evs st0 in
  let transform :=
    match SlackLogger.logInjector cfg with Some f => f | None => fun log => log end in
  let accepts :=
    match SlackLogger.logFilter cfg with Some f => f | None => fun _ => true end in
  exists logs,
    SlackLogger.pushed (snd st) = map transform logs
    /\ Forall
         (fun log =>
            source log = "nodejs"
            /\ service log = resolve_service getConfig
            /\ env log = resolve_env getConfig
            /\ ((level log = "Debug" /\ extras log = [("color", "#F8F8F8")]
                 /\ resolve_env getConfig = "dev")
                \/ ((level log, extras log) = ("Info", [("color", "#259D2F")])
                    \/ (level log, extras log) = ("Warn", [("color", "#F1AB2A")])
                    \/ (level log, extras log) = ("Error", [("color", "#EF401D")]))
                   /\ level log ∈ levels_of cfg
                   /\ accepts log = true))
         logs.
Proof.
  intros Hnew st transform accepts.
  pose proof Hnew as Hres. rewrite slack_constructor_result in Hres.
  destruct (accepted_config cfg); [| discriminate Hres].
  injection Hres as <- <-.
  match type of Hnew with _ = (Normal ?s, _) => set (st0 := s) in * end.
  destruct (run_history evs (fst st0) st0) as (_ & (logs & Hlogs & Hpushed) & _).
  { by eapply consistent_constructor. }
  { reflexivity. }
  exists logs. split.
  - fold st in Hpushed. rewrite Hpushed. cbn [SlackLogger.pushed snd st0 SlackLogger.empty_runtime app].
    apply map_ext. intros log. unfold inject, transform. subst st0. cbn.
    by destruct (SlackLogger.logInjector cfg).
  - eapply Forall_impl; [exact Hlogs |].
    intros log (Hsrc & Hsvc & Henv & Hlvl).
    split; [exact Hsrc |]. split; [exact Hsvc |]. split; [exact Henv |].
    assert (Hin : forall x, SlackLogger.contains (levels_of cfg) x = true ->
                            x ∈ levels_of cfg).
    { intros x Hx. unfold SlackLogger.contains in Hx.
      apply existsb_exists in Hx as (y & Hy & ->%String.eqb_eq).
      by apply list_elem_of_In. }
    destruct Hlvl as [(Hl & Hx & Hdev) | [(Hl & Hx & Hi & Hf)
                    | [(Hl & Hx & Hi & Hf) | (Hl & Hx & Hi & Hf)]]].
    + left. by repeat split.
    + right. rewrite Hl, Hx. split; [by left |].
      split; [by apply Hin | exact Hf].
    + right. rewrite Hl, Hx. split; [right; by left |].
      split; [by apply Hin | exact Hf].
    + right. rewrite Hl, Hx. split; [right; by right |].
      split; [by apply Hin | exact Hf].
Qed.

Lemma only_accepted_records_are_buffered_witness :
  exists logs,
    SlackLogger.pushed
      (snd (SlackLogger.run
              [SlackLogger.EvLogInfo "x"; SlackLogger.EvLogDebug "d";
               SlackLogger.EvLogError (VString "y"); SlackLogger.EvTimer]
              Scenarios.errors_only_state))
    = map (fun log => log) logs
    /\ Forall (fun log => level log ∈ ["Error"]) logs.
Proof.
  destruct (only_accepted_records_are_buffered Examples.production
              Scenarios.errors_only Examples.world0 Examples.world0
              Scenarios.errors_only_state
              [SlackLogger.EvLogInfo "x"; SlackLogger.EvLogDebug "d";
               SlackLogger.EvLogError (VString "y"); SlackLogger.EvTimer]
              ltac:(vm_compute; reflexivity))
    as (logs & Hpushed & Hlogs).
  exists logs. split; [exact Hpushed |].
  eapply Forall_impl; [exact Hlogs |].
  intros log (_ & _ & _ & [(_ & _ & Hdev) | (_ & Hin & _)]).
  - vm_compute in Hdev. discriminate Hdev.
  - exact Hin.
Defined.

(** X14.  Every call to [chat.postMessage] a sink makes, whatever
    events it goes through after its construction, carries at least one
    attachment, goes to the configured channel under the user name fixed
    at construction with the text [service [env]], and names the user
    image either as an emoji or as a URL, never both and never
    neither. *)
Theorem posts_are_never_empty
    (getConfig : AppConfig) (cfg : SlackLogger.SlackLoggerConfig)
    (w w' : World) (st0 : SlackLogger.t * SlackLogger.Runtime)
    (evs : list SlackLogger.Event) :
  SlackLogger.constructor getConfig cfg w = (Normal st0, w') ->
  Forall
    (fun p =>
       SlackLogger.attachments p <> []
       /\ SlackLogger.channel p = SlackLogger._channel (fst st0)
       /\ SlackLogger.username p = SlackLogger._userName (fst st0)
       /\ SlackLogger.text p
          = (resolve_service getConfig
             ++ String " " (String "[" (resolve_env getConfig ++ "]")))%string
       /\ ((SlackLogger._userImageIsEmoji (fst st0) = true
            /\ SlackLogger.icon_emoji p = Some (SlackLogger._userImage (fst st0))
            /\ SlackLogger.icon_url p = None)
           \/ (SlackLogger._userImageIsEmoji (fst st0) = false
               /\ SlackLogger.icon_emoji p = None
               /\ SlackLogger.icon_url p = Some (SlackLogger._userImage (fst st0)))))
    (SlackLogger.posted (snd (SlackLogger.run evs st0))).
Proof.
  intros Hnew.
  pose proof (consistent_constructor _ _ _ _ _ Hnew) as Hc.
  destruct (run_history evs (fst st0) st0 Hc eq_refl)
    as (_ & _ & (batches & Hbatches & Hposted)).
  rewrite Hposted.
  rewrite slack_constructor_result in Hnew.
  destruct (accepted_config cfg); [| discriminate Hnew].
  injection Hnew as <- <-.
  cbn [SlackLogger.posted snd SlackLogger.empty_runtime app].
  apply Forall_map. eapply Forall_impl; [exact Hbatches |].
  intros batch Hne. unfold SlackLogger.post_of.
  cbn [SlackLogger.attachments SlackLogger.channel SlackLogger.username
       SlackLogger.text SlackLogger.icon_emoji SlackLogger.icon_url fst
       SlackLogger._channel SlackLogger._userName SlackLogger._userImage
       SlackLogger._userImageIsEmoji SlackLogger.super].
  split; [by destruct batch |]. split; [reflexivity |]. split; [reflexivity |].
  split; [reflexivity |].
  destruct (SlackLogger.is_emoji _); [left | right]; by repeat split.
Qed.

Lemma posts_are_never_empty_witness :
  Forall
    (fun p =>
       SlackLogger.attachments p <> []
       /\ SlackLogger.channel p = "ops"
       /\ SlackLogger.icon_url p = Some "https://example.org/bot.png")
    (SlackLogger.posted
       (snd (SlackLogger.run
               [SlackLogger.EvTimer; SlackLogger.EvLogError (VString "y");
                SlackLogger.EvTimer; SlackLogger.EvDispose]
               Scenarios.errors_only_state))).
Proof.
  eapply Forall_impl;
    [exact (posts_are_never_empty Examples.production Scenarios.errors_only
              Examples.world0 Examples.world0 Scenarios.errors_only_state
              [SlackLogger.EvTimer; SlackLogger.EvLogError (VString "y");
               SlackLogger.EvTimer; SlackLogger.EvDispose]
              ltac:(vm_compute; reflexivity)) |].
  intros p (Hne & Hch & _ & _ & Hicon).
  split; [exact Hne |]. split; [exact Hch |].
  destruct Hicon as [(He & _) | (_ & _ & Hu)]; [| exact Hu].
  vm_compute in He. discriminate He.
Defined.

(** ** Flushes, disposal and failed deliveries *)

Section DisposalFacts.
Import SlackLogger SlackSpec.

Lemma flush_begin_fields (o : Origin) (l : SlackLogger.t) (r : Runtime) :
  let st' := snd (_flushMessages_begin o (l, r)) in
  _isDisposed (fst st') = _isDisposed l
  /\ _disposePromise (fst st') = _disposePromise l
  /\ _timer (fst st') = _timer l
  /\ buffer st' = []
  /\ (length (posted (snd st')) <= S (length (posted r)))%nat.
Proof.
  cbv zeta. rewrite flushMessages_begin_eq. unfold buffer, array.
  destruct (default [] (heap r !! _messages l)) as [| x batch] eqn:Hbuf;
    cbn [fst snd].
  - rewrite Hbuf. repeat split. lia.
  - cbn [_isDisposed _disposePromise _timer set_messages _messages heap posted].
    rewrite lookup_insert_eq, length_app. cbn. repeat split. lia.
Qed.

Lemma dispose_eq (l : SlackLogger.t) (r : Runtime) :
  dispose (l, r) =
  if _isDisposed l then (Normal (_disposePromise l), (l, r))
  else (Normal (Some (flushes r)),
        snd (_flushMessages_begin FromDispose (set_disposed (flushes r) l, r))).
Proof.
  unfold dispose, this, Eff.gets, Eff.bind, Eff.modify, Eff.ret. cbn [fst snd].
  destruct (_isDisposed l); cbn [negb fst snd]; [reflexivity |].
  rewrite flushMessages_begin_eq.
  destruct (array r (_messages (set_disposed (flushes r) l))); reflexivity.
Qed.

Lemma console_replay_loop (l : SlackLogger.t) batch : forall (r : Runtime),
  for_each batch (fun log => SlackLogger.world (console_write (replay_console log))) (l, r)
  = (Normal tt,
     (l, set_world
           (set_console (console (env_world r) ++ map replay_console batch)
              (env_world r)) r)).
Proof.
  induction batch as [| log batch IH]; intros r.
  - cbn [for_each map]. unfold Eff.ret. rewrite app_nil_r.
    assert (Hsame : set_console (console (env_world r)) (env_world r) = env_world r)
      by (by destruct (env_world r)).
    by rewrite Hsame, slack_set_world_same.
  - cbn [for_each map]. unfold Eff.bind at 1.
    unfold SlackLogger.world at 1, Eff.zoom, console_write, Eff.modify.
    cbn [fst snd]. rewrite IH.
    cbn [env_world set_world console set_console]. rewrite <- app_assoc.
    reflexivity.
Qed.

Lemma settles_slack_world {A} (m : M World A) :
  settles m -> settles (SlackLogger.world m).
Proof.
  intros Hm s. unfold SlackLogger.world, Eff.zoom. specialize (Hm (env_world (snd s))).
  destruct (m (env_world (snd s))) as [c w']. exact Hm.
Qed.

Lemma settles_fallback_call fb c : settles (fallback_call fb c).
Proof. intros s. unfold fallback_call. destruct (rejects fb c); discriminate. Qed.

Lemma settles_console_write line : settles (console_write line).
Proof. intros w. discriminate. Qed.

Lemma settles_postMessages_settle messages outcome :
  outcome <> Pending -> settles (_postMessages_settle messages outcome).
Proof.
  intros Hout s. unfold _postMessages_settle, Eff.try_catch, lift.
  destruct outcome as [[] | e |]; [discriminate | | congruence].
  revert s. apply settles_bind; [intros s; discriminate | intros self].
  destruct (_fallbackLogger self) as [fb |].
  - repeat (apply settles_bind; [apply settles_fallback_call | intros _]).
    apply settles_bind; [intros s; discriminate | intros batch].
    apply settles_for_each. intros log. apply settles_fallback_call.
  - repeat (apply settles_bind;
            [apply settles_slack_world, settles_console_write | intros _]).
    apply settles_bind; [intros s; discriminate | intros batch].
    apply settles_for_each. intros log.
    apply settles_slack_world, settles_console_write.
Qed.

Lemma timer_catch_returns e (s : State) : fst (timer_catch e s) = Normal tt.
Proof.
  unfold timer_catch, this, Eff.gets, Eff.bind. cbn [fst snd].
  destruct (_fallbackLogger (fst s)) as [fb |]; [| reflexivity].
  unfold Eff.try_catch, fallback_call. cbn [fst snd].
  destruct (rejects fb _); reflexivity.
Qed.

End DisposalFacts.

(** ** Disposal *)

(** X15.  [dispose] is idempotent: a second call returns the promise of
    the first and changes nothing, so the last batch is flushed once.
    The first call marks the sink disposed, stops the timer, so that a
    later firing of the interval does nothing, and flushes: the batch is
    left empty and at most one post call is added. *)
Theorem dispose_is_idempotent (st : SlackLogger.t * SlackLogger.Runtime) :
  exists promise st1,
    SlackLogger.dispose st = (Normal promise, st1)
    /\ SlackLogger.dispose st1 = (Normal promise, st1)
    /\ SlackLogger._isDisposed (fst st1) = true
    /\ (SlackLogger._isDisposed (fst st) = false ->
        promise = Some (SlackLogger.flushes (snd st))
        /\ SlackLogger._timer (fst st1) = false
        /\ SlackLogger.step SlackLogger.EvTimer st1 = st1
        /\ SlackLogger.buffer st1 = []
        /\ (length (SlackLogger.posted (snd st1))
            <= S (length (SlackLogger.posted (snd st))))%nat)
    /\ (SlackLogger._isDisposed (fst st) = true -> st1 = st).
Proof.
  destruct st as [l r]. cbn [fst snd].
  rewrite dispose_eq.
  destruct (SlackLogger._isDisposed l) eqn:Hd.
  - exists (SlackLogger._disposePromise l), (l, r).
    rewrite dispose_eq, Hd. cbn [fst snd].
    split; [reflexivity |]. split; [reflexivity |]. split; [exact Hd |].
    split; [discriminate | reflexivity].
  - pose proof (flush_begin_fields SlackLogger.FromDispose
                  (SlackLogger.set_disposed (SlackLogger.flushes r) l) r)
      as (Hdis & Hprom & Htimer & Hbuf & Hlen).
    cbv zeta in *.
    destruct (snd (SlackLogger._flushMessages_begin SlackLogger.FromDispose
                     (SlackLogger.set_disposed (SlackLogger.flushes r) l, r)))
      as [l1 r1] eqn:Hst1.
    cbn [fst snd SlackLogger._isDisposed SlackLogger._disposePromise
         SlackLogger._timer SlackLogger.set_disposed] in *.
    exists (Some (SlackLogger.flushes r)), (l1, r1).
    split; [reflexivity |].
    split; [rewrite dispose_eq, Hdis, Hprom; reflexivity |].
    split; [exact Hdis |]. split; [| discriminate].
    intros _. split; [reflexivity |]. split; [exact Htimer |].
    split; [cbn [SlackLogger.step fst]; by rewrite Htimer |].
    split; [exact Hbuf | exact Hlen].
Qed.

(** ** A failed delivery without a fallback logger *)

(** X16.  When the post call rejects and no fallback logger is
    configured, [_postMessages] writes to the console the warning
    ["Error while posting to slack."], the error, the warning
    ["Original messages below"], and then every record of the batch in
    its order: through [console.info] for the levels ["Debug"] and
    ["Info"], [console.warn] for ["Warn"], and [console.error] for
    ["Error"] and for any other level.  The call itself returns, and
    nothing else changes. *)
Theorem console_replay_without_fallback
    (st : SlackLogger.t * SlackLogger.Runtime) (messages : nat) (error : exn) :
  SlackLogger._fallbackLogger (fst st) = None ->
  let w := SlackLogger.env_world (snd st) in
  let batch := SlackLogger.array (snd st) messages in
  SlackLogger._postMessages_settle messages (Throw error) st
  = (Normal tt,
     (fst st,
      SlackLogger.set_world
        (set_console (console w ++ console_replay error batch) w) (snd st)))
  /\ (forall log,
        (level log = "Debug" \/ level log = "Info" ->
         SlackLogger.replay_console log = console_info (LString (message log)))
        /\ (level log = "Warn" ->
            SlackLogger.replay_console log = console_warn (LString (message log)))
        /\ (level log <> "Debug" -> level log <> "Info" -> level log <> "Warn" ->
            SlackLogger.replay_console log = console_error (LString (message log)))).
Proof.
  intros Hnone w batch. split.
  - destruct st as [l r]. cbn [fst snd] in *.
    unfold SlackLogger._postMessages_settle, Eff.try_catch, lift,
      SlackLogger.this, Eff.gets.
    unfold Eff.bind at 1. cbn [fst snd]. rewrite Hnone.
    unfold Eff.bind at 1 2 3 4, SlackLogger.world at 1 2 3, Eff.zoom,
      console_write, Eff.modify.
    cbn [fst snd SlackLogger.env_world SlackLogger.set_world].
    unfold SlackLogger.array at 1.
    cbn [SlackLogger.heap SlackLogger.set_world].
    fold (SlackLogger.array r messages). fold batch.
    rewrite console_replay_loop.
    cbn [SlackLogger.env_world SlackLogger.set_world console set_console].
    unfold console_replay. fold w. do 2 f_equal.
    rewrite <- !app_assoc. reflexivity.
  - intros log. unfold SlackLogger.replay_console.
    split; [| split].
    + intros [-> | ->]; reflexivity.
    + intros ->. reflexivity.
    + intros H1 H2 H3.
      apply String.eqb_neq in H1, H2, H3. rewrite H1, H2, H3.
      by destruct (String.eqb (level log) "Error").
Qed.

Lemma console_replay_without_fallback_witness :
  console
    (SlackLogger.env_world
       (snd (snd (SlackLogger._postMessages_settle 0
                    (Throw (DeliveryError "timeout"))
                    (SlackLogger.run
                       [SlackLogger.EvLogWarning (VString "disk almost full");
                        SlackLogger.EvLogInfo "started"]
                       (Examples.slack_state None None))))))
  = [console_warn (LString "Error while posting to slack.");
     console_error (LError (DeliveryError "timeout"));
     console_warn (LString "Original messages below");
     console_warn (LString "disk almost full");
     console_info (LString "started")].
Proof.
  rewrite (proj1 (console_replay_without_fallback
                    (SlackLogger.run
                       [SlackLogger.EvLogWarning (VString "disk almost full");
                        SlackLogger.EvLogInfo "started"]
                       (Examples.slack_state None None))
                    0 (DeliveryError "timeout") eq_refl)).
  vm_compute. reflexivity.
Defined.

(** ** Rejections of a flush started by the timer *)

(** X17.  A flush started by the interval never ends in an unhandled
    rejection: when its post call settles, whatever the outcome and
    whatever the fallback logger does during the replay, the step
    returns; a rejection of the replay is handed to the [logError] of the
    fallback logger and, if that rejects too or there is none, to
    [console.error].  For a flush started by [dispose], the outcome of
    the replay is the outcome of the promise [dispose] returned. *)
Theorem timer_flush_never_rejects
    (st : SlackLogger.t * SlackLogger.Runtime) (i messages : nat)
    (origin : SlackLogger.Origin) (outcome : completion unit) :
  SlackLogger.in_flight (snd st) !! i = Some (messages, origin) ->
  outcome <> Pending ->
  let st1 :=
    (fst st,
     SlackLogger.set_in_flight (delete i (SlackLogger.in_flight (snd st))) (snd st)) in
  let replay := SlackLogger._postMessages_settle messages outcome st1 in
  (origin = SlackLogger.FromTimer ->
   fst (SlackLogger.settle i outcome st) = Normal tt
   /\ (forall e, fst replay = Throw e ->
         SlackLogger.settle i outcome st = SlackLogger.timer_catch e (snd replay)))
  /\ (origin = SlackLogger.FromDispose ->
      SlackLogger.settle i outcome st = replay)
  /\ (outcome = Normal tt -> replay = (Normal tt, st1))
  /\ (forall e (s : SlackLogger.t * SlackLogger.Runtime),
        SlackLogger._fallbackLogger (fst s) = None ->
        SlackLogger.timer_catch e s
        = (Normal tt,
           (fst s,
            SlackLogger.set_world
              (set_console
                 (console (SlackLogger.env_world (snd s))
                  ++ [console_error (LError e)])
                 (SlackLogger.env_world (snd s)))
              (snd s))))
  /\ (forall e (s : SlackLogger.t * SlackLogger.Runtime) fb,
        SlackLogger._fallbackLogger (fst s) = Some fb ->
        let s' := snd (SlackLogger.timer_catch e s) in
        SlackLogger.fallback_calls (snd s')
        = (SlackLogger.fallback_calls (snd s)
           ++ [SlackLogger.FbError (LError e)])%list
        /\ (SlackLogger.rejects fb (SlackLogger.FbError (LError e)) = false ->
            console (SlackLogger.env_world (snd s'))
            = console (SlackLogger.env_world (snd s)))
        /\ (SlackLogger.rejects fb (SlackLogger.FbError (LError e)) = true ->
            exists e',
              console (SlackLogger.env_world (snd s'))
              = (console (SlackLogger.env_world (snd s))
                 ++ [console_error (LError e')])%list)).
Proof.
  intros Hfly Hout st1 replay.
  assert (Hsettle : SlackLogger.settle i outcome st
                    = match replay with
                      | (Normal a, s2) => (Normal a, s2)
                      | (Throw e, s2) =>
                          match origin with
                          | SlackLogger.FromTimer => SlackLogger.timer_catch e s2
                          | SlackLogger.FromDispose => (Throw e, s2)
                          end
                      | (Pending, s2) => (Pending, s2)
                      end).
  { unfold SlackLogger.settle. rewrite Hfly. reflexivity. }
  pose proof (settles_postMessages_settle messages outcome Hout st1) as Hnp.
  fold replay in Hnp.
  split; [| split; [| split; [| split]]].
  - intros ->. rewrite Hsettle.
    destruct replay as [[[] | e |] s2]; cbn [fst snd] in *.
    + split; [reflexivity | discriminate].
    + split; [apply timer_catch_returns |]. intros e' [= <-]. reflexivity.
    + congruence.
  - intros ->. rewrite Hsettle. by destruct replay as [[[] | e |] s2].
  - intros ->. reflexivity.
  - intros e [l r] Hnone. cbn [fst snd] in *.
    unfold SlackLogger.timer_catch, SlackLogger.this, Eff.gets, Eff.bind.
    cbn [fst snd]. rewrite Hnone. reflexivity.
  - intros e [l r] fb Hsome. cbn [fst snd] in *.
    unfold SlackLogger.timer_catch, SlackLogger.this, Eff.gets, Eff.bind,
      Eff.try_catch, SlackLogger.fallback_call.
    cbn [fst snd]. rewrite Hsome. cbn [fst snd].
    destruct (SlackLogger.rejects fb _); cbn [fst snd];
      (split; [reflexivity |]); (split; [intros H; try discriminate H |
                                         intros H; try discriminate H]).
    + eexists. reflexivity.
    + reflexivity.
Qed.

Lemma timer_flush_never_rejects_witness :
  fst (SlackLogger.settle 0 (Throw (DeliveryError "timeout"))
         (SlackLogger.run
            [SlackLogger.EvLogInfo "started"; SlackLogger.EvTimer]
            (Examples.slack_state None None)))
  = Normal tt.
Proof.
  apply (proj1 (timer_flush_never_rejects
                  (SlackLogger.run
                     [SlackLogger.EvLogInfo "started"; SlackLogger.EvTimer]
                     (Examples.slack_state None None))
                  0 0 SlackLogger.FromTimer (Throw (DeliveryError "timeout"))
                  ltac:(vm_compute; reflexivity) ltac:(discriminate))).
  reflexivity.
Defined.

(** ** A flush with nothing to send *)

(** X18.  A flush of an empty batch is silent: no array is allocated, no
    call is made to Slack, nothing is waited for.  So any number of
    firings of the interval on a sink that has buffered nothing leave it
    exactly as it was, and [dispose] of such a sink only marks it
    disposed and stops the timer. *)
Theorem flush_of_empty_batch_is_silent
    (st : SlackLogger.t * SlackLogger.Runtime) :
  SlackLogger.buffer st = [] ->
  (forall o, SlackLogger._flushMessages_begin o st = (Normal None, st))
  /\ (forall outcome, SlackLogger._flushMessages outcome st = (Normal tt, st))
  /\ (forall n, SlackLogger.run (replicate n SlackLogger.EvTimer) st = st)
  /\ (SlackLogger._isDisposed (fst st) = false ->
      snd (SlackLogger.dispose st)
      = (SlackLogger.set_disposed (SlackLogger.flushes (snd st)) (fst st), snd st)).
Proof.
  destruct st as [l r]. unfold SlackLogger.buffer. cbn [fst snd]. intros Hbuf.
  assert (Hflush : forall o, SlackLogger._flushMessages_begin o (l, r)
                             = (Normal None, (l, r))).
  { intros o. by rewrite flushMessages_begin_eq, Hbuf. }
  split; [exact Hflush |]. split; [| split].
  - intros outcome. unfold SlackLogger._flushMessages, Eff.bind.
    by rewrite Hflush.
  - induction n as [| n IH]; [reflexivity |].
    cbn [replicate SlackLogger.run fold_left SlackLogger.step fst].
    destruct (SlackLogger._timer l); [rewrite Hflush |]; exact IH.
  - intros Hd. rewrite dispose_eq, Hd. cbn [snd].
    rewrite flushMessages_begin_eq.
    change (SlackLogger._messages (SlackLogger.set_disposed _ l))
      with (SlackLogger._messages l).
    by rewrite Hbuf.
Qed.

Lemma flush_of_empty_batch_is_silent_witness :
  SlackLogger.run (replicate 3 SlackLogger.EvTimer) Scenarios.errors_only_state
  = Scenarios.errors_only_state.
Proof.
  apply (proj1 (proj2 (proj2 (flush_of_empty_batch_is_silent
                                Scenarios.errors_only_state
                                ltac:(vm_compute; reflexivity))))).
Defined.

(** ** What the sinks do to the ambient span *)

Section SpanFacts.













End SpanFacts.

Section SpanSinks.












End SpanSinks.

(** ** The status of the ambient span *)


(** ** From the decimal numeral back to the buffer *)

Section DecimalFacts.

Lemma parseInt_dec_char c d :
  dec_digit c = Some d ->
  Js.parseInt (String c "") (Some 10) = Some d /\ 0 <= d < 10.
Proof.
  destruct c as [[|] [|] [|] [|] [|] [|] [|] [|]]; cbn; intros H;
    try discriminate H; injection H as <-;
    (split; [vm_compute; reflexivity | lia]).
Qed.

Lemma fromString_loop_decimal s :
  forall high low v,
    dec_value_from (high * 2 ^ 32 + low) s = Some v ->
    0 <= high -> 0 <= low < 2 ^ 32 ->
    exists h' l',
      fromString_loop s 10 high low = (h', l')
      /\ 0 <= h' /\ 0 <= l' < 2 ^ 32
      /\ h' * 2 ^ 32 + l' = v.
Proof.
  induction s as [| c rest IH]; intros high low v Hval Hh Hl.
  - cbn in Hval. injection Hval as <-. exists high, low. cbn. repeat split; lia.
  - cbn [dec_value_from] in Hval. cbn [fromString_loop].
    destruct (dec_digit c) as [d |] eqn:E; [| discriminate Hval].
    destruct (parseInt_dec_char c d E) as [-> Hd].
    destruct (Z.leb_spec 0 d) as [_ | ?]; [| lia].
    unfold Js.floor_div, Js.rem, _UINT_MAX.
    rewrite Z.rem_mod_nonneg by lia.
    change 4294967296 with (2 ^ 32).
    pose proof (Z.div_mod (low * 10 + d) (2 ^ 32) ltac:(lia)) as Hdm.
    pose proof (Z.mod_pos_bound (low * 10 + d) (2 ^ 32) ltac:(lia)) as Hmb.
    assert (0 <= (low * 10 + d) / 2 ^ 32) by (apply Z.div_pos; lia).
    apply (IH (high * 10 + (low * 10 + d) / 2 ^ 32)
              ((low * 10 + d) mod 2 ^ 32) v); [| lia | exact Hmb].
    rewrite <- Hval. f_equal. lia.
Qed.

Lemma fromString_decimal s raddix :
  (exists c rest d, s = String c rest /\ dec_digit c = Some d) ->
  _fromString s raddix =
    let '(high, low) := fromString_loop s raddix 0 0 in
    _writeUInt32BE (_writeUInt32BE (new_Uint8Array 8) high 0) low 4.
Proof.
  intros (c & rest & d & -> & Hc).
  destruct c as [[|] [|] [|] [|] [|] [|] [|] [|]]; cbn in Hc;
    try discriminate Hc; reflexivity.
Qed.

(** A buffer of eight bytes is what the writer makes of its halves. *)
Lemma write_of_read (buffer : Uint8Array) (high low : Z) :
  byte_sized buffer -> length buffer = 8%nat ->
  _readInt32 buffer 0 = Some high -> _readInt32 buffer 4 = Some low ->
  _writeUInt32BE (_writeUInt32BE (new_Uint8Array 8) high 0) low 4 = buffer.
Proof.
  intros Hb Hlen Hhigh Hlow.
  do 9 (destruct buffer as [| ? buffer]; try discriminate Hlen).
  unfold byte_sized in Hb.
  repeat match goal with
         | H : Forall _ (_ :: _) |- _ => apply Forall_cons in H as [? H]
         end.
  unfold _readInt32 in Hhigh, Hlow. cbn [lookup list_lookup Nat.add] in Hhigh, Hlow.
  rewrite !shl_byte in Hhigh, Hlow by lia.
  injection Hhigh as Hhigh. injection Hlow as Hlow.
  change (2 ^ 16) with 65536 in *. change (2 ^ 8) with 256 in *.
  pose proof (stored_bytes_value high) as Sh.
  pose proof (stored_bytes_value low) as Sl.
  rewrite !shl_byte in Sh, Sl by (try apply Z.mod_pos_bound; lia).
  rewrite (Z.mod_small high) in Sh by (change (2 ^ 32) with 4294967296; lia).
  rewrite (Z.mod_small low) in Sl by (change (2 ^ 32) with 4294967296; lia).
  change (2 ^ 16) with 65536 in *. change (2 ^ 8) with 256 in *.
  unfold _writeUInt32BE, store, new_Uint8Array. cbn [replicate Nat.add].
  cbn [insert list_insert].
  pose proof (Z.mod_pos_bound (Js.band (Js.sar (Js.sar (Js.sar high 8) 8) 8) 255) 256 ltac:(lia)).
  pose proof (Z.mod_pos_bound (Js.band (Js.sar (Js.sar high 8) 8) 255) 256 ltac:(lia)).
  pose proof (Z.mod_pos_bound (Js.band (Js.sar high 8) 255) 256 ltac:(lia)).
  pose proof (Z.mod_pos_bound (Js.band high 255) 256 ltac:(lia)).
  pose proof (Z.mod_pos_bound (Js.band (Js.sar (Js.sar (Js.sar low 8) 8) 8) 255) 256 ltac:(lia)).
  pose proof (Z.mod_pos_bound (Js.band (Js.sar (Js.sar low 8) 8) 255) 256 ltac:(lia)).
  pose proof (Z.mod_pos_bound (Js.band (Js.sar low 8) 255) 256 ltac:(lia)).
  pose proof (Z.mod_pos_bound (Js.band low 255) 256 ltac:(lia)).
  repeat f_equal; lia.
Qed.

End DecimalFacts.

(** X20.  Round trip through the decimal numeral: for every buffer of
    eight bytes, [_toNumberString] in radix 10 returns a numeral that
    [_fromString] in radix 10 turns back into the same buffer.  So the
    decimal identifier handed to Datadog determines the 64 bits it was
    made from. *)
Theorem decimal_round_trip (buffer : Uint8Array) (radix : option Z) (fuel : nat) :
  byte_sized buffer ->
  length buffer = 8%nat ->
  radix = None \/ radix = Some 10 ->
  (20 <= fuel)%nat ->
  exists s,
    _toNumberString fuel buffer radix = Some s
    /\ _fromString s 10 = buffer.
Proof.
  intros Hb Hlen Hradix Hfuel.
  destruct (readInt32_byte_sized buffer 0 Hb Hlen ltac:(lia)) as (high & Hh & Hhr).
  destruct (readInt32_byte_sized buffer 4 Hb Hlen ltac:(lia)) as (low & Hl & Hlr).
  destruct (toNumberString_halves fuel high low buffer radix Hh Hl Hhr Hlr
              Hradix Hfuel) as (s & Hs & Hne & Hval & _).
  exists s. split; [exact Hs |].
  assert (Hfirst : exists c rest d, s = String c rest /\ dec_digit c = Some d).
  { destruct s as [| c rest]; [congruence |].
    cbn [dec_value_from] in Hval.
    destruct (dec_digit c) as [d |] eqn:E; [| discriminate Hval].
    by exists c, rest, d. }
  rewrite (fromString_decimal s 10 Hfirst).
  destruct (fromString_loop_decimal s 0 0 _ Hval ltac:(lia) ltac:(lia))
    as (h' & l' & -> & Hh' & Hl' & Hsum).
  assert (h' = high /\ l' = low) as [-> ->].
  { change (2 ^ 32) with 4294967296 in *. lia. }
  by apply write_of_read.
Qed.

Lemma decimal_round_trip_witness :
  exists s,
    _toNumberString 64 (_fromString "8448eb211c80319c" 16) None = Some s
    /\ _fromString s 10 = _fromString "8448eb211c80319c" 16.
Proof.
  apply (decimal_round_trip (_fromString "8448eb211c80319c" 16) None 64).
  - apply fromString_shape.
  - reflexivity.
  - left. reflexivity.
  - lia.
Defined.

(** ** After disposal *)

Section AfterDisposal.
Import SlackLogger SlackSpec.

Lemma stopped_step ev (st : State) :
  _isDisposed (fst st) = true -> _timer (fst st) = false ->
  _isDisposed (fst (step ev st)) = true
  /\ _timer (fst (step ev st)) = false
  /\ posted (snd (step ev st)) = posted (snd st)
  /\ _disposePromise (fst (step ev st)) = _disposePromise (fst st).
Proof.
  intros Hd Ht.
  assert (Hshape : forall st', log_shape (fst st) (snd st) st' ->
            fst st' = fst st /\ posted (snd st') = posted (snd st)).
  { intros st' (w1 & [-> | (log & ->)]); by split. }
  assert (Hsame : forall st', fst st' = fst st /\ posted (snd st') = posted (snd st) ->
            _isDisposed (fst st') = true /\ _timer (fst st') = false
            /\ posted (snd st') = posted (snd st)
            /\ _disposePromise (fst st') = _disposePromise (fst st)).
  { intros st' [-> ->]. by repeat split. }
  destruct ev; cbn [step].
  - destruct st as [l r]. apply Hsame, Hshape, logDebug_shape.
  - destruct st as [l r]. apply Hsame, Hshape, logInfo_shape.
  - destruct st as [l r]. apply Hsame, Hshape, logWarning_shape.
  - destruct st as [l r]. apply Hsame, Hshape, logError_shape.
  - rewrite Ht. by repeat split.
  - destruct st as [l r]. rewrite dispose_eq. cbn [fst] in Hd. rewrite Hd.
    by repeat split.
  - apply Hsame. destruct st as [l r]. unfold settle. cbn [fst snd].
    destruct (in_flight r !! i) as [[messages origin] |]; [| by split].
    set (s1 := (l, set_in_flight (delete i (in_flight r)) r)).
    pose proof (keeps_core_postMessages_settle messages outcome s1) as Hk.
    assert (Hcore : forall s2 : State, core s2 = core s1 ->
              fst s2 = l /\ posted (snd s2) = posted r).
    { intros [l2 r2]. unfold core. cbn [fst snd].
      intros [= -> _ _ Hposted _ _]. by split. }
    destruct (_postMessages_settle messages outcome s1) as [[[] | e |] s2];
      cbn [snd] in Hk; try (by apply Hcore).
    destruct origin; [| by apply Hcore].
    apply Hcore. rewrite keeps_core_timer_catch. exact Hk.
Qed.

End AfterDisposal.

(** X21.  Once a sink is disposed and its timer stopped, it never calls
    Slack again: whatever is logged afterwards is still buffered, but no
    firing of the interval, no further [dispose] and no settling of a post
    call makes a post, so these records are never delivered; the promise
    of the disposal stays the same.  Every call of [dispose] on a sink
    not yet disposed leads to such a state. *)
Theorem nothing_is_posted_after_disposal
    (st : SlackLogger.t * SlackLogger.Runtime) (evs : list SlackLogger.Event) :
  SlackLogger._isDisposed (fst st) = true ->
  SlackLogger._timer (fst st) = false ->
  SlackLogger.posted (snd (SlackLogger.run evs st)) = SlackLogger.posted (snd st)
  /\ SlackLogger._disposePromise (fst (SlackLogger.run evs st))
     = SlackLogger._disposePromise (fst st)
  /\ (forall st0,
        SlackLogger._isDisposed (fst st0) = false ->
        SlackLogger._isDisposed (fst (snd (SlackLogger.dispose st0))) = true
        /\ SlackLogger._timer (fst (snd (SlackLogger.dispose st0))) = false).
Proof.
  intros Hd Ht. split; [| split].
  - revert st Hd Ht. induction evs as [| ev evs IH]; intros st Hd Ht; [reflexivity |].
    cbn [SlackLogger.run fold_left].
    destruct (stopped_step ev st Hd Ht) as (Hd' & Ht' & Hp & _).
    fold (SlackLogger.run evs (SlackLogger.step ev st)).
    rewrite (IH _ Hd' Ht'). exact Hp.
  - revert st Hd Ht. induction evs as [| ev evs IH]; intros st Hd Ht; [reflexivity |].
    cbn [SlackLogger.run fold_left].
    destruct (stopped_step ev st Hd Ht) as (Hd' & Ht' & _ & Hp).
    fold (SlackLogger.run evs (SlackLogger.step ev st)).
    rewrite (IH _ Hd' Ht'). exact Hp.
  - intros [l r] Hnd. cbn [fst] in Hnd. rewrite dispose_eq, Hnd. cbn [snd].
    destruct (flush_begin_fields SlackLogger.FromDispose
                (SlackLogger.set_disposed (SlackLogger.flushes r) l) r)
      as (Hdis & _ & Htimer & _).
    split; [exact Hdis | exact Htimer].
Qed.

Lemma nothing_is_posted_after_disposal_witness :
  SlackLogger.posted
    (snd (SlackLogger.run
            [SlackLogger.EvLogError (VString "late"); SlackLogger.EvTimer;
             SlackLogger.EvDispose]
            (snd (SlackLogger.dispose Scenarios.errors_only_state))))
  = SlackLogger.posted (snd (snd (SlackLogger.dispose Scenarios.errors_only_state))).
Proof.
  apply (proj1 (nothing_is_posted_after_disposal
                  (snd (SlackLogger.dispose Scenarios.errors_only_state))
                  [SlackLogger.EvLogError (VString "late"); SlackLogger.EvTimer;
                   SlackLogger.EvDispose]
                  ltac:(vm_compute; reflexivity) ltac:(vm_compute; reflexivity))).
Defined.

(** ** A write in JSON format *)

Section JsonFacts.


End JsonFacts.



(** ** A write that finds the mutex held *)


